(** * simplefs: on-disk metadata, format tool and mount/sync paths

    A shallow embedding of [mkfs.c] (the format tool), [super.c] (mount
    loader, sync engine, inode write-back, unmount, statfs) and [fs.c]
    (loading and unloading the module) of the simplefs repository, with
    the properties of its metadata engine.

    Conventions.
    - A C [uint32_t]/[uint64_t] is a [Z] kept in range by an explicit
      [mod]; [off_t] and [int] are signed.
    - Memory that reaches the disk is a list of bytes (each a [Z] in
      [0, 256)); a block is 4096 of them.
    - The host byte order is a parameter: [htole32] and friends depend on
      it, and so does every load or store of a multi-byte field. *)

From Stdlib Require Import ZArith List Lia Bool.
From stdpp Require Import base list.
Import ListNotations.
Open Scope Z_scope.

(** ** Bytes, words and byte order *)

Definition u32 (x : Z) : Z := x mod 2 ^ 32.
Definition u64 (x : Z) : Z := x mod 2 ^ 64.

(** Conversion of a 32-bit pattern to C [int]. *)
Definition to_int (x : Z) : Z :=
  let y := u32 x in if y <? 2 ^ 31 then y else y - 2 ^ 32.

Definition is_byte (b : Z) : Prop := 0 <= b < 256.

(** The [n] low-order bytes of [v], least significant first. *)
Fixpoint le_bytes (n : nat) (v : Z) : list Z :=
  match n with
  | O => []
  | S n' => v mod 256 :: le_bytes n' (v / 256)
  end.

(** The number whose little-endian bytes are [l]. *)
Fixpoint le_value (l : list Z) : Z :=
  match l with
  | [] => 0
  | b :: r => b + 256 * le_value r
  end.

Inductive byte_order : Set := LittleEndian | BigEndian.

(** How a host stores an [n]-byte integer in memory, and reads it back. *)
Definition host_bytes (h : byte_order) (n : nat) (v : Z) : list Z :=
  match h with
  | LittleEndian => le_bytes n v
  | BigEndian => rev (le_bytes n v)
  end.

Definition host_value (h : byte_order) (l : list Z) : Z :=
  match h with
  | LittleEndian => le_value l
  | BigEndian => le_value (rev l)
  end.

(** [__bswap_32] / [__bswap_64]. *)
Definition bswap (n : nat) (v : Z) : Z := le_value (rev (le_bytes n v)).

(** [htole32], [le32toh], [htole64] of <endian.h>: the identity on a
    little-endian host, a byte swap on a big-endian one. *)
Definition htole32 (h : byte_order) (v : Z) : Z :=
  match h with LittleEndian => v | BigEndian => bswap 4 v end.
Definition le32toh (h : byte_order) (v : Z) : Z :=
  match h with LittleEndian => v | BigEndian => bswap 4 v end.
Definition htole64 (h : byte_order) (v : Z) : Z :=
  match h with LittleEndian => v | BigEndian => bswap 8 v end.

(** [memcpy]-style slice of a buffer: [len] bytes from offset [off]. *)
Definition slice (off len : nat) (l : list Z) : list Z :=
  take len (drop off l).

(** [memcpy (dst + off, src, length src)]. *)
Definition memcpy_at (dst : list Z) (off : nat) (src : list Z) : list Z :=
  take off dst ++ src ++ drop (off + length src) dst.

(** [strncpy (dest, src, n)]: copies up to the first NUL, then pads with
    NULs up to [n] bytes. *)
Fixpoint strncpy (n : nat) (src : list Z) : list Z :=
  match n with
  | O => []
  | S n' =>
      match src with
      | [] => 0 :: strncpy n' []
      | c :: r => if c =? 0 then 0 :: strncpy n' [] else c :: strncpy n' r
      end
  end.

(** ** Constants *)

(** Modelled from the spec: [SIMPLEFS_BLOCK_SIZE] of simplefs.h, a header
    that is not among the sources.  Section 3 gives 4096 bytes, which is
    also what [struct superblock] of mkfs.c pads its 32 bytes of counters
    to ([padding[4064]]). *)
Definition SIMPLEFS_BLOCK_SIZE : Z := 4096.

(** Modelled from the spec: [SIMPLEFS_SB_BLOCK_NR] of simplefs.h; block 0
    is reserved for the superblock (section 3). *)
Definition SIMPLEFS_SB_BLOCK_NR : Z := 0.

(** Bits held by one bitmap block, [SIMPLEFS_BLOCK_SIZE * 8]. *)
Definition BITS_PER_BLOCK : Z := SIMPLEFS_BLOCK_SIZE * 8.

(** 64-bit words in one block: the length of the [uint64_t] view that
    mkfs.c takes of its block buffer. *)
Definition WORDS_PER_BLOCK : nat := 512.

Definition ones64 : Z := 0xffffffffffffffff.

(** [~x] on a [uint64_t]. *)
Definition not64 (x : Z) : Z := Z.lxor x ones64.

(** <errno.h>, <stdlib.h> and <sys/stat.h>. *)
Definition EIO : Z := 5.
Definition ENOMEM : Z := 12.
Definition EINVAL : Z := 22.
Definition EXIT_FAILURE : Z := 1.
Definition S_IFDIR : Z := 16384.  (* 0040000 *)
Definition S_IRUSR : Z := 256.
Definition S_IWUSR : Z := 128.
Definition S_IXUSR : Z := 64.
Definition S_IRGRP : Z := 32.
Definition S_IWGRP : Z := 16.
Definition S_IXGRP : Z := 8.
Definition S_IROTH : Z := 4.
Definition S_IXOTH : Z := 1.

(** ** Data structures *)

(** Modelled from the spec: the layout of [struct simplefs_inode], which
    simplefs.h declares and the sources do not include: consecutive
    32-bit fields in the order mode, uid, gid, size, ctime, atime, mtime,
    blocks, nlink, block pointer (section 6), then the inline data. *)
Definition inode_layout (h : byte_order) (fields : list Z) (data : list Z) : list Z :=
  flat_map (host_bytes h 4) fields ++ data.

(** A block of the device: [SIMPLEFS_BLOCK_SIZE] bytes. *)
Abbreviation block := (list Z) (only parsing).

(** [struct simplefs_sb_info]: the eight 32-bit fields that start block 0. *)
Record simplefs_sb_info : Type := mk_sb_info {
  magic : Z;
  nr_blocks : Z;
  nr_inodes : Z;
  nr_istore_blocks : Z;
  nr_ifree_blocks : Z;
  nr_bfree_blocks : Z;
  nr_free_inodes : Z;
  nr_free_blocks : Z
}.

(** Modelled from the spec: the order of the fields in
    [struct simplefs_sb_info], which simplefs.h declares and the sources
    do not include: magic, nr_blocks, nr_inodes, nr_istore_blocks,
    nr_ifree_blocks, nr_bfree_blocks, nr_free_inodes, nr_free_blocks, each
    32 bits wide, from offset 0 (section 6). *)
Definition sb_fields (sb : simplefs_sb_info) : list Z :=
  [magic sb; nr_blocks sb; nr_inodes sb; nr_istore_blocks sb;
   nr_ifree_blocks sb; nr_bfree_blocks sb; nr_free_inodes sb; nr_free_blocks sb].

(** The memory image of [struct superblock] (counters, then 4064 zeroed
    bytes of padding) on a host of byte order [h]. *)
Definition sb_bytes (h : byte_order) (sb : simplefs_sb_info) : block :=
  flat_map (host_bytes h 4) (sb_fields sb) ++ repeat 0 4064%nat.

(** Field [k] of a buffer viewed as a [struct simplefs_sb_info]. *)
Definition sb_field (h : byte_order) (b : list Z) (k : nat) : Z :=
  host_value h (slice (4 * k) 4 b).

(** [bh->b_data] cast to a pointer to [struct simplefs_sb_info]: the
    fields as the host reads them through that pointer. *)
Definition sb_of_bytes (h : byte_order) (b : list Z) : simplefs_sb_info :=
  {| magic := sb_field h b 0;
     nr_blocks := sb_field h b 1;
     nr_inodes := sb_field h b 2;
     nr_istore_blocks := sb_field h b 3;
     nr_ifree_blocks := sb_field h b 4;
     nr_bfree_blocks := sb_field h b 5;
     nr_free_inodes := sb_field h b 6;
     nr_free_blocks := sb_field h b 7 |}.

(** Every field through [htole32], as [write_superblock] fills the
    record it writes. *)
Definition sb_htole32 (h : byte_order) (sb : simplefs_sb_info) : simplefs_sb_info :=
  {| magic := htole32 h (magic sb);
     nr_blocks := htole32 h (nr_blocks sb);
     nr_inodes := htole32 h (nr_inodes sb);
     nr_istore_blocks := htole32 h (nr_istore_blocks sb);
     nr_ifree_blocks := htole32 h (nr_ifree_blocks sb);
     nr_bfree_blocks := htole32 h (nr_bfree_blocks sb);
     nr_free_inodes := htole32 h (nr_free_inodes sb);
     nr_free_blocks := htole32 h (nr_free_blocks sb) |}.

(** The superblock codec: a record is encoded the way mkfs.c writes it
    and decoded the way the mount loader reads it. *)
Definition sb_encode (h : byte_order) (sb : simplefs_sb_info) : block :=
  sb_bytes h (sb_htole32 h sb).
Definition sb_decode (h : byte_order) (b : block) : simplefs_sb_info :=
  sb_of_bytes h b.

(** Every field fits 32 bits. *)
Definition sb_in_range (sb : simplefs_sb_info) : Prop :=
  Forall (fun v => 0 <= v < 2 ^ 32) (sb_fields sb).

(** Local variables of [write_superblock], lines 47-72 of mkfs.c. *)
Record geometry : Type := mk_geometry {
  g_nr_blocks : Z;
  g_nr_inodes : Z;
  g_nr_istore_blocks : Z;
  g_nr_ifree_blocks : Z;
  g_nr_bfree_blocks : Z;
  g_nr_data_blocks : Z
}.

(** The in-memory mirror that [sb->s_fs_info] points to: the kernel build
    of [struct simplefs_sb_info], counters followed by the two bitmaps. *)
Record sb_mirror : Type := mk_mirror {
  sbi : simplefs_sb_info;
  ifree_bitmap : list Z;
  bfree_bitmap : list Z
}.

(** The part of a VFS inode (and of its [simplefs_inode_info]) that
    [simplefs_write_inode] reads. *)
Record vfs_inode : Type := mk_inode {
  i_ino : Z;
  i_mode : Z;
  i_uid : Z;
  i_gid : Z;
  i_size : Z;
  i_ctime : Z;
  i_atime : Z;
  i_mtime : Z;
  i_blocks : Z;
  i_nlink : Z;
  ei_block : Z;
  i_data : list Z
}.

(** What the command line and the first system calls of [main] return. *)
Record invocation : Type := mk_invocation {
  argc : Z;
  open_fd : Z;          (* result of open(argv[1], O_RDWR) *)
  fstat_ret : Z;        (* result of fstat *)
  st_is_blk : bool;     (* (st_mode & S_IFMT) == S_IFBLK *)
  st_size : Z;          (* stat_buf.st_size as fstat filled it *)
  ioctl_ret : Z;        (* result of ioctl(BLKGETSIZE64) *)
  blk_size : Z          (* size that the ioctl stores *)
}.

(** The message [main] prints on a failure. *)
Inductive diagnostic : Set :=
| Usage | OpenFailed | FstatFailed | IoctlFailed | NotLargeEnough
| SuperblockFailed | InodeStoreFailed | IfreeFailed | BfreeFailed
| DataBlocksFailed.

(** What a run of the format tool leaves behind: its exit status, the
    diagnostic printed, the blocks written to the target from offset 0,
    and whether a store went past the end of a heap buffer (after which
    the C behaviour is undefined; the model carries on as if that store
    had landed outside the buffer). *)
Record outcome : Type := mk_outcome {
  exit_code : Z;
  diag : option diagnostic;
  image : list block;
  overrun : bool
}.

(** Events of the buffer cache and of the allocator, most recent first. *)
Inductive kevent : Set :=
| K_bread (idx : Z)
| K_dirty (idx : Z)
| K_sync (idx : Z)
| K_brelse
| K_kzalloc
| K_kfree.

(** The block device as the buffer cache shows it, and the event log. *)
Record kstate : Type := mk_kstate {
  kdisk : list block;
  klog : list kevent
}.

(** Outcomes that a mount takes from its surroundings: whether each
    [kzalloc] succeeds, what [simplefs_iget (sb, 0)] of inode.c returns
    (0, or a negative errno for an [ERR_PTR]), whether [d_make_root]
    succeeds. *)
Record mount_env : Type := mk_mount_env {
  sbi_alloc_ok : bool;
  ifree_alloc_ok : bool;
  bfree_alloc_ok : bool;
  iget_root_err : Z;
  d_make_root_ok : bool
}.

(** The fields of [struct super_block] that [simplefs_fill_super] leaves
    set, with its return value.  [s_fs_info] is the pointer as the code
    leaves it: the error paths free the mirror without clearing it. *)
Record mount_result : Type := mk_mount_result {
  mnt_ret : Z;
  s_fs_info : option sb_mirror;
  s_root : bool
}.

(** ** Bitmap region *)

(** Modelled from the spec: [test (index)] of section 4.3 (the bitmap
    helpers of the repository are not among the sources).  Bit [k] lives
    in byte [k / 8] at position [k mod 8], the numbering under which the
    [htole64] words of mkfs.c are a flat bit vector; [true] is free. *)
Definition bitmap_test (bm : list Z) (k : Z) : bool :=
  Z.testbit (nth (Z.to_nat (k / 8)) bm 0) (k mod 8).

(** Modelled from the spec: [set_used (index)] of section 4.3. *)
Definition set_used (bm : list Z) (k : Z) : list Z :=
  <[Z.to_nat (k / 8) := Z.clearbit (nth (Z.to_nat (k / 8)) bm 0) (k mod 8)]> bm.

Fixpoint scan_free (bm : list Z) (n : nat) (k : Z) : option Z :=
  match n with
  | O => None
  | S n' => if bitmap_test bm k then Some k else scan_free bm n' (k + 1)
  end.

(** Modelled from the spec: [find_first_free] of section 4.3, a linear
    scan for the lowest-indexed free bit among the first [size] bits;
    [None] is the no-space signal. *)
Definition find_first_free (bm : list Z) (size : Z) : option Z :=
  scan_free bm (Z.to_nat size) 0.


(** ** A sample configuration

    Values on which the model is run in the examples at the end: a header
    with 72-byte inode records (56 to a block, 32 bytes of inline data)
    and the magic number 0xDEADCE11; a target on which every write
    succeeds; a regular file of a given size, opened and stat'ed without
    error; a mount for which memory is available. *)

Definition sample_inodes_per_block : Z := 56.
Definition sample_magic : Z := 0xDEADCE11.
Definition sample_i_data_size : nat := 32.
Definition every_write_ok : nat -> bool := fun _ => true.
(** A target that takes [n] blocks and then refuses every write. *)
Definition first_writes_ok (n : nat) : nat -> bool := fun k => (k <? n)%nat.
Definition file_of_size (size : Z) : invocation :=
  {| argc := 2; open_fd := 3; fstat_ret := 0; st_is_blk := false;
     st_size := size; ioctl_ret := 0; blk_size := 0 |}.
Definition mount_ready : mount_env :=
  {| sbi_alloc_ok := true; ifree_alloc_ok := true; bfree_alloc_ok := true;
     iget_root_err := 0; d_make_root_ok := true |}.

Section Simplefs.

Set Default Proof Using "Type".

(** Byte order of the machine that runs the code. *)
Variable host : byte_order.

(** [SIMPLEFS_INODES_PER_BLOCK] and [SIMPLEFS_MAGIC] of simplefs.h, and
    the size of the inline data array [i_data] of an inode record: the
    header is not among the sources, so the three are parameters. *)
Variable SIMPLEFS_INODES_PER_BLOCK : Z.
Variable SIMPLEFS_MAGIC : Z.
Variable I_DATA_SIZE : nat.

(** Whether the [k]-th [write (2)] on the target (counted from 0)
    transfers its whole buffer. *)
Variable write_ok : nat -> bool.

(** ** mkfs.c: the format tool *)

(** Returns ceil(a/b) *)
Definition idiv_ceil (a b : Z) : Z :=
  let ret := a / b in
  if negb (a mod b =? 0) then u32 (ret + 1) else ret.

(** The target as a sequence of blocks written from offset 0; every write
    of the tool is one block long and goes to the current end. *)
Definition sys_write (f : list block) (buf : block) : option (list block) :=
  if write_ok (length f) then Some (f ++ [buf]) else None.

(** Lines 47-72 of [write_superblock]: the geometry. *)
Definition superblock_geometry (size : Z) : geometry :=
  let nr_blocks := u32 (Z.quot size SIMPLEFS_BLOCK_SIZE) in
  let nr_inodes := nr_blocks in
  let mod_ := nr_inodes mod SIMPLEFS_INODES_PER_BLOCK in
  let nr_inodes :=
    if negb (mod_ =? 0) then u32 (nr_inodes + (SIMPLEFS_INODES_PER_BLOCK - mod_))
    else nr_inodes in
  let nr_istore_blocks := idiv_ceil nr_inodes SIMPLEFS_INODES_PER_BLOCK in
  let nr_ifree_blocks := idiv_ceil nr_inodes (SIMPLEFS_BLOCK_SIZE * 8) in
  let nr_bfree_blocks := idiv_ceil nr_blocks (SIMPLEFS_BLOCK_SIZE * 8) in
  let nr_data_blocks :=
    u32 (nr_blocks - nr_istore_blocks - nr_ifree_blocks - nr_bfree_blocks) in
  mk_geometry nr_blocks nr_inodes nr_istore_blocks nr_ifree_blocks
    nr_bfree_blocks nr_data_blocks.

(** Lines 77-86: the record kept in memory, every field through
    [htole32]. *)
Definition superblock_info (size : Z) : simplefs_sb_info :=
  let g := superblock_geometry size in
  {| magic := htole32 host SIMPLEFS_MAGIC;
     nr_blocks := htole32 host (g_nr_blocks g);
     nr_inodes := htole32 host (g_nr_inodes g);
     nr_istore_blocks := htole32 host (g_nr_istore_blocks g);
     nr_ifree_blocks := htole32 host (g_nr_ifree_blocks g);
     nr_bfree_blocks := htole32 host (g_nr_bfree_blocks g);
     nr_free_inodes := htole32 host (u32 (g_nr_inodes g - 1));
     nr_free_blocks := htole32 host (u32 (g_nr_data_blocks g - 1)) |}.

(** The values that those lines encode. *)
Definition superblock_record (size : Z) : simplefs_sb_info :=
  let g := superblock_geometry size in
  {| magic := SIMPLEFS_MAGIC;
     nr_blocks := g_nr_blocks g;
     nr_inodes := g_nr_inodes g;
     nr_istore_blocks := g_nr_istore_blocks g;
     nr_ifree_blocks := g_nr_ifree_blocks g;
     nr_bfree_blocks := g_nr_bfree_blocks g;
     nr_free_inodes := u32 (g_nr_inodes g - 1);
     nr_free_blocks := u32 (g_nr_data_blocks g - 1) |}.

(** [write_superblock]: [None] stands for the NULL it returns when the
    write fails ([malloc] is taken to succeed throughout the tool). *)
Definition write_superblock (f : list block) (size : Z)
  : option simplefs_sb_info * list block :=
  let sb := superblock_info size in
  match sys_write f (sb_bytes host sb) with
  | Some f' => (Some sb, f')
  | None => (None, f)
  end.

(** [n] writes of the same buffer: the body of the loops
    [for (i = 1; i < bound; i++)], which stop at the first failed write
    with [ret = -1] and end with [ret = 0]. *)
Fixpoint write_repeat (n : nat) (f : list block) (buf : block) : Z * list block :=
  match n with
  | O => (0, f)
  | S n' =>
      match sys_write f buf with
      | Some f' => write_repeat n' f' buf
      | None => (-1, f)
      end
  end.

(** Iterations of [for (i = 1; i < bound; i++)] on [uint32_t]. *)
Definition iterations_from_1 (bound : Z) : nat := Z.to_nat (bound - 1).

(** The root inode record at the start of a zeroed block (lines 139-159);
    [i_data] stays zero. *)
Definition root_inode_block (sb : simplefs_sb_info) : block :=
  let first_data_block :=
    u32 (1 + le32toh host (nr_bfree_blocks sb) + le32toh host (nr_ifree_blocks sb)
         + le32toh host (nr_istore_blocks sb)) in
  let i_mode :=
    htole32 host (Z.lor S_IFDIR (Z.lor S_IRUSR (Z.lor S_IRGRP (Z.lor S_IROTH
      (Z.lor S_IWUSR (Z.lor S_IWGRP (Z.lor S_IXUSR (Z.lor S_IXGRP S_IXOTH)))))))) in
  let record :=
    inode_layout host
      [i_mode; 0; 0; htole32 host SIMPLEFS_BLOCK_SIZE;
       htole32 host 0; htole32 host 0; htole32 host 0;
       htole32 host 1; htole32 host 2; htole32 host first_data_block] [] in
  record ++ repeat 0 (Z.to_nat SIMPLEFS_BLOCK_SIZE - length record)%nat.

(** [write_inode_store]; the loop bound is [sb->info.nr_istore_blocks] as
    stored, without [le32toh]. *)
Definition write_inode_store (f : list block) (sb : simplefs_sb_info) : Z * list block :=
  match sys_write f (root_inode_block sb) with
  | None => (-1, f)
  | Some f1 =>
      write_repeat (iterations_from_1 (nr_istore_blocks sb)) f1
        (repeat 0 (Z.to_nat SIMPLEFS_BLOCK_SIZE))
  end.

(** The bytes of a block buffer seen as an array of [uint64_t]. *)
Definition words_bytes (ws : list Z) : block := flat_map (host_bytes host 8) ws.

(** [write_ifree_blocks] *)
Definition write_ifree_blocks (f : list block) (sb : simplefs_sb_info) : Z * list block :=
  (* Set all bits to 1 *)
  let ifree := repeat ones64 WORDS_PER_BLOCK in
  (* First ifree block, containing first used inode *)
  let ifree := <[0%nat := htole64 host 0xfffffffffffffffe]> ifree in
  match sys_write f (words_bytes ifree) with
  | None => (-1, f)
  | Some f1 =>
      (* All ifree blocks except the one containing 2 first inodes *)
      let ifree := <[0%nat := 0xffffffffffffffff]> ifree in
      write_repeat (iterations_from_1 (le32toh host (nr_ifree_blocks sb))) f1
        (words_bytes ifree)
  end.

(** The [for (mask = 0x1; mask; mask <<= 1)] loop of [write_bfree_blocks]
    from a given [mask]: returns [line] and [nr_used] at its exit.  The
    mask is zero after 64 shifts, so a fuel of 65 is never used up. *)
Fixpoint fill_line (fuel : nat) (mask line nr_used : Z) : Z * Z :=
  match fuel with
  | O => (line, nr_used)
  | S fuel' =>
      if mask =? 0 then (line, nr_used)
      else
        let line := Z.land line (not64 mask) in
        let nr_used := u32 (nr_used - 1) in
        if nr_used =? 0 then (line, nr_used)
        else fill_line fuel' (u64 (Z.shiftl mask 1)) line nr_used
  end.

(** The [while (nr_used)] loop from word [i].  Every turn lowers
    [nr_used], so a fuel of [nr_used] is enough.  A store at an index
    past the buffer is recorded in the flag and leaves the buffer as it
    is.  Such a store lands outside the block that [malloc] returned: the
    behaviour of the C program is undefined from there on, so what the
    model computes once the flag is set (return values, exit status,
    blocks written later) does not describe the program. *)
Fixpoint fill_used (fuel : nat) (i : nat) (nr_used : Z) (bfree : list Z) (over : bool)
  : list Z * bool :=
  match fuel with
  | O => (bfree, over)
  | S fuel' =>
      if nr_used =? 0 then (bfree, over)
      else
        let '(line, nr_used') := fill_line 65 1 ones64 nr_used in
        fill_used fuel' (S i) nr_used' (<[i := htole64 host line]> bfree)
          (over || negb (i <? length bfree)%nat)
  end.

(** [write_bfree_blocks], with the overrun flag of its first loop. *)
Definition write_bfree_blocks (f : list block) (sb : simplefs_sb_info)
  : Z * list block * bool :=
  (* Number of used blocks *)
  let nr_used :=
    u32 (le32toh host (nr_istore_blocks sb) + le32toh host (nr_ifree_blocks sb)
         + le32toh host (nr_bfree_blocks sb) + 2) in
  let bfree := repeat ones64 WORDS_PER_BLOCK in
  let '(bfree, over) := fill_used (Z.to_nat nr_used) 0 nr_used bfree false in
  match sys_write f (words_bytes bfree) with
  | None => (-1, f, over)
  | Some f1 =>
      (* Other blocks *)
      let bfree := repeat ones64 WORDS_PER_BLOCK in
      let '(ret, f2) :=
        write_repeat (iterations_from_1 (le32toh host (nr_bfree_blocks sb))) f1
          (words_bytes bfree) in
      (ret, f2, over)
  end.

(** [write_data_blocks]: unimplemented in the source, returns 0. *)
Definition write_data_blocks (f : list block) (sb : simplefs_sb_info) : Z * list block :=
  (0, f).

(** The size that [main] checks: [st_size], replaced by the result of
    [BLKGETSIZE64] on a block device. *)
Definition device_size (inv : invocation) : Z :=
  if st_is_blk inv then blk_size inv else st_size inv.

(** The tail of [main], from the first write on. *)
Definition format_device (size : Z) : outcome :=
  match write_superblock [] size with
  | (None, f) => mk_outcome EXIT_FAILURE (Some SuperblockFailed) f false
  | (Some sb, f) =>
      let '(ret, f) := write_inode_store f sb in
      if negb (ret =? 0) then mk_outcome EXIT_FAILURE (Some InodeStoreFailed) f false
      else
        let '(ret, f) := write_ifree_blocks f sb in
        if negb (ret =? 0) then mk_outcome EXIT_FAILURE (Some IfreeFailed) f false
        else
          let '(ret, f, over) := write_bfree_blocks f sb in
          if negb (ret =? 0) then mk_outcome EXIT_FAILURE (Some BfreeFailed) f over
          else
            let '(ret, f) := write_data_blocks f sb in
            if negb (ret =? 0) then mk_outcome EXIT_FAILURE (Some DataBlocksFailed) f over
            else mk_outcome ret None f over
  end.

(** [main] *)
Definition main (inv : invocation) : outcome :=
  if negb (argc inv =? 2) then mk_outcome EXIT_FAILURE (Some Usage) [] false
  else if open_fd inv =? -1 then mk_outcome EXIT_FAILURE (Some OpenFailed) [] false
  else if negb (fstat_ret inv =? 0) then mk_outcome EXIT_FAILURE (Some FstatFailed) [] false
  else if st_is_blk inv && negb (ioctl_ret inv =? 0)
  then mk_outcome EXIT_FAILURE (Some IoctlFailed) [] false
  else
    let size := device_size inv in
    (* Check if image is large enough *)
    let min_size := 100 * SIMPLEFS_BLOCK_SIZE in
    if size <=? min_size then mk_outcome EXIT_FAILURE (Some NotLargeEnough) [] false
    else format_device size.

(** ** super.c: buffer cache primitives *)

Definition klog_add (e : kevent) (s : kstate) : kstate :=
  mk_kstate (kdisk s) (e :: klog s).

(** [sb_bread (sb, idx)]: the buffer of block [idx], or NULL ([None]) when
    the block cannot be read; a block outside the device cannot. *)
Definition sb_bread (s : kstate) (idx : Z) : option block * kstate :=
  ((if idx <? 0 then None else kdisk s !! Z.to_nat idx), klog_add (K_bread idx) s).

(** A store into [bh->b_data]: later reads of the block see it. *)
Definition bh_write (s : kstate) (idx : Z) (b : block) : kstate :=
  mk_kstate (<[Z.to_nat idx := b]> (kdisk s)) (klog s).

(** [mark_buffer_dirty (bh); if (wait) sync_dirty_buffer (bh); brelse (bh);] *)
Definition release_dirty (idx : Z) (wait : Z) (s : kstate) : kstate :=
  let s := klog_add (K_dirty idx) s in
  let s := if negb (wait =? 0) then klog_add (K_sync idx) s else s in
  klog_add K_brelse s.

(** ** super.c: inode write-back *)

(** The on-disk inode record as [simplefs_write_inode] fills it: ten
    32-bit fields stored in host order, then [i_data] through [strncpy]. *)
Definition disk_inode_bytes (inode : vfs_inode) : list Z :=
  inode_layout host
    [u32 (i_mode inode); u32 (i_uid inode); u32 (i_gid inode); u32 (i_size inode);
     u32 (i_ctime inode); u32 (i_atime inode); u32 (i_mtime inode);
     u32 (i_blocks inode); u32 (i_nlink inode); u32 (ei_block inode)]
    (strncpy I_DATA_SIZE (i_data inode)).

(** [sizeof (struct simplefs_inode)] *)
Definition inode_record_size : nat := (40 + I_DATA_SIZE)%nat.

(** [simplefs_write_inode] *)
Definition simplefs_write_inode (inode : vfs_inode) (m : sb_mirror) (s : kstate)
  : Z * kstate :=
  (* Inode number *)
  let ino := u32 (i_ino inode) in
  let inode_block := u32 (ino / SIMPLEFS_INODES_PER_BLOCK + 1) in
  let inode_shift := u32 (ino mod SIMPLEFS_INODES_PER_BLOCK) in
  if nr_inodes (sbi m) <=? ino then (0, s)
  else
    match sb_bread s inode_block with
    | (None, s) => (- EIO, s)
    | (Some b, s) =>
        let off := (Z.to_nat inode_shift * inode_record_size)%nat in
        let b := memcpy_at b off (disk_inode_bytes inode) in
        let s := bh_write s inode_block b in
        let s := klog_add (K_dirty inode_block) s in
        let s := klog_add (K_sync inode_block) s in
        (0, klog_add K_brelse s)
    end.

(** ** super.c: the sync engine *)

(** The superblock buffer after the seven stores of [simplefs_sync_fs]:
    the magic bytes and the tail of the block stay as read. *)
Definition sync_sb_block (b : block) (info : simplefs_sb_info) : block :=
  memcpy_at b 4
    (flat_map (host_bytes host 4)
       [nr_blocks info; nr_inodes info; nr_istore_blocks info; nr_ifree_blocks info;
        nr_bfree_blocks info; nr_free_inodes info; nr_free_blocks info]).

(** The two flush loops: [n] turns from index [i]; block
    [first + i + 1] receives bytes [i * 4096 ...] of the bitmap. *)
Fixpoint flush_bitmap (n : nat) (i : Z) (first : Z) (bm : list Z) (wait : Z) (s : kstate)
  : Z * kstate :=
  match n with
  | O => (0, s)
  | S n' =>
      let idx := to_int (first + i + 1) in
      match sb_bread s idx with
      | (None, s) => (- EIO, s)
      | (Some b, s) =>
          let src := slice (Z.to_nat (i * SIMPLEFS_BLOCK_SIZE))
                       (Z.to_nat SIMPLEFS_BLOCK_SIZE) bm in
          let s := bh_write s idx (memcpy_at b 0 src) in
          flush_bitmap n' (i + 1) first bm wait (release_dirty idx wait s)
      end
  end.

(** [simplefs_sync_fs] *)
Definition simplefs_sync_fs (m : sb_mirror) (wait : Z) (s : kstate) : Z * kstate :=
  (* Flush superblock *)
  match sb_bread s 0 with
  | (None, s) => (- EIO, s)
  | (Some b, s) =>
      let s := bh_write s 0 (sync_sb_block b (sbi m)) in
      let s := release_dirty 0 wait s in
      (* Flush free inodes bitmask *)
      match flush_bitmap (Z.to_nat (nr_ifree_blocks (sbi m))) 0
              (nr_istore_blocks (sbi m)) (ifree_bitmap m) wait s with
      | (0, s) =>
          (* Flush free blocks bitmask *)
          flush_bitmap (Z.to_nat (nr_bfree_blocks (sbi m))) 0
            (nr_istore_blocks (sbi m) + nr_ifree_blocks (sbi m)) (bfree_bitmap m) wait s
      | (err, s) => (err, s)
      end
  end.

(** ** super.c: the mount loader *)

(** The two load loops: [n] turns from index [i]; bytes [i * 4096 ...]
    of the bitmap receive block [first + i + 1].  [None] is a failed
    read. *)
Fixpoint load_bitmap (n : nat) (i : Z) (first : Z) (bm : list Z) (s : kstate)
  : option (list Z) * kstate :=
  match n with
  | O => (Some bm, s)
  | S n' =>
      let idx := to_int (first + i + 1) in
      match sb_bread s idx with
      | (None, s) => (None, s)
      | (Some b, s) =>
          let bm := memcpy_at bm (Z.to_nat (i * SIMPLEFS_BLOCK_SIZE))
                      (take (Z.to_nat SIMPLEFS_BLOCK_SIZE) b) in
          load_bitmap n' (i + 1) first bm (klog_add K_brelse s)
      end
  end.

(** [kzalloc (n * SIMPLEFS_BLOCK_SIZE, GFP_KERNEL)], the product taken on
    32 bits. *)
Definition kzalloc_blocks (n : Z) : list Z :=
  repeat 0 (Z.to_nat (u32 (n * SIMPLEFS_BLOCK_SIZE))).

(** [simplefs_fill_super] *)
Definition simplefs_fill_super (env : mount_env) (s : kstate) : mount_result * kstate :=
  (* Read sb from disk *)
  match sb_bread s SIMPLEFS_SB_BLOCK_NR with
  | (None, s) => (mk_mount_result (- EIO) None false, s)
  | (Some b, s) =>
      let csb := sb_of_bytes host b in
      (* Check magic number *)
      if negb (magic csb =? SIMPLEFS_MAGIC)
      then (mk_mount_result (- EINVAL) None false, klog_add K_brelse s)
      else
        (* Alloc sb_info *)
        let s := klog_add K_kzalloc s in
        if negb (sbi_alloc_ok env)
        then (mk_mount_result (- ENOMEM) None false, klog_add K_brelse s)
        else
          let info :=
            {| magic := 0;
               nr_blocks := nr_blocks csb;
               nr_inodes := nr_inodes csb;
               nr_istore_blocks := nr_istore_blocks csb;
               nr_ifree_blocks := nr_ifree_blocks csb;
               nr_bfree_blocks := nr_bfree_blocks csb;
               nr_free_inodes := nr_free_inodes csb;
               nr_free_blocks := nr_free_blocks csb |} in
          let s := klog_add K_brelse s in
          (* Alloc and copy ifree_bitmap *)
          let s := klog_add K_kzalloc s in
          if negb (ifree_alloc_ok env)
          then (* free_sbi, release *)
            (mk_mount_result (- ENOMEM) (Some (mk_mirror info [] [])) false,
             klog_add K_brelse (klog_add K_kfree s))
          else
            match load_bitmap (Z.to_nat (nr_ifree_blocks info)) 0 (nr_istore_blocks info)
                    (kzalloc_blocks (nr_ifree_blocks info)) s with
            | (None, s) => (* free_ifree, free_sbi, release *)
                (mk_mount_result (- EIO) (Some (mk_mirror info [] [])) false,
                 klog_add K_brelse (klog_add K_kfree (klog_add K_kfree s)))
            | (Some ifree, s) =>
                (* Alloc and copy bfree_bitmap *)
                let s := klog_add K_kzalloc s in
                if negb (bfree_alloc_ok env)
                then (* free_ifree, free_sbi, release *)
                  (mk_mount_result (- ENOMEM) (Some (mk_mirror info ifree [])) false,
                   klog_add K_brelse (klog_add K_kfree (klog_add K_kfree s)))
                else
                  let failed (err : Z) (bfree : list Z) (s : kstate) :=
                    (* free_bfree, free_ifree, free_sbi, release *)
                    (mk_mount_result err (Some (mk_mirror info ifree bfree)) false,
                     klog_add K_brelse
                       (klog_add K_kfree (klog_add K_kfree (klog_add K_kfree s)))) in
                  match load_bitmap (Z.to_nat (nr_bfree_blocks info)) 0
                          (nr_istore_blocks info + nr_ifree_blocks info)
                          (kzalloc_blocks (nr_bfree_blocks info)) s with
                  | (None, s) => failed (- EIO) [] s
                  | (Some bfree, s) =>
                      (* Create root inode *)
                      if negb (iget_root_err env =? 0)
                      then failed (iget_root_err env) bfree s
                      else if negb (d_make_root_ok env)
                      then failed (- ENOMEM) bfree s
                      else (mk_mount_result 0 (Some (mk_mirror info ifree bfree)) true, s)
                  end
            end
  end.


(** ** super.c: unmount and statfs *)


(** [struct kstatfs], the fields that [simplefs_statfs] sets. *)
Record kstatfs : Type := mk_kstatfs {
  f_type : Z;
  f_bsize : Z;
  f_blocks : Z;
  f_bfree : Z;
  f_bavail : Z;
  f_files : Z;
  f_ffree : Z;
  f_namelen : Z
}.

(** [simplefs_statfs]; it returns 0 always, the model keeps the record it
    fills.  [filename_len] is [SIMPLEFS_FILENAME_LEN] of simplefs.h, a
    parameter like the other constants of that header.  The difference
    for [f_files] is taken on 32 bits before it is widened. *)
Definition simplefs_statfs (filename_len : Z) (m : sb_mirror) : kstatfs :=
  {| f_type := SIMPLEFS_MAGIC;
     f_bsize := SIMPLEFS_BLOCK_SIZE;
     f_blocks := nr_blocks (sbi m);
     f_bfree := nr_free_blocks (sbi m);
     f_bavail := nr_free_blocks (sbi m);
     f_files := u32 (nr_inodes (sbi m) - nr_free_inodes (sbi m));
     f_ffree := nr_free_inodes (sbi m);
     f_namelen := filename_len |}.

(** ** fs.c: loading and unloading the module *)

(** Lines that the module prints. *)
Inductive kmsg : Set :=
| CacheCreationFailed | RegisterFailed | ModuleLoaded
| UnregisterFailed | ModuleUnloaded.

(** What the kernel answers to the module: whether [kmem_cache_create]
    returns a cache, and the return values of [register_filesystem] and
    [unregister_filesystem]. *)
Record module_env : Type := mk_module_env {
  cache_create_ok : bool;
  register_ret : Z;
  unregister_ret : Z
}.

(** The inode cache exists, the filesystem type is registered, and the
    lines printed so far (most recent first). *)
Record module_state : Type := mk_module_state {
  inode_cache : bool;
  registered : bool;
  printk : list kmsg
}.

(** [simplefs_init_inode_cache] (super.c) *)
Definition simplefs_init_inode_cache (env : module_env) (st : module_state)
  : Z * module_state :=
  if cache_create_ok env
  then (0, mk_module_state true (registered st) (printk st))
  else (- ENOMEM, st).

(** [simplefs_destroy_inode_cache] (super.c) *)
Definition simplefs_destroy_inode_cache (st : module_state) : module_state :=
  mk_module_state false (registered st) (printk st).

(** [simplefs_init] *)
Definition simplefs_init (env : module_env) (st : module_state) : Z * module_state :=
  let '(ret, st) := simplefs_init_inode_cache env st in
  if negb (ret =? 0)
  then (ret, mk_module_state (inode_cache st) (registered st)
               (CacheCreationFailed :: printk st))
  else
    let ret := register_ret env in
    if negb (ret =? 0)
    then (ret, mk_module_state (inode_cache st) (registered st)
                 (RegisterFailed :: printk st))
    else (ret, mk_module_state (inode_cache st) true (ModuleLoaded :: printk st)).

(** [simplefs_exit] *)
Definition simplefs_exit (env : module_env) (st : module_state) : module_state :=
  let ret := unregister_ret env in
  let st :=
    if negb (ret =? 0)
    then mk_module_state (inode_cache st) (registered st) (UnregisterFailed :: printk st)
    else mk_module_state (inode_cache st) false (printk st) in
  let st := simplefs_destroy_inode_cache st in
  mk_module_state (inode_cache st) (registered st) (ModuleUnloaded :: printk st).
(** ** Vocabulary of the properties *)

(** The parameter of simplefs.h is usable: at least two inode records
    fit in a block, and a record takes at least one byte. *)
Definition inodes_per_block_ok : Prop :=
  2 <= SIMPLEFS_INODES_PER_BLOCK <= SIMPLEFS_BLOCK_SIZE.

(** The device passes the size check of [main] and its block count,
    rounded up to whole inode blocks, fits the 32-bit fields. *)
Definition device_ok (size : Z) : Prop :=
  100 * SIMPLEFS_BLOCK_SIZE < size /\
  size / SIMPLEFS_BLOCK_SIZE + SIMPLEFS_INODES_PER_BLOCK <= 2 ^ 32.

(** The command line and the first system calls take [main] as far as
    its size check. *)
Definition reaches_size_check (inv : invocation) : Prop :=
  argc inv = 2 /\ open_fd inv <> -1 /\ fstat_ret inv = 0 /\
  (st_is_blk inv = true -> ioctl_ret inv = 0).

(** Number of leading bits that [write_bfree_blocks] marks used. *)
Definition used_run (g : geometry) : Z :=
  g_nr_istore_blocks g + g_nr_ifree_blocks g + g_nr_bfree_blocks g + 2.


(** A 64-bit line whose [m] lowest bits are cleared. *)
Definition low_cleared (m : Z) : Z := 2 ^ 64 - 2 ^ m.

(** The blocks that a write step appended to the target. *)
Definition appended (before after : list block) : list block :=
  drop (length before) after.

(** The mirror is consistent with the device it was mounted from: its
    counters are 32-bit values, the regions they describe lie on the
    device, and each bitmap buffer has the size the loader gave it. *)
Definition mirror_fits (m : sb_mirror) (s : kstate) : Prop :=
  let istore := nr_istore_blocks (sbi m) in
  let ifree := nr_ifree_blocks (sbi m) in
  let bfree := nr_bfree_blocks (sbi m) in
  sb_in_range (sbi m) /\
  1 + istore + ifree + bfree <= Z.of_nat (length (kdisk s)) /\
  1 + istore + ifree + bfree <= 2 ^ 31 /\
  ifree * SIMPLEFS_BLOCK_SIZE < 2 ^ 32 /\
  bfree * SIMPLEFS_BLOCK_SIZE < 2 ^ 32 /\
  length (ifree_bitmap m) = Z.to_nat (ifree * SIMPLEFS_BLOCK_SIZE) /\
  length (bfree_bitmap m) = Z.to_nat (bfree * SIMPLEFS_BLOCK_SIZE).

(** Block 0 is a whole block that carries the magic number. *)
Definition mounted_superblock (s : kstate) : Prop :=
  exists b0, kdisk s !! 0%nat = Some b0 /\
             length b0 = Z.to_nat SIMPLEFS_BLOCK_SIZE /\
             magic (sb_decode host b0) = SIMPLEFS_MAGIC.

(** Memory is available and the root inode can be built. *)
Definition mount_env_ok (env : mount_env) : Prop :=
  sbi_alloc_ok env = true /\ ifree_alloc_ok env = true /\ bfree_alloc_ok env = true /\
  iget_root_err env = 0 /\ d_make_root_ok env = true.

(** The counters that the loader copies; it leaves [magic] at the zero
    that [kzalloc] put there. *)
Definition mirror_counters (sb : simplefs_sb_info) : simplefs_sb_info :=
  {| magic := 0;
     nr_blocks := nr_blocks sb;
     nr_inodes := nr_inodes sb;
     nr_istore_blocks := nr_istore_blocks sb;
     nr_ifree_blocks := nr_ifree_blocks sb;
     nr_bfree_blocks := nr_bfree_blocks sb;
     nr_free_inodes := nr_free_inodes sb;
     nr_free_blocks := nr_free_blocks sb |}.

(** Free bits among the first [n] bits of a bitmap. *)
Fixpoint count_free (bm : list Z) (n : nat) : Z :=
  match n with
  | O => 0
  | S n' => count_free bm n' + (if bitmap_test bm (Z.of_nat n') then 1 else 0)
  end.

(** The 32-bit field [k] of a record at the start of a buffer, read in
    the little-endian order of the disk format. *)
Definition le_field (b : list Z) (k : nat) : Z := le_value (slice (4 * k) 4 b).

(** A block of zero bytes, and a bitmap block with every bit set. *)
Definition zero_block : list Z := repeat 0 (Z.to_nat SIMPLEFS_BLOCK_SIZE).
Definition ones_block : list Z := repeat 255 (Z.to_nat SIMPLEFS_BLOCK_SIZE).

Definition is_ksync (e : kevent) : bool :=
  match e with K_sync _ => true | _ => false end.
Definition count_events (p : kevent -> bool) (l : list kevent) : nat :=
  length (List.filter p l).


(** The first block of the inode bitmap: bit 0 clear, every other bit
    set. *)
Definition ifree_first_block : list Z := 254 :: repeat 255 4095.

(** The data-block count as the specification defines it (section 4.1):
    total_blocks - 1 (superblock) - inode_table_blocks -
    inode_bitmap_blocks - block_bitmap_blocks.  The count that the code
    computes is [g_nr_data_blocks]. *)
Definition spec_data_blocks (g : geometry) : Z :=
  g_nr_blocks g - 1 - g_nr_istore_blocks g - g_nr_ifree_blocks g - g_nr_bfree_blocks g.
(** * Properties *)

(** ** Facts about the byte encodings *)

Lemma le_bytes_length n v : length (le_bytes n v) = n.
Proof. revert v; induction n as [|n IH]; intros v; simpl; [reflexivity|]. now rewrite IH. Qed.

Lemma le_bytes_range n v : Forall is_byte (le_bytes n v).
Proof.
  revert v; induction n as [|n IH]; intros v; simpl; constructor.
  - unfold is_byte. apply Z.mod_pos_bound. lia.
  - apply IH.
Qed.

Lemma le_value_range l : Forall is_byte l -> 0 <= le_value l < 256 ^ Z.of_nat (length l).
Proof.
  induction 1 as [|b r Hb _ IH].
  - simpl. lia.
  - cbn [le_value length]. rewrite Nat2Z.inj_succ, Z.pow_succ_r by lia.
    unfold is_byte in Hb. lia.
Qed.

Lemma le_value_le_bytes n v : le_value (le_bytes n v) = v mod 256 ^ Z.of_nat n.
Proof.
  revert v; induction n as [|n IH]; intros v.
  - simpl. now rewrite Z.mod_1_r.
  - cbn [le_bytes le_value]. rewrite IH, Nat2Z.inj_succ, Z.pow_succ_r by lia.
    rewrite Z.rem_mul_r; [reflexivity | lia | apply Z.pow_pos_nonneg; lia].
Qed.

Lemma le_bytes_le_value l : Forall is_byte l -> le_bytes (length l) (le_value l) = l.
Proof.
  induction 1 as [|b r Hb _ IH]; [reflexivity|].
  unfold is_byte in Hb. cbn [length le_bytes le_value].
  replace ((b + 256 * le_value r) mod 256) with b.
  - replace ((b + 256 * le_value r) / 256) with (le_value r); [now rewrite IH|].
    rewrite Z.mul_comm, Z.div_add by lia. rewrite Z.div_small; lia.
  - rewrite Z.mul_comm, Z.mod_add by lia. rewrite Z.mod_small; lia.
Qed.

Lemma rev_is_byte l : Forall is_byte l -> Forall is_byte (rev l).
Proof. apply List.Forall_rev. Qed.

(** Storing [htole(v)] puts the little-endian bytes of [v] in memory,
    whatever the host. *)
Lemma host_bytes_htole32 h v : host_bytes h 4 (htole32 h v) = le_bytes 4 v.
Proof.
  destruct h; [reflexivity|]. unfold host_bytes, htole32, bswap.
  rewrite <- (length_rev (le_bytes 4 v)) at 1.
  rewrite le_bytes_le_value by (apply rev_is_byte, le_bytes_range).
  apply rev_involutive.
Qed.

Lemma host_bytes_htole64 h v : host_bytes h 8 (htole64 h v) = le_bytes 8 v.
Proof.
  destruct h; [reflexivity|]. unfold host_bytes, htole64, bswap.
  rewrite <- (length_rev (le_bytes 8 v)) at 1.
  rewrite le_bytes_le_value by (apply rev_is_byte, le_bytes_range).
  apply rev_involutive.
Qed.

Lemma host_value_host_bytes h n v : host_value h (host_bytes h n v) = v mod 256 ^ Z.of_nat n.
Proof.
  destruct h; unfold host_value, host_bytes.
  - apply le_value_le_bytes.
  - rewrite rev_involutive. apply le_value_le_bytes.
Qed.

Lemma le32toh_htole32 h v : 0 <= v < 2 ^ 32 -> le32toh h (htole32 h v) = v.
Proof.
  intros Hv. destruct h; [reflexivity|]. unfold le32toh, htole32, bswap.
  rewrite <- (length_rev (le_bytes 4 v)) at 1.
  rewrite le_bytes_le_value by (apply rev_is_byte, le_bytes_range).
  rewrite rev_involutive, le_value_le_bytes. apply Z.mod_small.
  change (256 ^ Z.of_nat 4) with (2 ^ 32). lia.
Qed.

(** ** Facts about 32-bit arithmetic *)

Lemma u32_small x : 0 <= x < 2 ^ 32 -> u32 x = x.
Proof. intros H. unfold u32. now apply Z.mod_small. Qed.

Lemma u32_range x : 0 <= u32 x < 2 ^ 32.
Proof. unfold u32. apply Z.mod_pos_bound. lia. Qed.

Lemma to_int_small x : 0 <= x < 2 ^ 31 -> to_int x = x.
Proof.
  intros H. unfold to_int. rewrite u32_small by lia.
  destruct (Z.ltb_spec x (2 ^ 31)); lia.
Qed.

Lemma idiv_ceil_spec a b :
  0 <= a < 2 ^ 32 -> 0 < b ->
  b * (idiv_ceil a b - 1) < a <= b * idiv_ceil a b /\ 0 <= idiv_ceil a b <= a.
Proof.
  intros Ha Hb. unfold idiv_ceil.
  pose proof (Z.div_mod a b ltac:(lia)) as Hdm.
  pose proof (Z.mod_pos_bound a b Hb) as Hm.
  assert (0 <= a / b) by (apply Z.div_pos; lia).
  destruct (Z.eqb_spec (a mod b) 0) as [E|E]; cbn [negb].
  - nia.
  - assert (b <> 1) by (intros ->; rewrite Z.mod_1_r in E; lia).
    assert (a / b + 1 <= a) by nia.
    rewrite u32_small by lia. nia.
Qed.

(** ** The geometry of a device that [main] accepts *)

Lemma geometry_exact size :
  inodes_per_block_ok -> device_ok size ->
  let g := superblock_geometry size in
  let n := size / SIMPLEFS_BLOCK_SIZE in
  g_nr_blocks g = n /\
  n <= g_nr_inodes g < n + SIMPLEFS_INODES_PER_BLOCK /\
  g_nr_inodes g = SIMPLEFS_INODES_PER_BLOCK * g_nr_istore_blocks g /\
  BITS_PER_BLOCK * (g_nr_ifree_blocks g - 1) < g_nr_inodes g <= BITS_PER_BLOCK * g_nr_ifree_blocks g /\
  BITS_PER_BLOCK * (g_nr_bfree_blocks g - 1) < n <= BITS_PER_BLOCK * g_nr_bfree_blocks g /\
  g_nr_data_blocks g = n - g_nr_istore_blocks g - g_nr_ifree_blocks g - g_nr_bfree_blocks g /\
  used_run g < n /\
  (0 < g_nr_istore_blocks g /\ 0 < g_nr_ifree_blocks g /\ 0 < g_nr_bfree_blocks g).
Proof.
  unfold inodes_per_block_ok, device_ok, BITS_PER_BLOCK, SIMPLEFS_BLOCK_SIZE.
  intros Hipb [Hmin Hfit]. cbv zeta.
  set (ipb := SIMPLEFS_INODES_PER_BLOCK) in *.
  assert (Hq : Z.quot size 4096 = size / 4096) by (apply Z.quot_div_nonneg; lia).
  assert (Hn : 100 <= size / 4096) by (apply Z.div_le_lower_bound; lia).
  set (n := size / 4096) in *.
  unfold used_run, superblock_geometry. cbn [g_nr_blocks g_nr_inodes g_nr_istore_blocks
    g_nr_ifree_blocks g_nr_bfree_blocks g_nr_data_blocks].
  unfold SIMPLEFS_BLOCK_SIZE. fold ipb. rewrite Hq. fold n.
  rewrite (u32_small n) by lia.
  set (ni := if negb (n mod ipb =? 0) then u32 (n + (ipb - n mod ipb)) else n).
  pose proof (Z.div_mod n ipb ltac:(lia)) as Hdm.
  pose proof (Z.mod_pos_bound n ipb ltac:(lia)) as Hm.
  assert (Hni : n <= ni < n + ipb /\ ni mod ipb = 0).
  { subst ni. destruct (Z.eqb_spec (n mod ipb) 0) as [E|E]; cbn [negb].
    - lia.
    - rewrite u32_small by lia. split; [lia|].
      replace (n + (ipb - n mod ipb)) with ((n / ipb + 1) * ipb) by lia.
      apply Z.mod_mul. lia. }
  destruct Hni as [Hni Hni0].
  pose proof (idiv_ceil_spec ni ipb ltac:(lia) ltac:(lia)) as [Hs1 Hs2].
  pose proof (idiv_ceil_spec ni (4096 * 8) ltac:(lia) ltac:(lia)) as [Hi1 Hi2].
  pose proof (idiv_ceil_spec n (4096 * 8) ltac:(lia) ltac:(lia)) as [Hb1 Hb2].
  assert (Hs : ni = ipb * idiv_ceil ni ipb).
  { unfold idiv_ceil. rewrite Hni0. cbn [Z.eqb negb].
    pose proof (Z.div_mod ni ipb ltac:(lia)). lia. }
  set (s := idiv_ceil ni ipb) in *.
  set (a := idiv_ceil ni (4096 * 8)) in *.
  set (b := idiv_ceil n (4096 * 8)) in *.
  assert (Hs2' : 2 * (s - 1) < n) by nia.
  assert (Hrun : s + a + b + 2 < n) by lia.
  assert (0 < s) by nia.
  rewrite u32_small by lia.
  repeat split; try lia.
Qed.

(** ** The superblock on disk *)

Lemma host_bytes_length h n v : length (host_bytes h n v) = n.
Proof. destruct h; unfold host_bytes; rewrite ?length_rev; apply le_bytes_length. Qed.

Lemma slice_flat_map_field h (l : list Z) (pad : list Z) (k : nat) :
  (k < length l)%nat ->
  slice (4 * k) 4 (flat_map (host_bytes h 4) l ++ pad) = host_bytes h 4 (nth k l 0).
Proof.
  revert k; induction l as [|v l IH]; intros k Hk; [simpl in Hk; lia|].
  cbn [flat_map]. rewrite <- app_assoc. destruct k as [|k].
  - unfold slice. cbn [Nat.mul drop nth].
    apply take_app_length'. now rewrite host_bytes_length.
  - unfold slice. replace (4 * S k)%nat with (length (host_bytes h 4 v) + 4 * k)%nat
      by (rewrite host_bytes_length; lia).
    rewrite drop_app_add. cbn [nth]. apply IH. simpl in Hk. lia.
Qed.

Lemma sb_field_sb_bytes h h' sb (k : nat) :
  (k < 8)%nat ->
  sb_field h (sb_bytes h' sb) k = host_value h (host_bytes h' 4 (nth k (sb_fields sb) 0)).
Proof.
  intros Hk. unfold sb_field, sb_bytes. now rewrite slice_flat_map_field.
Qed.

(** The bytes that reach the disk do not depend on the host that ran the
    format tool. *)
Lemma sb_encode_host_independent h sb : sb_encode h sb = sb_encode LittleEndian sb.
Proof.
  unfold sb_encode, sb_bytes, sb_htole32, sb_fields. cbn [flat_map magic nr_blocks
    nr_inodes nr_istore_blocks nr_ifree_blocks nr_bfree_blocks nr_free_inodes nr_free_blocks].
  now rewrite !host_bytes_htole32.
Qed.

Lemma superblock_info_encode size :
  sb_bytes host (superblock_info size) = sb_encode LittleEndian (superblock_record size).
Proof.
  rewrite <- (sb_encode_host_independent host). unfold sb_encode. f_equal.
Qed.

(** On a little-endian host the loader reads back what was encoded. *)
Lemma sb_decode_encode_le h sb :
  sb_in_range sb -> sb_decode LittleEndian (sb_encode h sb) = sb.
Proof.
  intros Hr. rewrite sb_encode_host_independent.
  unfold sb_decode, sb_of_bytes, sb_encode. rewrite !sb_field_sb_bytes by lia.
  destruct sb as [f0 f1 f2 f3 f4 f5 f6 f7].
  unfold sb_in_range, sb_fields in Hr. cbn [magic nr_blocks nr_inodes nr_istore_blocks
    nr_ifree_blocks nr_bfree_blocks nr_free_inodes nr_free_blocks] in Hr.
  repeat match goal with H : Forall _ (_ :: _) |- _ => apply Forall_cons in H; destruct H end.
  cbn [sb_htole32 sb_fields nth htole32 magic nr_blocks nr_inodes nr_istore_blocks
    nr_ifree_blocks nr_bfree_blocks nr_free_inodes nr_free_blocks].
  rewrite !host_value_host_bytes. change (256 ^ Z.of_nat 4) with (2 ^ 32).
  f_equal; apply Z.mod_small; assumption.
Qed.

Lemma superblock_record_in_range size :
  0 <= SIMPLEFS_MAGIC < 2 ^ 32 -> 0 < SIMPLEFS_INODES_PER_BLOCK ->
  sb_in_range (superblock_record size).
Proof.
  intros Hm Hipb. unfold sb_in_range, sb_fields, superblock_record, superblock_geometry.
  cbn [magic nr_blocks nr_inodes nr_istore_blocks nr_ifree_blocks nr_bfree_blocks
    nr_free_inodes nr_free_blocks g_nr_blocks g_nr_inodes g_nr_istore_blocks
    g_nr_ifree_blocks g_nr_bfree_blocks g_nr_data_blocks].
  set (n := u32 (Z.quot size SIMPLEFS_BLOCK_SIZE)).
  set (ni := if negb (n mod SIMPLEFS_INODES_PER_BLOCK =? 0) then _ else n).
  assert (Hn : 0 <= n < 2 ^ 32) by apply u32_range.
  assert (Hni : 0 <= ni < 2 ^ 32).
  { subst ni. destruct (negb _); [apply u32_range | exact Hn]. }
  assert (Hceil : forall a b, 0 <= a < 2 ^ 32 -> 0 < b -> 0 <= idiv_ceil a b < 2 ^ 32).
  { intros a b Ha Hb. pose proof (idiv_ceil_spec a b Ha Hb). lia. }
  unfold SIMPLEFS_BLOCK_SIZE.
  repeat constructor; try apply u32_range; try lia; apply Hceil; lia.
Qed.

(** ** What the write steps append *)

Lemma sys_write_Some f buf f' : sys_write f buf = Some f' -> f' = f ++ [buf].
Proof. unfold sys_write. destruct (write_ok (length f)); congruence. Qed.

Lemma write_repeat_app n f buf r f' :
  write_repeat n f buf = (r, f') ->
  (r = 0 /\ f' = f ++ repeat buf n) \/ (r = -1 /\ exists l, f' = f ++ l).
Proof.
  revert f; induction n as [|n IH]; intros f H; cbn [write_repeat] in H.
  - injection H as <- <-. left. now rewrite app_nil_r.
  - destruct (sys_write f buf) as [f1|] eqn:E.
    + apply sys_write_Some in E. subst f1. apply IH in H.
      destruct H as [[-> ->]|[-> [l ->]]].
      * left. split; [reflexivity|]. now rewrite <- app_assoc.
      * right. split; [reflexivity|]. exists ([buf] ++ l). now rewrite app_assoc.
    + injection H as <- <-. right. split; [reflexivity|]. exists []. now rewrite app_nil_r.
Qed.

Lemma write_superblock_Some f size sb f' :
  write_superblock f size = (Some sb, f') ->
  sb = superblock_info size /\ f' = f ++ [sb_bytes host sb].
Proof.
  unfold write_superblock. destruct (sys_write _ _) as [f1|] eqn:E; [|discriminate].
  intros H. injection H as <- <-. apply sys_write_Some in E. now split.
Qed.

Lemma write_superblock_None f size f' :
  write_superblock f size = (None, f') -> f' = f.
Proof.
  unfold write_superblock. destruct (sys_write _ _); [discriminate|]. congruence.
Qed.

Lemma write_inode_store_app f sb r f' :
  write_inode_store f sb = (r, f') -> exists l, f' = f ++ l.
Proof.
  unfold write_inode_store. destruct (sys_write _ _) as [f1|] eqn:E.
  - apply sys_write_Some in E. subst f1. intros H. apply write_repeat_app in H.
    destruct H as [[_ ->]|[_ [l ->]]]; rewrite <- app_assoc; eauto.
  - intros H. injection H as <- <-. exists []. now rewrite app_nil_r.
Qed.

(** The blocks of the inode bitmap, as [write_ifree_blocks] builds them. *)
Lemma write_ifree_blocks_app f sb r f' :
  write_ifree_blocks f sb = (r, f') ->
  (r = 0 /\
   f' = f ++ words_bytes (<[0%nat := htole64 host 0xfffffffffffffffe]> (repeat ones64 WORDS_PER_BLOCK))
          :: repeat (words_bytes (repeat ones64 WORDS_PER_BLOCK))
               (iterations_from_1 (le32toh host (nr_ifree_blocks sb))))
  \/ (r = -1 /\ exists l, f' = f ++ l).
Proof.
  unfold write_ifree_blocks. destruct (sys_write _ _) as [f1|] eqn:E.
  - apply sys_write_Some in E. subst f1. intros H. apply write_repeat_app in H.
    destruct H as [[-> ->]|[-> [l ->]]]; rewrite <- app_assoc.
    + left. split; reflexivity.
    + right. eauto.
  - intros H. injection H as <- <-. right. split; [reflexivity|]. exists []. now rewrite app_nil_r.
Qed.

(** The blocks of the block bitmap, as [write_bfree_blocks] builds them. *)
Lemma write_bfree_blocks_app f sb r f' over :
  write_bfree_blocks f sb = (r, f', over) ->
  let nr_used :=
    u32 (le32toh host (nr_istore_blocks sb) + le32toh host (nr_ifree_blocks sb)
         + le32toh host (nr_bfree_blocks sb) + 2) in
  let filled := fill_used (Z.to_nat nr_used) 0 nr_used (repeat ones64 WORDS_PER_BLOCK) false in
  over = snd filled /\
  ((r = 0 /\
    f' = f ++ words_bytes (fst filled)
           :: repeat (words_bytes (repeat ones64 WORDS_PER_BLOCK))
                (iterations_from_1 (le32toh host (nr_bfree_blocks sb))))
   \/ (r = -1 /\ exists l, f' = f ++ l)).
Proof.
  unfold write_bfree_blocks. cbv zeta.
  destruct (fill_used _ _ _ _ _) as [bfree ov]. cbn [fst snd].
  destruct (sys_write _ _) as [f1|] eqn:E.
  - apply sys_write_Some in E. subst f1.
    destruct (write_repeat _ _ _) as [r2 f2] eqn:E2. intros H. injection H as <- <- <-.
    split; [reflexivity|]. apply write_repeat_app in E2.
    destruct E2 as [[-> ->]|[-> [l ->]]]; rewrite <- app_assoc.
    + left. split; reflexivity.
    + right. eauto.
  - intros H. injection H as <- <- <-. split; [reflexivity|].
    right. split; [reflexivity|]. exists []. now rewrite app_nil_r.
Qed.

(** ** The run of [main] *)

Lemma format_device_image size :
  (write_ok 0 = false /\ image (format_device size) = []
     /\ diag (format_device size) = Some SuperblockFailed)
  \/ (write_ok 0 = true /\ exists rest,
        image (format_device size) = sb_bytes host (superblock_info size) :: rest).
Proof.
  unfold format_device.
  destruct (write_superblock [] size) as [[sb|] f0] eqn:E0.
  - right. assert (Hw : write_ok 0 = true).
    { unfold write_superblock, sys_write in E0. cbn [length] in E0.
      destruct (write_ok 0); [reflexivity | discriminate]. }
    split; [exact Hw|].
    apply write_superblock_Some in E0. destruct E0 as [-> ->]. cbn [app].
    destruct (write_inode_store _ _) as [r1 f1] eqn:E1.
    apply write_inode_store_app in E1. destruct E1 as [l1 ->].
    destruct (negb (r1 =? 0)); cbn [image]; [eauto|].
    destruct (write_ifree_blocks _ _) as [r2 f2] eqn:E2.
    assert (exists l2, f2 = (sb_bytes host (superblock_info size) :: l1) ++ l2) as [l2 ->].
    { apply write_ifree_blocks_app in E2. destruct E2 as [[_ ->]|[_ [l ->]]]; eauto. }
    destruct (negb (r2 =? 0)); cbn [image]; [eauto|].
    destruct (write_bfree_blocks _ _) as [[r3 f3] ov] eqn:E3.
    assert (exists l3, f3 = ((sb_bytes host (superblock_info size) :: l1) ++ l2) ++ l3)
      as [l3 ->].
    { apply write_bfree_blocks_app in E3. destruct E3 as [_ [[_ ->]|[_ [l ->]]]]; eauto. }
    destruct (negb (r3 =? 0)); cbn [image]; [eauto|].
    unfold write_data_blocks. cbn [Z.eqb negb image]. eauto.
  - left. assert (Hw : write_ok 0 = false).
    { unfold write_superblock, sys_write in E0. cbn [length] in E0.
      destruct (write_ok 0); [discriminate | reflexivity]. }
    apply write_superblock_None in E0. subst f0. cbn [image diag]. auto.
Qed.

Lemma format_device_diag size : diag (format_device size) <> Some NotLargeEnough.
Proof.
  unfold format_device, write_data_blocks.
  destruct (write_superblock [] size) as [[sb|] f0]; [|discriminate].
  destruct (write_inode_store _ _) as [r1 f1].
  destruct (negb (r1 =? 0)); [discriminate|].
  destruct (write_ifree_blocks _ _) as [r2 f2].
  destruct (negb (r2 =? 0)); [discriminate|].
  destruct (write_bfree_blocks _ _) as [[r3 f3] ov].
  destruct (negb (r3 =? 0)); discriminate.
Qed.

Lemma main_rejects inv :
  reaches_size_check inv -> device_size inv <= 100 * SIMPLEFS_BLOCK_SIZE ->
  main inv = mk_outcome EXIT_FAILURE (Some NotLargeEnough) [] false.
Proof.
  intros (Ha & Ho & Hf & Hi) Hs. unfold main. rewrite Ha, Hf. cbn [Z.eqb negb Pos.eqb].
  destruct (Z.eqb_spec (open_fd inv) (-1)); [contradiction|].
  destruct (st_is_blk inv) eqn:Eb; cbn [andb].
  - rewrite Hi by reflexivity. cbn [Z.eqb negb].
    destruct (Z.leb_spec (device_size inv) (100 * SIMPLEFS_BLOCK_SIZE)); [reflexivity|lia].
  - destruct (Z.leb_spec (device_size inv) (100 * SIMPLEFS_BLOCK_SIZE)); [reflexivity|lia].
Qed.

Lemma main_accepts inv :
  reaches_size_check inv -> 100 * SIMPLEFS_BLOCK_SIZE < device_size inv ->
  main inv = format_device (device_size inv).
Proof.
  intros (Ha & Ho & Hf & Hi) Hs. unfold main. rewrite Ha, Hf. cbn [Z.eqb negb Pos.eqb].
  destruct (Z.eqb_spec (open_fd inv) (-1)); [contradiction|].
  destruct (st_is_blk inv) eqn:Eb; cbn [andb].
  - rewrite Hi by reflexivity. cbn [Z.eqb negb].
    destruct (Z.leb_spec (device_size inv) (100 * SIMPLEFS_BLOCK_SIZE)); [lia|reflexivity].
  - destruct (Z.leb_spec (device_size inv) (100 * SIMPLEFS_BLOCK_SIZE)); [lia|reflexivity].
Qed.

(** A run that exits with status 0 went through the size check and wrote
    the superblock first. *)
Lemma main_success inv :
  exit_code (main inv) = 0 ->
  100 * SIMPLEFS_BLOCK_SIZE < device_size inv /\
  exists rest,
    image (main inv) = sb_bytes host (superblock_info (device_size inv)) :: rest.
Proof.
  unfold main.
  destruct (negb (argc inv =? 2)); [discriminate|].
  destruct (open_fd inv =? -1); [discriminate|].
  destruct (negb (fstat_ret inv =? 0)); [discriminate|].
  destruct (st_is_blk inv && negb (ioctl_ret inv =? 0)); [discriminate|].
  cbv zeta.
  destruct (Z.leb_spec (device_size inv) (100 * SIMPLEFS_BLOCK_SIZE)); [discriminate|].
  intros He. split; [assumption|].
  destruct (format_device_image (device_size inv)) as [(_ & _ & Hd)|(_ & Hr)]; [|exact Hr].
  exfalso. revert He Hd. unfold format_device, write_data_blocks.
  destruct (write_superblock [] _) as [[sb|] f0]; [|discriminate].
  destruct (write_inode_store _ _) as [r1 f1].
  destruct (negb (r1 =? 0)); [discriminate|].
  destruct (write_ifree_blocks _ _) as [r2 f2].
  destruct (negb (r2 =? 0)); [discriminate|].
  destruct (write_bfree_blocks _ _) as [[r3 f3] ov].
  destruct (negb (r3 =? 0)); discriminate.
Qed.

(** ** Claims on the geometry, the counters and the size check *)

(** C1. The claim says total_blocks = 1 + inode_table_blocks +
    inode_bitmap_blocks + block_bitmap_blocks + data_blocks.  The data
    block count that [write_superblock] computes does not take the
    superblock off: for every device that [main] accepts, the four
    counts add up to the total without the 1, so the right-hand side of
    the claim is one more than total_blocks. *)
Theorem geometry_sum_off_by_one size :
  inodes_per_block_ok -> device_ok size ->
  let g := superblock_geometry size in
  g_nr_blocks g
    = g_nr_istore_blocks g + g_nr_ifree_blocks g + g_nr_bfree_blocks g + g_nr_data_blocks g
  /\ 1 + g_nr_istore_blocks g + g_nr_ifree_blocks g + g_nr_bfree_blocks g + g_nr_data_blocks g
     = g_nr_blocks g + 1.
Proof.
  intros Hipb Hdev. destruct (geometry_exact size Hipb Hdev) as (H1 & _ & _ & _ & _ & H6 & _ & _).
  cbv zeta in *. lia.
Qed.

(** C2. The claim says that after a successful format the free-inode
    counter is total_inodes - 1 and the free-block counter is
    data_blocks - 1, data_blocks being the data-block count of the
    geometry, total_blocks - 1 - the three metadata regions.  On disk
    (fields of block 0 read in the little-endian order of the format) the
    free-inode counter is total_inodes - 1, as claimed; the free-block
    counter is that data_blocks itself, one more than claimed: the local
    [nr_data_blocks] from which [write_superblock] takes 1 off does not
    have the superblock taken off. *)
Theorem format_free_counters inv :
  0 <= SIMPLEFS_MAGIC < 2 ^ 32 -> inodes_per_block_ok ->
  device_size inv / SIMPLEFS_BLOCK_SIZE + SIMPLEFS_INODES_PER_BLOCK <= 2 ^ 32 ->
  exit_code (main inv) = 0 ->
  exists blk rest,
    image (main inv) = blk :: rest /\
    let sb := sb_decode LittleEndian blk in
    let g := superblock_geometry (device_size inv) in
    nr_inodes sb = g_nr_inodes g /\
    nr_free_inodes sb = nr_inodes sb - 1 /\
    nr_free_blocks sb = g_nr_data_blocks g - 1 /\
    nr_free_blocks sb = spec_data_blocks g /\
    nr_free_blocks sb <> spec_data_blocks g - 1.
Proof.
  intros Hm Hipb Hfit He. destruct (main_success inv He) as [Hmin [rest Hi]].
  exists (sb_bytes host (superblock_info (device_size inv))), rest.
  split; [exact Hi|]. cbv zeta. rewrite superblock_info_encode.
  rewrite sb_decode_encode_le
    by (apply superblock_record_in_range;
        [exact Hm | unfold inodes_per_block_ok in Hipb; lia]).
  cbn [superblock_record nr_inodes nr_free_inodes nr_free_blocks].
  destruct (geometry_exact (device_size inv) Hipb (conj Hmin Hfit))
    as (H1 & H2 & H3 & H4 & H5 & H6 & H7 & H8).
  cbv zeta in *.
  unfold spec_data_blocks, used_run, inodes_per_block_ok, SIMPLEFS_BLOCK_SIZE in *.
  assert (100 <= device_size inv / 4096) by (apply Z.div_le_lower_bound; lia).
  rewrite !u32_small by lia. repeat split; lia.
Qed.

(** C8. Once [main] reaches its size check, it goes on to the write
    steps exactly when the device is larger than 100 blocks: a device of
    100 blocks or less is turned down with the size diagnostic, a failure
    status and nothing written; a larger one runs the write steps,
    starting with the superblock. *)
Theorem size_check_boundary inv :
  reaches_size_check inv ->
  (100 * SIMPLEFS_BLOCK_SIZE < device_size inv <-> diag (main inv) <> Some NotLargeEnough) /\
  (device_size inv <= 100 * SIMPLEFS_BLOCK_SIZE ->
   exit_code (main inv) = EXIT_FAILURE /\ image (main inv) = []) /\
  (100 * SIMPLEFS_BLOCK_SIZE < device_size inv ->
   main inv = format_device (device_size inv) /\
   (write_ok 0 = true -> exists rest,
      image (main inv) = sb_bytes host (superblock_info (device_size inv)) :: rest)) /\
  (device_size inv = 100 * SIMPLEFS_BLOCK_SIZE -> diag (main inv) = Some NotLargeEnough) /\
  (device_size inv = 101 * SIMPLEFS_BLOCK_SIZE -> main inv = format_device (device_size inv)).
Proof.
  intros Hr. repeat split.
  - intros Hs. rewrite (main_accepts inv Hr Hs). apply format_device_diag.
  - intros Hd. destruct (Z.lt_ge_cases (100 * SIMPLEFS_BLOCK_SIZE) (device_size inv)) as [|Hle];
      [assumption|]. exfalso. apply Hd. rewrite (main_rejects inv Hr) by lia. reflexivity.
  - rewrite (main_rejects inv Hr) by lia. reflexivity.
  - rewrite (main_rejects inv Hr) by lia. reflexivity.
  - now apply main_accepts.
  - intros Hw. rewrite (main_accepts inv Hr) by assumption.
    destruct (format_device_image (device_size inv)) as [(Hw' & _)|(_ & Hi)]; [congruence|exact Hi].
  - intros Hs. rewrite (main_rejects inv Hr) by lia. reflexivity.
  - intros Hs. apply main_accepts; [assumption|]. unfold SIMPLEFS_BLOCK_SIZE in *. lia.
Qed.

(** ** Bits of the bitmap blocks *)

Lemma nth_repeat_gen {A : Type} (x d : A) (n j : nat) :
  (j < n)%nat -> nth j (repeat x n) d = x.
Proof.
  revert j; induction n as [|n IH]; intros j Hj; [lia|].
  destruct j as [|j]; cbn [repeat nth]; [reflexivity|]. apply IH. lia.
Qed.

Lemma nth_insert (l : list Z) (i j : nat) (x d : Z) :
  nth j (<[i:=x]> l) d = if decide (i = j /\ (i < length l)%nat) then x else nth j l d.
Proof.
  rewrite !nth_lookup. destruct (decide (i = j)) as [->|Hne].
  - destruct (decide (j < length l)%nat) as [Hlt|Hge].
    + rewrite list_lookup_insert_eq by exact Hlt. rewrite decide_True; [reflexivity|auto].
    + rewrite list_insert_ge by lia. rewrite decide_False; [reflexivity|]. intros [_ ?]. lia.
  - rewrite list_lookup_insert_ne by exact Hne. rewrite decide_False; [reflexivity|].
    intros [? _]. contradiction.
Qed.

Lemma nth_concat_uniform (n : nat) (ls : list (list Z)) (q r : nat) (d : Z) :
  Forall (fun l => length l = n) ls -> (r < n)%nat ->
  nth (q * n + r) (concat ls) d = nth r (nth q ls []) d.
Proof.
  intros Hall Hr. revert q. induction Hall as [|l ls Hl _ IH]; intros q.
  - cbn [concat]. destruct (q * n + r)%nat, q, r; reflexivity.
  - cbn [concat]. destruct q as [|q].
    + cbn [Nat.mul Nat.add nth]. apply app_nth1. lia.
    + cbn [nth]. rewrite app_nth2 by nia.
      replace (S q * n + r - length l)%nat with (q * n + r)%nat by nia. apply IH.
Qed.

Lemma testbit_nth_le_bytes (n r : nat) (w t : Z) :
  (r < n)%nat -> 0 <= t < 8 ->
  Z.testbit (nth r (le_bytes n w) 0) t = Z.testbit w (8 * Z.of_nat r + t).
Proof.
  revert w r. induction n as [|n IH]; intros w r Hr Ht; [lia|].
  cbn [le_bytes]. destruct r as [|r]; cbn [nth].
  - change 256 with (2 ^ 8). rewrite Z.mod_pow2_bits_low by lia. f_equal; lia.
  - rewrite IH by lia. change 256 with (2 ^ 8). rewrite Z.div_pow2_bits by lia.
    f_equal; lia.
Qed.

Lemma testbit_low_cleared m b :
  0 <= m <= 64 -> 0 <= b < 64 -> Z.testbit (low_cleared m) b = (m <=? b).
Proof.
  intros Hm Hb.
  assert (E : low_cleared m = Z.shiftl (Z.ones (64 - m)) m).
  { rewrite Z.shiftl_mul_pow2, Z.ones_equiv by lia. unfold low_cleared, Z.pred.
    rewrite Z.mul_add_distr_r, <- Z.pow_add_r by lia.
    replace (64 - m + m) with 64 by lia. lia. }
  rewrite E, Z.shiftl_spec by lia.
  destruct (Z.leb_spec m b).
  - apply Z.ones_spec_low. lia.
  - apply Z.testbit_neg_r. lia.
Qed.

Lemma htole64_ones64 : htole64 host ones64 = ones64.
Proof. destruct host; vm_compute; reflexivity. Qed.

Lemma words_bytes_length ws : length (words_bytes ws) = (length ws * 8)%nat.
Proof.
  unfold words_bytes. induction ws as [|w ws IH]; [reflexivity|].
  cbn [flat_map length]. rewrite length_app, host_bytes_length, IH. lia.
Qed.

(** A block buffer whose words are [htole64] of the lines [L] is, byte
    by byte, the flat little-endian bit vector of those lines. *)
Lemma words_block_bit (ws : list Z) (L : nat -> Z) k :
  (forall j, (j < length ws)%nat -> nth j ws 0 = htole64 host (L j)) ->
  0 <= k < 64 * Z.of_nat (length ws) ->
  bitmap_test (words_bytes ws) k = Z.testbit (L (Z.to_nat (k / 64))) (k mod 64).
Proof.
  clear write_ok I_DATA_SIZE.
  intros HL Hk. unfold bitmap_test, words_bytes.
  set (q := Z.to_nat (k / 64)). set (r := Z.to_nat ((k / 8) mod 8)).
  assert (Hq : (q < length ws)%nat) by (subst q; Z.div_mod_to_equations; lia).
  assert (Hr : (r < 8)%nat) by (subst r; Z.div_mod_to_equations; lia).
  replace (Z.to_nat (k / 8)) with (q * 8 + r)%nat
    by (subst q r; Z.div_mod_to_equations; lia).
  rewrite flat_map_concat_map.
  rewrite nth_concat_uniform; [|apply Forall_forall; intros l Hl|exact Hr].
  - rewrite (nth_indep _ [] (host_bytes host 8 0)) by (rewrite length_map; exact Hq).
    rewrite (map_nth (host_bytes host 8)), (HL q Hq), host_bytes_htole64.
    rewrite testbit_nth_le_bytes by (try exact Hr; Z.div_mod_to_equations; lia).
    f_equal. subst r. Z.div_mod_to_equations; lia.
  - apply list_elem_of_In, in_map_iff in Hl. destruct Hl as [w [<- _]].
    apply host_bytes_length.
Qed.

(** The bitmap that several blocks make up. *)
Lemma concat_blocks_bit (bs : list block) k :
  Forall (fun b => length b = Z.to_nat SIMPLEFS_BLOCK_SIZE) bs -> 0 <= k ->
  bitmap_test (concat bs) k
  = bitmap_test (nth (Z.to_nat (k / BITS_PER_BLOCK)) bs []) (k mod BITS_PER_BLOCK).
Proof.
  clear write_ok I_DATA_SIZE.
  intros Hall Hk. unfold bitmap_test, BITS_PER_BLOCK, SIMPLEFS_BLOCK_SIZE in *.
  set (q := Z.to_nat (k / (4096 * 8))). set (r := Z.to_nat (k mod (4096 * 8) / 8)).
  replace (Z.to_nat (k / 8)) with (q * Z.to_nat 4096 + r)%nat
    by (subst q r; Z.div_mod_to_equations; lia).
  rewrite nth_concat_uniform; [|exact Hall|subst r; Z.div_mod_to_equations; lia].
  f_equal. Z.div_mod_to_equations; lia.
Qed.

(** ** The loops of [write_bfree_blocks] *)

Lemma low_cleared_step k :
  0 <= k < 64 -> Z.land (low_cleared k) (not64 (2 ^ k)) = low_cleared (k + 1).
Proof.
  intros Hk.
  assert (H : forall n : nat, (n < 64)%nat ->
            Z.land (low_cleared (Z.of_nat n)) (not64 (2 ^ Z.of_nat n))
            = low_cleared (Z.of_nat n + 1)).
  { intros n Hn. do 64 (destruct n as [|n]; [vm_compute; reflexivity|]). lia. }
  specialize (H (Z.to_nat k) ltac:(lia)). now rewrite Z2Nat.id in H by lia.
Qed.

Lemma mask_shift k : 0 <= k < 64 ->
  u64 (Z.shiftl (2 ^ k) 1) = if k =? 63 then 0 else 2 ^ (k + 1).
Proof.
  intros Hk. rewrite Z.shiftl_mul_pow2, <- Z.pow_add_r by lia.
  destruct (Z.eqb_spec k 63) as [->|Hne]; [reflexivity|].
  unfold u64. apply Z.mod_small. split; [apply Z.pow_nonneg; lia|].
  apply Z.pow_lt_mono_r; lia.
Qed.

(** The inner loop clears as many bits as are left to mark, up to the
    end of the line. *)
Lemma fill_line_from (fuel : nat) k nr :
  0 <= k < 64 -> 0 < nr < 2 ^ 32 -> Z.of_nat fuel = 65 - k ->
  fill_line fuel (2 ^ k) (low_cleared k) nr
  = (low_cleared (k + Z.min (64 - k) nr), nr - Z.min (64 - k) nr).
Proof.
  revert k nr. induction fuel as [|fuel IH]; intros k nr Hk Hnr Hf; [lia|].
  cbn [fill_line].
  assert (Hp : 0 < 2 ^ k) by (apply Z.pow_pos_nonneg; lia).
  destruct (Z.eqb_spec (2 ^ k) 0) as [E|_]; [lia|].
  rewrite low_cleared_step by exact Hk. rewrite (u32_small (nr - 1)) by lia.
  destruct (Z.eqb_spec (nr - 1) 0) as [E1|E1].
  - replace (Z.min (64 - k) nr) with 1 by lia. f_equal; lia.
  - rewrite mask_shift by exact Hk. destruct (Z.eqb_spec k 63) as [->|Hne].
    + destruct fuel as [|fuel]; [lia|]. cbn [fill_line Z.eqb].
      replace (Z.min (64 - 63) nr) with 1 by lia. reflexivity.
    + rewrite IH by lia.
      replace (k + 1 + Z.min (64 - (k + 1)) (nr - 1)) with (k + Z.min (64 - k) nr) by lia.
      f_equal; lia.
Qed.

Lemma fill_line_spec nr :
  0 < nr < 2 ^ 32 ->
  fill_line 65 1 ones64 nr = (low_cleared (Z.min 64 nr), nr - Z.min 64 nr).
Proof.
  intros Hnr. change 1 with (2 ^ 0) at 1. change ones64 with (low_cleared 0).
  rewrite fill_line_from by lia. reflexivity.
Qed.

(** The outer loop: word [j] from [i] on receives the line for bits
    [64 (j - i) ...] of the run, as long as the run lasts and the buffer
    has a word [j]. *)
Lemma fill_used_spec (fuel : nat) : forall (i : nat) nr (buf : list Z) over,
  0 <= nr < 2 ^ 32 -> nr <= Z.of_nat fuel ->
  length (fst (fill_used fuel i nr buf over)) = length buf /\
  (nr <= 64 * (Z.of_nat (length buf) - Z.of_nat i) ->
   snd (fill_used fuel i nr buf over) = over) /\
  forall j : nat,
    nth j (fst (fill_used fuel i nr buf over)) 0 =
      if decide (Z.of_nat i <= Z.of_nat j < Z.of_nat (length buf)
                 /\ 64 * (Z.of_nat j - Z.of_nat i) < nr)
      then htole64 host (low_cleared (Z.min 64 (nr - 64 * (Z.of_nat j - Z.of_nat i))))
      else nth j buf 0.
Proof.
  induction fuel as [|fuel IH]; intros i nr buf over Hnr Hfuel.
  - cbn [fill_used fst snd]. split; [reflexivity|]. split; [reflexivity|].
    intros j. rewrite decide_False; [reflexivity|lia].
  - cbn [fill_used]. destruct (Z.eqb_spec nr 0) as [E|E].
    + cbn [fst snd]. split; [reflexivity|]. split; [reflexivity|].
      intros j. rewrite decide_False; [reflexivity|lia].
    + rewrite fill_line_spec by lia.
      specialize (IH (S i) (nr - Z.min 64 nr)
                    (<[i := htole64 host (low_cleared (Z.min 64 nr))]> buf)
                    (over || negb (i <? length buf)%nat) ltac:(lia) ltac:(lia)).
      rewrite length_insert in IH. destruct IH as (IHl & IHo & IHn).
      split; [exact IHl|]. split.
      * intros Hfit. rewrite IHo by lia.
        destruct (Nat.ltb_spec i (length buf)); [apply orb_false_r|lia].
      * intros j. rewrite IHn, nth_insert.
        repeat case_decide; try reflexivity; try lia.
        -- f_equal. f_equal. lia.
        -- destruct H0 as [-> _]. f_equal. f_equal. lia.
Qed.

(** ** The bitmaps that format writes *)

Lemma ones_block_bit k :
  0 <= k < BITS_PER_BLOCK ->
  bitmap_test (words_bytes (repeat ones64 WORDS_PER_BLOCK)) k = true.
Proof.
  clear write_ok I_DATA_SIZE.
  intros Hk. unfold BITS_PER_BLOCK, SIMPLEFS_BLOCK_SIZE in Hk.
  rewrite (words_block_bit _ (fun _ => low_cleared 0)).
  - rewrite testbit_low_cleared by (Z.div_mod_to_equations; lia).
    apply Z.leb_le. Z.div_mod_to_equations; lia.
  - intros j Hj. rewrite repeat_length in Hj. rewrite nth_repeat_gen by exact Hj.
    symmetry. apply htole64_ones64.
  - rewrite repeat_length. unfold WORDS_PER_BLOCK. lia.
Qed.

Lemma ifree_first_block_bit k :
  0 <= k < BITS_PER_BLOCK ->
  bitmap_test
    (words_bytes (<[0%nat := htole64 host 0xfffffffffffffffe]> (repeat ones64 WORDS_PER_BLOCK))) k
  = (1 <=? k).
Proof.
  clear write_ok I_DATA_SIZE.
  intros Hk. unfold BITS_PER_BLOCK, SIMPLEFS_BLOCK_SIZE in Hk.
  rewrite (words_block_bit _ (fun j => low_cleared (if decide (j = 0%nat) then 1 else 0))).
  - rewrite testbit_low_cleared by (try case_decide; Z.div_mod_to_equations; lia).
    case_decide as Hd; destruct (Z.leb_spec 1 k); symmetry;
      try (apply Z.leb_le); try (apply Z.leb_gt); Z.div_mod_to_equations; lia.
  - intros j Hj. rewrite length_insert, repeat_length in Hj.
    rewrite nth_insert, repeat_length. unfold WORDS_PER_BLOCK in *.
    destruct j as [|j].
    + rewrite decide_True by (split; [reflexivity|lia]). reflexivity.
    + rewrite decide_False by (intros [? _]; discriminate).
      rewrite nth_repeat_gen by exact Hj. rewrite decide_False by discriminate.
      symmetry. apply htole64_ones64.
  - rewrite length_insert, repeat_length. unfold WORDS_PER_BLOCK. lia.
Qed.

Lemma bfree_first_block N k :
  0 < N <= BITS_PER_BLOCK -> 0 <= k < BITS_PER_BLOCK ->
  let res := fill_used (Z.to_nat N) 0 N (repeat ones64 WORDS_PER_BLOCK) false in
  snd res = false /\ length (fst res) = WORDS_PER_BLOCK /\
  bitmap_test (words_bytes (fst res)) k = (N <=? k).
Proof.
  clear write_ok I_DATA_SIZE.
  intros HN Hk. unfold BITS_PER_BLOCK, SIMPLEFS_BLOCK_SIZE in *. cbv zeta.
  destruct (fill_used_spec (Z.to_nat N) 0 N (repeat ones64 WORDS_PER_BLOCK) false
              ltac:(lia) ltac:(lia)) as (Hl & Ho & Hn).
  rewrite repeat_length in *. unfold WORDS_PER_BLOCK in *.
  split; [apply Ho; lia|]. split; [exact Hl|].
  rewrite (words_block_bit _
             (fun j => low_cleared (Z.max 0 (Z.min 64 (N - 64 * Z.of_nat j))))).
  - rewrite testbit_low_cleared by (Z.div_mod_to_equations; lia).
    destruct (Z.leb_spec N k); [apply Z.leb_le|apply Z.leb_gt];
      Z.div_mod_to_equations; lia.
  - intros j Hj. rewrite Hl in Hj. rewrite Hn. case_decide as Hd.
    + f_equal. f_equal. lia.
    + rewrite nth_repeat_gen by exact Hj.
      replace (Z.max 0 (Z.min 64 (N - 64 * Z.of_nat j))) with 0 by lia.
      symmetry. apply htole64_ones64.
  - rewrite Hl. lia.
Qed.

Lemma block_length_ok ws :
  length ws = WORDS_PER_BLOCK -> length (words_bytes ws) = Z.to_nat SIMPLEFS_BLOCK_SIZE.
Proof. intros H. rewrite words_bytes_length, H. reflexivity. Qed.

Lemma appended_app (f l : list block) : appended f (f ++ l) = l.
Proof. unfold appended. apply drop_app_length. Qed.

(** A first block followed by all-ones blocks, read as one bitmap. *)
Lemma region_bit (b0 : block) (m : nat) k (P : Z -> bool) :
  length b0 = Z.to_nat SIMPLEFS_BLOCK_SIZE ->
  (forall k', 0 <= k' < BITS_PER_BLOCK -> bitmap_test b0 k' = P k') ->
  (forall k', BITS_PER_BLOCK <= k' -> P k' = true) ->
  0 <= k < BITS_PER_BLOCK * (1 + Z.of_nat m) ->
  bitmap_test (concat (b0 :: repeat (words_bytes (repeat ones64 WORDS_PER_BLOCK)) m)) k = P k.
Proof.
  intros Hl H0 Hbeyond Hk.
  assert (Hbits : 0 < BITS_PER_BLOCK) by reflexivity.
  rewrite concat_blocks_bit; [| |lia].
  - destruct (Z.to_nat (k / BITS_PER_BLOCK)) as [|q] eqn:Eq.
    + cbn [nth]. assert (k / BITS_PER_BLOCK = 0).
      { pose proof (Z.div_pos k BITS_PER_BLOCK ltac:(lia) Hbits). lia. }
      rewrite H0 by (apply Z.mod_pos_bound; exact Hbits). f_equal.
      apply Z.mod_small. apply Z.div_small_iff in H; lia.
    + cbn [nth]. assert (Hq : (q < m)%nat).
      { assert (k / BITS_PER_BLOCK < 1 + Z.of_nat m)
          by (apply Z.div_lt_upper_bound; lia). lia. }
      rewrite (nth_indep _ [] (words_bytes (repeat ones64 WORDS_PER_BLOCK)))
        by (rewrite repeat_length; exact Hq).
      rewrite nth_repeat_gen by exact Hq.
      rewrite ones_block_bit by (apply Z.mod_pos_bound; exact Hbits).
      symmetry. apply Hbeyond.
      assert (1 <= k / BITS_PER_BLOCK) by lia.
      pose proof (Z.mul_div_le k BITS_PER_BLOCK Hbits). nia.
  - constructor; [exact Hl|]. apply Forall_forall. intros b Hb.
    apply list_elem_of_In, repeat_spec in Hb. subst b.
    apply block_length_ok, repeat_length.
Qed.

(** The counts that the bitmap steps read back from the superblock are
    those of the geometry. *)
Lemma superblock_info_counts size :
  inodes_per_block_ok -> device_ok size ->
  let g := superblock_geometry size in
  let sb := superblock_info size in
  le32toh host (nr_istore_blocks sb) = g_nr_istore_blocks g /\
  le32toh host (nr_ifree_blocks sb) = g_nr_ifree_blocks g /\
  le32toh host (nr_bfree_blocks sb) = g_nr_bfree_blocks g.
Proof.
  intros Hipb Hdev. destruct (geometry_exact size Hipb Hdev)
    as (H1 & H2 & H3 & H4 & H5 & H6 & H7 & H8 & H9 & H10).
  cbv zeta in *. destruct Hdev as [Hmin Hfit].
  unfold used_run, inodes_per_block_ok, BITS_PER_BLOCK, SIMPLEFS_BLOCK_SIZE in *.
  assert (100 <= size / 4096) by (apply Z.div_le_lower_bound; lia).
  cbn [superblock_info nr_istore_blocks nr_ifree_blocks nr_bfree_blocks].
  rewrite !le32toh_htole32 by lia. auto.
Qed.

(** Every bit of the inode bitmap but bit 0 is set. *)
Lemma ifree_region_bits size f f' k :
  inodes_per_block_ok -> device_ok size ->
  write_ifree_blocks f (superblock_info size) = (0, f') ->
  0 <= k < BITS_PER_BLOCK * g_nr_ifree_blocks (superblock_geometry size) ->
  bitmap_test (concat (appended f f')) k = (1 <=? k).
Proof.
  intros Hipb Hdev Hw Hk.
  destruct (superblock_info_counts size Hipb Hdev) as (_ & Hi & _).
  destruct (geometry_exact size Hipb Hdev) as (_ & _ & _ & _ & _ & _ & _ & _ & Hpos & _).
  cbv zeta in *. apply write_ifree_blocks_app in Hw.
  destruct Hw as [[_ ->]|[Hr _]]; [|discriminate].
  rewrite appended_app, Hi. unfold iterations_from_1.
  apply (region_bit _ _ k (fun k => 1 <=? k)).
  - apply block_length_ok. rewrite length_insert. apply repeat_length.
  - apply ifree_first_block_bit.
  - intros k' Hk'. apply Z.leb_le. unfold BITS_PER_BLOCK, SIMPLEFS_BLOCK_SIZE in Hk'. lia.
  - rewrite Z2Nat.id by lia. lia.
Qed.

(** The block bitmap has its first [used_run] bits clear and all others
    set, when the run ends within the first block. *)
Lemma bfree_region_bits size f f' over k :
  inodes_per_block_ok -> device_ok size ->
  used_run (superblock_geometry size) <= BITS_PER_BLOCK ->
  write_bfree_blocks f (superblock_info size) = (0, f', over) ->
  over = false /\
  length (appended f f') = Z.to_nat (g_nr_bfree_blocks (superblock_geometry size)) /\
  (0 <= k < BITS_PER_BLOCK * g_nr_bfree_blocks (superblock_geometry size) ->
   bitmap_test (concat (appended f f')) k = (used_run (superblock_geometry size) <=? k)).
Proof.
  intros Hipb Hdev Hrun Hw.
  destruct (superblock_info_counts size Hipb Hdev) as (Hs & Hi & Hb).
  destruct (geometry_exact size Hipb Hdev) as (_ & _ & _ & _ & _ & _ & _ & Hp1 & Hp2 & Hp3).
  cbv zeta in *. apply write_bfree_blocks_app in Hw. cbv zeta in Hw.
  rewrite Hs, Hi, Hb in Hw. fold (used_run (superblock_geometry size)) in Hw.
  set (N := used_run (superblock_geometry size)) in *.
  assert (HN : 0 < N <= BITS_PER_BLOCK) by (unfold N, used_run in *; lia).
  rewrite (u32_small N) in Hw by (unfold BITS_PER_BLOCK, SIMPLEFS_BLOCK_SIZE in HN; lia).
  destruct Hw as [-> [[_ ->]|[Hr _]]]; [|discriminate].
  destruct (bfree_first_block N 0 HN ltac:(unfold BITS_PER_BLOCK, SIMPLEFS_BLOCK_SIZE; lia))
    as (Ho & Hl & _). cbv zeta in Ho, Hl.
  split; [exact Ho|]. rewrite appended_app. unfold iterations_from_1. split.
  - cbn [length]. rewrite repeat_length. lia.
  - intros Hk. apply (region_bit _ _ k (fun k => N <=? k)).
    + apply block_length_ok. exact Hl.
    + intros k' Hk'. apply (bfree_first_block N k' HN Hk').
    + intros k' Hk'. apply Z.leb_le. lia.
    + rewrite Z2Nat.id by lia. lia.
Qed.

(** Once set, the flag stays set. *)
Lemma fill_used_flag_stays (fuel : nat) : forall (i : nat) nr (buf : list Z),
  snd (fill_used fuel i nr buf true) = true.
Proof.
  induction fuel as [|fuel IH]; intros i nr buf; cbn [fill_used]; [reflexivity|].
  destruct (nr =? 0); [reflexivity|].
  destruct (fill_line 65 1 ones64 nr) as [line nr']. cbn [orb]. apply IH.
Qed.

(** A run longer than the rest of the buffer makes the loop store past
    its end. *)
Lemma fill_used_overruns (fuel : nat) : forall (i : nat) nr (buf : list Z) over,
  0 <= nr < 2 ^ 32 -> nr <= Z.of_nat fuel -> (i <= length buf)%nat ->
  64 * (Z.of_nat (length buf) - Z.of_nat i) < nr ->
  snd (fill_used fuel i nr buf over) = true.
Proof.
  clear write_ok I_DATA_SIZE.
  induction fuel as [|fuel IH]; intros i nr buf over Hnr Hfuel Hi Hrun; [lia|].
  cbn [fill_used]. destruct (Z.eqb_spec nr 0); [lia|].
  rewrite fill_line_spec by lia.
  destruct (Nat.ltb_spec i (length buf)) as [Hlt|Hge]; cbn [negb].
  - apply IH; rewrite ?length_insert; lia.
  - rewrite orb_true_r. apply fill_used_flag_stays.
Qed.

(** The fill loop of [write_bfree_blocks] stores past its buffer exactly
    when the used run is longer than one bitmap block. *)
Lemma write_bfree_blocks_overrun size f :
  inodes_per_block_ok -> device_ok size ->
  snd (write_bfree_blocks f (superblock_info size))
  = (BITS_PER_BLOCK <? used_run (superblock_geometry size)).
Proof.
  intros Hipb Hdev.
  destruct (superblock_info_counts size Hipb Hdev) as (Hs & Hi & Hb).
  destruct (geometry_exact size Hipb Hdev) as (H1 & _ & _ & _ & _ & _ & H7 & Hp1 & Hp2 & Hp3).
  cbv zeta in *.
  destruct (write_bfree_blocks f (superblock_info size)) as [[r f'] over] eqn:Hw.
  cbn [snd]. apply write_bfree_blocks_app in Hw. cbv zeta in Hw.
  rewrite Hs, Hi, Hb in Hw. fold (used_run (superblock_geometry size)) in Hw.
  set (N := used_run (superblock_geometry size)) in *.
  destruct Hdev as [Hmin Hfit].
  assert (HN : 0 < N < 2 ^ 32)
    by (unfold N, used_run, inodes_per_block_ok in *; lia).
  rewrite (u32_small N) in Hw by lia. destruct Hw as [-> _].
  assert (Hbits : BITS_PER_BLOCK = 32768) by reflexivity. rewrite Hbits.
  destruct (Z.ltb_spec 32768 N) as [Hlong|Hshort].
  - apply fill_used_overruns; rewrite ?repeat_length; unfold WORDS_PER_BLOCK; lia.
  - destruct (fill_used_spec (Z.to_nat N) 0 N (repeat ones64 WORDS_PER_BLOCK) false
                ltac:(lia) ltac:(lia)) as (_ & Ho & _).
    apply Ho. rewrite repeat_length. unfold WORDS_PER_BLOCK. lia.
Qed.

(** ** The free-bit scan *)

Lemma scan_free_first bm (n : nat) k0 N :
  k0 <= N < k0 + Z.of_nat n ->
  (forall k, k0 <= k < N -> bitmap_test bm k = false) ->
  bitmap_test bm N = true ->
  scan_free bm n k0 = Some N.
Proof.
  revert k0. induction n as [|n IH]; intros k0 Hr Hused Hfree; [lia|].
  cbn [scan_free]. destruct (Z.eq_dec k0 N) as [->|Hne].
  - now rewrite Hfree.
  - rewrite Hused by lia. apply IH; [lia| |exact Hfree]. intros k Hk. apply Hused. lia.
Qed.

Lemma scan_free_bound bm (n : nat) k0 i :
  scan_free bm n k0 = Some i -> k0 <= i < k0 + Z.of_nat n.
Proof.
  revert k0. induction n as [|n IH]; intros k0 H; [discriminate|].
  cbn [scan_free] in H. destruct (bitmap_test bm k0).
  - injection H as <-. lia.
  - apply IH in H. lia.
Qed.

Lemma find_first_free_lowest bm size N :
  0 <= N < size ->
  (forall k, 0 <= k < N -> bitmap_test bm k = false) ->
  bitmap_test bm N = true ->
  find_first_free bm size = Some N.
Proof. intros Hr Hu Hf. unfold find_first_free. apply scan_free_first; [lia|exact Hu|exact Hf]. Qed.

Lemma find_first_free_bound bm size i :
  find_first_free bm size = Some i -> 0 <= i < size.
Proof.
  unfold find_first_free. intros H. apply scan_free_bound in H.
  destruct (Z.le_gt_cases 0 size); [lia|].
  rewrite Z2Nat.nonpos in H by lia. lia.
Qed.

(** ** Claims on the bitmaps *)

(** C3. The claim says that the first N = 1 + inode_table_blocks +
    inode_bitmap_blocks + block_bitmap_blocks + 1 bits are marked used
    for every valid geometry, the run being carried across bitmap
    blocks.  [write_bfree_blocks] fills one block buffer only.  When the
    run ends within the first bitmap block (N <= 32768) no store leaves
    the buffer and, if the writes succeed, the bitmap written has exactly
    its first N bits marked used and every other bit of the region free.
    When the run is longer, the fill loop stores past the 512 words of
    its buffer: nothing carries the run into the second bitmap block,
    and the behaviour of the program is undefined. *)
Theorem block_bitmap_run_overruns_buffer size f :
  inodes_per_block_ok -> device_ok size ->
  let g := superblock_geometry size in
  let res := write_bfree_blocks f (superblock_info size) in
  (used_run g <= BITS_PER_BLOCK ->
   snd res = false /\
   (fst (fst res) = 0 ->
    length (appended f (snd (fst res))) = Z.to_nat (g_nr_bfree_blocks g) /\
    g_nr_blocks g <= BITS_PER_BLOCK * g_nr_bfree_blocks g /\
    forall k, 0 <= k < BITS_PER_BLOCK * g_nr_bfree_blocks g ->
      bitmap_test (concat (appended f (snd (fst res)))) k = (used_run g <=? k))) /\
  (BITS_PER_BLOCK < used_run g -> snd res = true).
Proof.
  intros Hipb Hdev. cbv zeta.
  pose proof (write_bfree_blocks_overrun size f Hipb Hdev) as Hflag.
  destruct (geometry_exact size Hipb Hdev) as (H1 & _ & _ & _ & H5 & _).
  cbv zeta in *.
  destruct (write_bfree_blocks f (superblock_info size)) as [[r f'] over] eqn:Hw.
  cbn [fst snd] in *. split.
  - intros Hrun. split.
    + rewrite Hflag. apply Z.ltb_ge. exact Hrun.
    + intros ->.
      destruct (bfree_region_bits size f f' over 0 Hipb Hdev Hrun Hw) as (_ & Hl & _).
      split; [exact Hl|]. split; [lia|].
      intros k Hk. now apply (bfree_region_bits size f f' over k Hipb Hdev Hrun Hw).
  - intros Hrun. rewrite Hflag. apply Z.ltb_lt. exact Hrun.
Qed.

(** C4, as amended.  In both bitmaps that format writes, every padding
    bit beyond the logical count (total_inodes, total_blocks) is left
    free (bit value 1), like any bit that format does not mark used; a
    scan bounded by the logical count is what never returns an index at
    or beyond that count. *)
Theorem padding_bits_left_free size f :
  inodes_per_block_ok -> device_ok size ->
  let g := superblock_geometry size in
  (forall f' k,
     write_ifree_blocks f (superblock_info size) = (0, f') ->
     g_nr_inodes g <= k < BITS_PER_BLOCK * g_nr_ifree_blocks g ->
     bitmap_test (concat (appended f f')) k = true) /\
  (forall f' over k,
     write_bfree_blocks f (superblock_info size) = (0, f', over) ->
     used_run g <= BITS_PER_BLOCK ->
     g_nr_blocks g <= k < BITS_PER_BLOCK * g_nr_bfree_blocks g ->
     bitmap_test (concat (appended f f')) k = true) /\
  (forall bm count i, find_first_free bm count = Some i -> 0 <= i < count).
Proof.
  intros Hipb Hdev. cbv zeta.
  destruct (geometry_exact size Hipb Hdev) as (H1 & H2 & _ & _ & _ & _ & H7 & _).
  cbv zeta in *. destruct Hdev as [Hmin Hfit]. unfold SIMPLEFS_BLOCK_SIZE in *.
  assert (100 <= size / 4096) by (apply Z.div_le_lower_bound; lia).
  split; [|split].
  - intros f' k Hw Hk.
    rewrite (ifree_region_bits size f f' k Hipb (conj Hmin Hfit) Hw) by lia.
    apply Z.leb_le. lia.
  - intros f' over k Hw Hrun Hk.
    destruct (bfree_region_bits size f f' over k Hipb (conj Hmin Hfit) Hrun Hw)
      as (_ & _ & Hb).
    rewrite Hb by lia. apply Z.leb_le. unfold used_run in *. lia.
  - intros bm count i Hs. now apply find_first_free_bound in Hs.
Qed.

(** C5, as amended.  Right after format, the lowest-index-first scan of
    the inode bitmap returns index 1; the same scan of the block bitmap
    returns 2 + inode_table_blocks + inode_bitmap_blocks +
    block_bitmap_blocks, the index after the first data block (which is
    marked used for the root directory), when the used run ends within
    the first bitmap block.  Both hold for a scan over the logical count
    and for any longer one. *)
Theorem first_free_after_format size f :
  inodes_per_block_ok -> device_ok size ->
  let g := superblock_geometry size in
  let first_data_block :=
    1 + g_nr_istore_blocks g + g_nr_ifree_blocks g + g_nr_bfree_blocks g in
  (1 < g_nr_inodes g /\ first_data_block + 1 < g_nr_blocks g) /\
  (forall f' count,
     write_ifree_blocks f (superblock_info size) = (0, f') ->
     1 < count ->
     find_first_free (concat (appended f f')) count = Some 1) /\
  (forall f' over count,
     write_bfree_blocks f (superblock_info size) = (0, f', over) ->
     used_run g <= BITS_PER_BLOCK ->
     first_data_block + 1 < count ->
     find_first_free (concat (appended f f')) count = Some (first_data_block + 1)).
Proof.
  intros Hipb Hdev. cbv zeta.
  destruct (geometry_exact size Hipb Hdev)
    as (H1 & H2 & _ & H4 & H5 & _ & H7 & Hp1 & Hp2 & Hp3).
  cbv zeta in *. pose proof Hdev as [Hmin Hfit]. unfold SIMPLEFS_BLOCK_SIZE in Hmin.
  assert (100 <= size / SIMPLEFS_BLOCK_SIZE) by (apply Z.div_le_lower_bound;
    unfold SIMPLEFS_BLOCK_SIZE; lia).
  unfold used_run in *.
  assert (Hbits : BITS_PER_BLOCK = 32768) by reflexivity.
  split; [lia|]. split.
  - intros f' count Hw Hc. apply find_first_free_lowest; [lia| |].
    + intros k Hk. rewrite (ifree_region_bits size f f' k Hipb Hdev Hw) by lia.
      apply Z.leb_gt. lia.
    + rewrite (ifree_region_bits size f f' 1 Hipb Hdev Hw) by lia. reflexivity.
  - intros f' over count Hw Hrun Hc.
    assert (Hbit : forall k, 0 <= k < BITS_PER_BLOCK * g_nr_bfree_blocks (superblock_geometry size) ->
              bitmap_test (concat (appended f f')) k
              = (used_run (superblock_geometry size) <=? k)).
    { intros k Hk. now apply (bfree_region_bits size f f' over k Hipb Hdev Hrun Hw). }
    unfold used_run in Hbit.
    apply find_first_free_lowest; [lia| |].
    + intros k Hk. rewrite Hbit by lia. apply Z.leb_gt. lia.
    + rewrite Hbit by lia. apply Z.leb_le. lia.
Qed.

(** ** Claims on the mount loader and the inode write-back *)

(** C10. For an inode number at or beyond the total inode count of the
    mounted filesystem, [simplefs_write_inode] returns 0 at once: the
    state is untouched, no block is read or written, nothing is logged.
    The inode number is the 32-bit local [ino]. *)
Theorem write_inode_out_of_range inode m s :
  nr_inodes (sbi m) <= u32 (i_ino inode) ->
  simplefs_write_inode inode m s = (0, s).
Proof.
  intros H. unfold simplefs_write_inode.
  destruct (Z.leb_spec (nr_inodes (sbi m)) (u32 (i_ino inode))); [reflexivity|lia].
Qed.

(** When block 0 is readable and its magic field, as the host reads it,
    differs from [SIMPLEFS_MAGIC], the mount fails with -EINVAL right
    after the superblock read: no mirror is allocated ([s_fs_info] stays
    NULL, the log has no [kzalloc]), no root is set, no other block is
    read and the device is unchanged. *)
Lemma mount_rejects_wrong_magic env s b :
  kdisk s !! 0%nat = Some b ->
  magic (sb_decode host b) <> SIMPLEFS_MAGIC ->
  fst (simplefs_fill_super env s) = mk_mount_result (- EINVAL) None false /\
  kdisk (snd (simplefs_fill_super env s)) = kdisk s /\
  klog (snd (simplefs_fill_super env s)) = K_brelse :: K_bread 0 :: klog s.
Proof.
  intros Hb Hm. unfold simplefs_fill_super, sb_bread, SIMPLEFS_SB_BLOCK_NR.
  change (Z.to_nat 0) with 0%nat. change (0 <? 0) with false. cbv iota.
  rewrite Hb. unfold sb_decode in Hm.
  destruct (Z.eqb_spec (magic (sb_of_bytes host b)) SIMPLEFS_MAGIC) as [E|E];
    [contradiction|].
  cbn [negb fst snd]. auto.
Qed.

Lemma host_value_inj h (l1 l2 : list Z) :
  Forall is_byte l1 -> Forall is_byte l2 -> length l1 = length l2 ->
  host_value h l1 = host_value h l2 -> l1 = l2.
Proof.
  intros H1 H2 Hl Hv.
  assert (Hle : forall a b : list Z, Forall is_byte a -> Forall is_byte b ->
            length a = length b -> le_value a = le_value b -> a = b).
  { intros a b Ha Hb Hlen E. rewrite <- (le_bytes_le_value a Ha), <- (le_bytes_le_value b Hb).
    now rewrite E, Hlen. }
  destruct h; cbn [host_value] in Hv.
  - now apply Hle.
  - rewrite <- (rev_involutive l1), <- (rev_involutive l2).
    f_equal. apply Hle; try (now apply rev_is_byte); [|exact Hv].
    now rewrite !length_rev.
Qed.

(** Any one of the four magic bytes replaced by a different byte makes
    the magic field differ. *)
Lemma corrupted_magic_byte (b : block) (j : nat) v :
  Forall is_byte b -> (4 <= length b)%nat -> (j < 4)%nat ->
  is_byte v -> v <> nth j b 0 ->
  magic (sb_decode host b) = SIMPLEFS_MAGIC ->
  magic (sb_decode host (<[j := v]> b)) <> SIMPLEFS_MAGIC.
Proof.
  intros Hb Hlen Hj Hv Hne Hm Hm'. rewrite <- Hm in Hm'.
  unfold sb_decode, sb_of_bytes in Hm'. cbn [magic] in Hm'.
  unfold sb_field, slice in Hm'. change (4 * 0)%nat with 0%nat in Hm'.
  rewrite !drop_0 in Hm'.
  apply host_value_inj in Hm'.
  - apply (f_equal (fun l => nth j l 0)) in Hm'. cbv beta in Hm'.
    rewrite !nth_lookup, !lookup_take_lt in Hm' by exact Hj.
    rewrite list_lookup_insert_eq in Hm' by lia. rewrite <- nth_lookup in Hm'.
    cbn [default] in Hm'. contradiction.
  - apply Forall_take. apply Forall_insert; assumption.
  - now apply Forall_take.
  - rewrite !length_take, length_insert. reflexivity.
Qed.

(** ** The sync engine and the loader on the same blocks *)

Lemma kdisk_release_dirty idx wait s : kdisk (release_dirty idx wait s) = kdisk s.
Proof. unfold release_dirty. destruct (negb (wait =? 0)); reflexivity. Qed.

Lemma sb_bread_in_range s idx :
  0 <= idx < Z.of_nat (length (kdisk s)) ->
  exists b, kdisk s !! Z.to_nat idx = Some b /\
            sb_bread s idx = (Some b, klog_add (K_bread idx) s).
Proof.
  intros Hi. destruct (lookup_lt_is_Some_2 (kdisk s) (Z.to_nat idx) ltac:(lia)) as [b Hb].
  exists b. split; [exact Hb|]. unfold sb_bread.
  destruct (Z.ltb_spec idx 0); [lia|]. now rewrite Hb.
Qed.

Lemma slice_length (off len : nat) (l : list Z) :
  (off + len <= length l)%nat -> length (slice off len l) = len.
Proof. intros H. unfold slice. rewrite length_take, length_drop. lia. Qed.

(** The flush loop stores block after block of the bitmap, each at the
    index the loop computes, and touches no other block. *)
Lemma flush_bitmap_spec (n : nat) : forall i first bm wait s,
  0 <= first -> 0 <= i ->
  first + i + Z.of_nat n + 1 <= Z.of_nat (length (kdisk s)) ->
  first + i + Z.of_nat n + 1 <= 2 ^ 31 ->
  (i + Z.of_nat n) * SIMPLEFS_BLOCK_SIZE <= Z.of_nat (length bm) ->
  exists s',
    flush_bitmap n i first bm wait s = (0, s') /\
    length (kdisk s') = length (kdisk s) /\
    (forall j : nat,
       Z.of_nat j < first + i + 1 \/ first + i + Z.of_nat n + 1 <= Z.of_nat j ->
       kdisk s' !! j = kdisk s !! j) /\
    (forall t, i <= t < i + Z.of_nat n ->
       exists b, kdisk s' !! Z.to_nat (first + t + 1) = Some b /\
         take (Z.to_nat SIMPLEFS_BLOCK_SIZE) b
         = slice (Z.to_nat (t * SIMPLEFS_BLOCK_SIZE)) (Z.to_nat SIMPLEFS_BLOCK_SIZE) bm).
Proof.
  induction n as [|n IH]; intros i first bm wait s Hf Hi Hdisk Hint Hbm.
  - exists s. cbn [flush_bitmap]. repeat split; try reflexivity. intros t Ht. lia.
  - cbn [flush_bitmap]. rewrite to_int_small by lia.
    destruct (sb_bread_in_range s (first + i + 1) ltac:(lia)) as (b & Hb & ->).
    set (src := slice (Z.to_nat (i * SIMPLEFS_BLOCK_SIZE)) (Z.to_nat SIMPLEFS_BLOCK_SIZE) bm).
    set (s2 := release_dirty _ wait _).
    assert (Hd2 : kdisk s2 = <[Z.to_nat (first + i + 1) := memcpy_at b 0 src]> (kdisk s)).
    { subst s2. rewrite kdisk_release_dirty. reflexivity. }
    assert (Hsrc : length src = Z.to_nat SIMPLEFS_BLOCK_SIZE).
    { subst src. apply slice_length. unfold SIMPLEFS_BLOCK_SIZE in *. lia. }
    destruct (IH (i + 1) first bm wait s2 Hf ltac:(lia)
                ltac:(rewrite Hd2, length_insert; lia) ltac:(lia) ltac:(lia))
      as (s' & Hrun & Hlen & Hother & Hdone).
    exists s'. split; [exact Hrun|]. rewrite Hd2, length_insert in Hlen.
    split; [exact Hlen|]. split.
    + intros j Hj. rewrite Hother by lia. rewrite Hd2.
      apply list_lookup_insert_ne. lia.
    + intros t Ht. destruct (Z.eq_dec t i) as [->|Hne].
      * exists (memcpy_at b 0 src). split.
        -- rewrite Hother by lia. rewrite Hd2. apply list_lookup_insert_eq. lia.
        -- unfold memcpy_at. rewrite take_0. cbn [app].
           apply take_app_length'. symmetry. exact Hsrc.
      * apply Hdone. lia.
Qed.

(** The load loop puts the blocks it reads one after the other in the
    buffer. *)
Lemma load_bitmap_spec (n : nat) : forall i first (src bm : list Z) s,
  0 <= first -> 0 <= i ->
  first + i + Z.of_nat n + 1 <= 2 ^ 31 ->
  (i + Z.of_nat n) * SIMPLEFS_BLOCK_SIZE <= Z.of_nat (length src) ->
  length bm = length src ->
  take (Z.to_nat (i * SIMPLEFS_BLOCK_SIZE)) bm = take (Z.to_nat (i * SIMPLEFS_BLOCK_SIZE)) src ->
  (forall t, i <= t < i + Z.of_nat n ->
     exists b, kdisk s !! Z.to_nat (first + t + 1) = Some b /\
       take (Z.to_nat SIMPLEFS_BLOCK_SIZE) b
       = slice (Z.to_nat (t * SIMPLEFS_BLOCK_SIZE)) (Z.to_nat SIMPLEFS_BLOCK_SIZE) src) ->
  exists bm' s',
    load_bitmap n i first bm s = (Some bm', s') /\
    kdisk s' = kdisk s /\
    length bm' = length src /\
    take (Z.to_nat ((i + Z.of_nat n) * SIMPLEFS_BLOCK_SIZE)) bm'
    = take (Z.to_nat ((i + Z.of_nat n) * SIMPLEFS_BLOCK_SIZE)) src.
Proof.
  induction n as [|n IH]; intros i first src bm s Hf Hi Hint Hsrc Hlen Hpre Hblk.
  - exists bm, s. cbn [load_bitmap]. repeat split; try assumption.
    now rewrite Z.add_0_r.
  - cbn [load_bitmap]. rewrite to_int_small by lia.
    destruct (Hblk i ltac:(lia)) as (b & Hb & Htake).
    unfold sb_bread. destruct (Z.ltb_spec (first + i + 1) 0); [lia|]. rewrite Hb.
    set (off := Z.to_nat (i * SIMPLEFS_BLOCK_SIZE)) in *.
    set (bs := Z.to_nat SIMPLEFS_BLOCK_SIZE) in *.
    assert (Hbs : (off + bs <= length src)%nat)
      by (subst off bs; unfold SIMPLEFS_BLOCK_SIZE in *; lia).
    assert (Hsl : length (take bs b) = bs) by (rewrite Htake; now apply slice_length).
    set (bm1 := memcpy_at bm off (take bs b)).
    assert (Hlen1 : length bm1 = length src).
    { subst bm1. unfold memcpy_at. rewrite !length_app, length_take, length_drop, Hsl. lia. }
    assert (Hpre1 : take (off + bs) bm1 = take (off + bs) src).
    { subst bm1. unfold memcpy_at. rewrite take_app_add' by (rewrite length_take; lia).
      rewrite take_app_length' by (symmetry; exact Hsl).
      rewrite Hpre, Htake. unfold slice. apply take_take_drop. }
    destruct (IH (i + 1) first src bm1 (klog_add K_brelse (klog_add (K_bread (first + i + 1)) s))
                Hf ltac:(lia) ltac:(lia) ltac:(lia) Hlen1) as (bm' & s' & Hrun & Hd & Hl & Ht).
    + replace (Z.to_nat ((i + 1) * SIMPLEFS_BLOCK_SIZE)) with (off + bs)%nat
        by (subst off bs; unfold SIMPLEFS_BLOCK_SIZE; lia).
      exact Hpre1.
    + intros t Ht. apply Hblk. lia.
    + exists bm', s'. split; [exact Hrun|]. split; [exact Hd|]. split; [exact Hl|].
      replace (i + Z.of_nat (S n)) with (i + 1 + Z.of_nat n) by lia. exact Ht.
Qed.

Lemma kzalloc_blocks_length n :
  0 <= n -> n * SIMPLEFS_BLOCK_SIZE < 2 ^ 32 ->
  length (kzalloc_blocks n) = Z.to_nat (n * SIMPLEFS_BLOCK_SIZE).
Proof.
  intros H0 H1. unfold kzalloc_blocks. rewrite repeat_length, u32_small; [reflexivity|].
  unfold SIMPLEFS_BLOCK_SIZE in *. lia.
Qed.

(** A whole bitmap read back from the blocks that hold it. *)
Lemma load_bitmap_whole n first (src : list Z) s :
  0 <= first -> 0 <= n -> first + n + 1 <= 2 ^ 31 ->
  n * SIMPLEFS_BLOCK_SIZE < 2 ^ 32 ->
  length src = Z.to_nat (n * SIMPLEFS_BLOCK_SIZE) ->
  (forall t, 0 <= t < n ->
     exists b, kdisk s !! Z.to_nat (first + t + 1) = Some b /\
       take (Z.to_nat SIMPLEFS_BLOCK_SIZE) b
       = slice (Z.to_nat (t * SIMPLEFS_BLOCK_SIZE)) (Z.to_nat SIMPLEFS_BLOCK_SIZE) src) ->
  exists s', load_bitmap (Z.to_nat n) 0 first (kzalloc_blocks n) s = (Some src, s') /\
             kdisk s' = kdisk s.
Proof.
  intros Hf Hn Hint Hsize Hlen Hblk.
  destruct (load_bitmap_spec (Z.to_nat n) 0 first src (kzalloc_blocks n) s Hf ltac:(lia)
              ltac:(lia) ltac:(unfold SIMPLEFS_BLOCK_SIZE in *; lia)
              ltac:(rewrite kzalloc_blocks_length by assumption; now rewrite Hlen)
              ltac:(reflexivity)
              ltac:(intros t Ht; apply Hblk; lia))
    as (bm' & s' & Hrun & Hd & Hl & Ht).
  exists s'. split; [|exact Hd]. rewrite Hrun. f_equal. f_equal.
  rewrite Z.add_0_l, Z2Nat.id in Ht by lia.
  rewrite !take_ge in Ht by lia. exact Ht.
Qed.

Lemma sync_sb_block_decode (b : block) info :
  (4 <= length b)%nat -> sb_in_range info ->
  magic (sb_decode host (sync_sb_block b info)) = magic (sb_decode host b) /\
  mirror_counters (sb_decode host (sync_sb_block b info)) = mirror_counters info.
Proof.
  intros Hlen Hr. unfold sb_decode, sb_of_bytes, sync_sb_block, memcpy_at.
  set (l7 := [nr_blocks info; nr_inodes info; nr_istore_blocks info; nr_ifree_blocks info;
              nr_bfree_blocks info; nr_free_inodes info; nr_free_blocks info]).
  set (rest := drop _ b).
  assert (H0 : sb_field host (take 4 b ++ flat_map (host_bytes host 4) l7 ++ rest) 0
               = sb_field host b 0).
  { unfold sb_field, slice. change (4 * 0)%nat with 0%nat. rewrite !drop_0.
    rewrite take_app_length' by (rewrite length_take; lia). reflexivity. }
  assert (HS : forall k, (k < 7)%nat ->
             sb_field host (take 4 b ++ flat_map (host_bytes host 4) l7 ++ rest) (S k)
             = nth k l7 0 mod 2 ^ 32).
  { intros k Hk. unfold sb_field, slice.
    replace (4 * S k)%nat with (4 + 4 * k)%nat by lia.
    rewrite drop_app_add' by (rewrite length_take; lia).
    fold (slice (4 * k) 4 (flat_map (host_bytes host 4) l7 ++ rest)).
    rewrite slice_flat_map_field by (subst l7; cbn [length]; lia).
    apply host_value_host_bytes. }
  split; [cbn [magic]; exact H0|].
  unfold mirror_counters. cbn [magic nr_blocks nr_inodes nr_istore_blocks nr_ifree_blocks
    nr_bfree_blocks nr_free_inodes nr_free_blocks].
  rewrite !HS by lia. subst l7. cbn [nth].
  destruct info as [f0 f1 f2 f3 f4 f5 f6 f7]. unfold sb_in_range, sb_fields in Hr.
  cbn [magic nr_blocks nr_inodes nr_istore_blocks nr_ifree_blocks
    nr_bfree_blocks nr_free_inodes nr_free_blocks] in *.
  repeat match goal with H : Forall _ (_ :: _) |- _ => apply Forall_cons in H; destruct H end.
  f_equal; apply Z.mod_small; assumption.
Qed.

Lemma sb_in_range_fields sb :
  sb_in_range sb ->
  0 <= nr_istore_blocks sb < 2 ^ 32 /\ 0 <= nr_ifree_blocks sb < 2 ^ 32 /\
  0 <= nr_bfree_blocks sb < 2 ^ 32.
Proof.
  destruct sb as [f0 f1 f2 f3 f4 f5 f6 f7]. unfold sb_in_range, sb_fields.
  cbn [magic nr_blocks nr_inodes nr_istore_blocks nr_ifree_blocks
    nr_bfree_blocks nr_free_inodes nr_free_blocks]. intros Hr.
  repeat match goal with H : Forall _ (_ :: _) |- _ => apply Forall_cons in H; destruct H end.
  auto.
Qed.

(** What [simplefs_sync_fs] leaves on the device. *)
Lemma sync_fs_spec m wait s b0 :
  mirror_fits m s -> kdisk s !! 0%nat = Some b0 ->
  exists s',
    simplefs_sync_fs m wait s = (0, s') /\
    length (kdisk s') = length (kdisk s) /\
    kdisk s' !! 0%nat = Some (sync_sb_block b0 (sbi m)) /\
    (forall t, 0 <= t < nr_ifree_blocks (sbi m) ->
       exists b, kdisk s' !! Z.to_nat (nr_istore_blocks (sbi m) + t + 1) = Some b /\
         take (Z.to_nat SIMPLEFS_BLOCK_SIZE) b
         = slice (Z.to_nat (t * SIMPLEFS_BLOCK_SIZE)) (Z.to_nat SIMPLEFS_BLOCK_SIZE)
             (ifree_bitmap m)) /\
    (forall t, 0 <= t < nr_bfree_blocks (sbi m) ->
       exists b,
         kdisk s' !! Z.to_nat (nr_istore_blocks (sbi m) + nr_ifree_blocks (sbi m) + t + 1)
         = Some b /\
         take (Z.to_nat SIMPLEFS_BLOCK_SIZE) b
         = slice (Z.to_nat (t * SIMPLEFS_BLOCK_SIZE)) (Z.to_nat SIMPLEFS_BLOCK_SIZE)
             (bfree_bitmap m)).
Proof.
  intros (Hr & Hdisk & Hint & Hsa & Hsb & Hla & Hlb) Hb0. cbv zeta in *.
  destruct (sb_in_range_fields _ Hr) as (HI & HA & HB).
  set (I := nr_istore_blocks (sbi m)) in *.
  set (A := nr_ifree_blocks (sbi m)) in *.
  set (B := nr_bfree_blocks (sbi m)) in *.
  unfold simplefs_sync_fs.
  destruct (sb_bread_in_range s 0 ltac:(lia)) as (b & Hb & ->).
  change (Z.to_nat 0) with 0%nat in Hb. rewrite Hb0 in Hb. injection Hb as <-.
  set (s1 := release_dirty 0 wait _).
  assert (Hd1 : kdisk s1 = <[0%nat := sync_sb_block b0 (sbi m)]> (kdisk s)).
  { subst s1. rewrite kdisk_release_dirty. reflexivity. }
  fold I A B.
  destruct (flush_bitmap_spec (Z.to_nat A) 0 I (ifree_bitmap m) wait s1 ltac:(lia) ltac:(lia)
              ltac:(rewrite Hd1, length_insert; lia) ltac:(lia)
              ltac:(unfold SIMPLEFS_BLOCK_SIZE in *; lia))
    as (s2 & Hrun2 & Hlen2 & Hother2 & Hdone2).
  rewrite Hrun2. rewrite Hd1, length_insert in Hlen2.
  destruct (flush_bitmap_spec (Z.to_nat B) 0 (I + A) (bfree_bitmap m) wait s2 ltac:(lia)
              ltac:(lia) ltac:(rewrite Hlen2; lia) ltac:(lia)
              ltac:(unfold SIMPLEFS_BLOCK_SIZE in *; lia))
    as (s3 & Hrun3 & Hlen3 & Hother3 & Hdone3).
  exists s3. split; [exact Hrun3|]. split; [lia|]. split; [|split].
  - rewrite Hother3 by lia. rewrite Hother2 by lia. rewrite Hd1.
    apply list_lookup_insert_eq. lia.
  - intros t Ht. destruct (Hdone2 t ltac:(lia)) as (b & Hb & Htk).
    exists b. split; [|exact Htk]. rewrite Hother3 by lia. exact Hb.
  - intros t Ht. apply Hdone3. lia.
Qed.

(** A mount on a device whose bitmap regions hold [srci] and [srcb]. *)
Lemma fill_super_loads env s b (srci srcb : list Z) :
  mount_env_ok env ->
  kdisk s !! 0%nat = Some b ->
  magic (sb_decode host b) = SIMPLEFS_MAGIC ->
  mirror_fits (mk_mirror (mirror_counters (sb_decode host b)) srci srcb) s ->
  (forall t, 0 <= t < nr_ifree_blocks (sb_decode host b) ->
     exists blk, kdisk s !! Z.to_nat (nr_istore_blocks (sb_decode host b) + t + 1) = Some blk /\
       take (Z.to_nat SIMPLEFS_BLOCK_SIZE) blk
       = slice (Z.to_nat (t * SIMPLEFS_BLOCK_SIZE)) (Z.to_nat SIMPLEFS_BLOCK_SIZE) srci) ->
  (forall t, 0 <= t < nr_bfree_blocks (sb_decode host b) ->
     exists blk,
       kdisk s !! Z.to_nat (nr_istore_blocks (sb_decode host b)
                            + nr_ifree_blocks (sb_decode host b) + t + 1) = Some blk /\
       take (Z.to_nat SIMPLEFS_BLOCK_SIZE) blk
       = slice (Z.to_nat (t * SIMPLEFS_BLOCK_SIZE)) (Z.to_nat SIMPLEFS_BLOCK_SIZE) srcb) ->
  fst (simplefs_fill_super env s)
  = mk_mount_result 0 (Some (mk_mirror (mirror_counters (sb_decode host b)) srci srcb)) true.
Proof.
  intros (Ea & Ei & Eb & Eg & Er) Hb Hm (Hr & Hdisk & Hint & Hsa & Hsb & Hla & Hlb) Hbi Hbb.
  cbv zeta in *. cbn [sbi ifree_bitmap bfree_bitmap] in *.
  destruct (sb_in_range_fields _ Hr) as (HI & HA & HB).
  unfold sb_decode in *.
  cbn [mirror_counters nr_istore_blocks nr_ifree_blocks nr_bfree_blocks] in *.
  unfold simplefs_fill_super, sb_bread, SIMPLEFS_SB_BLOCK_NR.
  change (Z.to_nat 0) with 0%nat. change (0 <? 0) with false. cbv iota. rewrite Hb.
  rewrite Hm, Z.eqb_refl, Ea, Ei, Eb, Eg, Er. cbn [negb Z.eqb].
  cbn [nr_istore_blocks nr_ifree_blocks nr_bfree_blocks].
  set (csb := sb_of_bytes host b) in *.
  set (s1 := klog_add K_kzalloc _).
  destruct (load_bitmap_whole (nr_ifree_blocks csb) (nr_istore_blocks csb) srci s1
              ltac:(lia) ltac:(lia) ltac:(lia) Hsa Hla Hbi) as (s2 & Hrun2 & Hd2).
  rewrite Hrun2.
  set (s3 := klog_add K_kzalloc s2).
  destruct (load_bitmap_whole (nr_bfree_blocks csb)
              (nr_istore_blocks csb + nr_ifree_blocks csb) srcb s3
              ltac:(lia) ltac:(lia) ltac:(lia) Hsb Hlb) as (s4 & Hrun4 & Hd4).
  { intros t Ht. subst s3. cbn [klog_add kdisk]. rewrite Hd2. apply Hbb. exact Ht. }
  rewrite Hrun4. reflexivity.
Qed.

Lemma set_used_length bm k : length (set_used bm k) = length bm.
Proof. unfold set_used. apply length_insert. Qed.

Lemma set_used_test bm k :
  0 <= k < 8 * Z.of_nat (length bm) -> bitmap_test (set_used bm k) k = false.
Proof.
  clear write_ok I_DATA_SIZE.
  intros Hk. unfold bitmap_test, set_used. rewrite nth_insert.
  rewrite decide_True by (split; [reflexivity|]; Z.div_mod_to_equations; lia).
  apply Z.clearbit_eq.
Qed.

(** C9. With bit [i] of the inode bitmap and bit [j] of the block bitmap
    marked used in memory, a sync followed by a mount of the same device
    succeeds and yields bitmaps equal to the ones in memory, so bits [i]
    and [j] are used there: the sync engine writes each bitmap block at
    the block index from which the loader reads it. *)
Theorem sync_then_mount_keeps_used_bits m0 i j wait env s :
  mirror_fits m0 s -> mounted_superblock s -> mount_env_ok env ->
  0 <= i < nr_inodes (sbi m0) ->
  nr_inodes (sbi m0) <= BITS_PER_BLOCK * nr_ifree_blocks (sbi m0) ->
  0 <= j < nr_blocks (sbi m0) ->
  nr_blocks (sbi m0) <= BITS_PER_BLOCK * nr_bfree_blocks (sbi m0) ->
  let m := mk_mirror (sbi m0) (set_used (ifree_bitmap m0) i) (set_used (bfree_bitmap m0) j) in
  exists s1 m',
    simplefs_sync_fs m wait s = (0, s1) /\
    fst (simplefs_fill_super env s1) = mk_mount_result 0 (Some m') true /\
    sbi m' = mirror_counters (sbi m0) /\
    ifree_bitmap m' = ifree_bitmap m /\
    bfree_bitmap m' = bfree_bitmap m /\
    bitmap_test (ifree_bitmap m') i = false /\
    bitmap_test (bfree_bitmap m') j = false.
Proof.
  intros Hfit (b0 & Hb0 & Hl0 & Hmagic) Henv Hi Hni Hj Hnj. cbv zeta.
  set (m := mk_mirror (sbi m0) (set_used (ifree_bitmap m0) i) (set_used (bfree_bitmap m0) j)).
  assert (Hfit' : mirror_fits m s).
  { destruct Hfit as (Hr & Hdisk & Hint & Hsa & Hsb & Hla & Hlb).
    unfold mirror_fits, m. cbn [sbi ifree_bitmap bfree_bitmap]. rewrite !set_used_length.
    repeat split; assumption. }
  destruct (sync_fs_spec m wait s b0 Hfit' Hb0) as (s1 & Hsync & Hlen1 & Hsb1 & Hif & Hbf).
  pose proof Hfit' as (Hr & Hdisk & Hint & Hsa & Hsb & Hla & Hlb). cbv zeta in *.
  cbn [m sbi ifree_bitmap bfree_bitmap] in *.
  destruct (sync_sb_block_decode b0 (sbi m0)
              ltac:(rewrite Hl0; unfold SIMPLEFS_BLOCK_SIZE; lia) Hr) as (Hmg & Hcnt).
  set (b1 := sync_sb_block b0 (sbi m0)) in *.
  assert (Hfields :
    nr_istore_blocks (sb_decode host b1) = nr_istore_blocks (sbi m0) /\
    nr_ifree_blocks (sb_decode host b1) = nr_ifree_blocks (sbi m0) /\
    nr_bfree_blocks (sb_decode host b1) = nr_bfree_blocks (sbi m0)).
  { pose proof (f_equal nr_istore_blocks Hcnt) as E1.
    pose proof (f_equal nr_ifree_blocks Hcnt) as E2.
    pose proof (f_equal nr_bfree_blocks Hcnt) as E3. auto. }
  destruct Hfields as (E1 & E2 & E3).
  assert (Hr' : sb_in_range (mirror_counters (sbi m0))).
  { destruct (sbi m0) as [f0 f1 f2 f3 f4 f5 f6 f7]. unfold sb_in_range, sb_fields in *.
    cbn [mirror_counters magic nr_blocks nr_inodes nr_istore_blocks nr_ifree_blocks
      nr_bfree_blocks nr_free_inodes nr_free_blocks] in *.
    apply Forall_cons in Hr. destruct Hr as [_ Hr]. constructor; [lia|exact Hr]. }
  pose proof (fill_super_loads env s1 b1 (set_used (ifree_bitmap m0) i)
                (set_used (bfree_bitmap m0) j) Henv Hsb1 ltac:(congruence)) as Hload.
  rewrite Hcnt, E1, E2, E3 in Hload.
  exists s1, (mk_mirror (mirror_counters (sbi m0)) (set_used (ifree_bitmap m0) i)
                (set_used (bfree_bitmap m0) j)).
  split; [exact Hsync|]. split.
  - apply Hload; [|exact Hif|exact Hbf].
    unfold mirror_fits. cbn [sbi ifree_bitmap bfree_bitmap mirror_counters
      nr_istore_blocks nr_ifree_blocks nr_bfree_blocks].
    rewrite Hlen1. repeat split; try assumption; lia.
  - cbn [sbi ifree_bitmap bfree_bitmap]. repeat split.
    + apply set_used_test. rewrite set_used_length in Hla.
      unfold BITS_PER_BLOCK, SIMPLEFS_BLOCK_SIZE in *. lia.
    + apply set_used_test. rewrite set_used_length in Hlb.
      unfold BITS_PER_BLOCK, SIMPLEFS_BLOCK_SIZE in *. lia.
Qed.

(** ** The superblock codec across hosts *)

(** Read natively, an encoded field comes back byte-swapped on a
    big-endian host. *)
Lemma sb_field_encode_big_endian sb (k : nat) :
  (k < 8)%nat ->
  sb_field BigEndian (sb_encode BigEndian sb) k = bswap 4 (nth k (sb_fields sb) 0).
Proof.
  intros Hk. rewrite sb_encode_host_independent. unfold sb_encode.
  rewrite sb_field_sb_bytes by exact Hk. unfold host_value, host_bytes, bswap.
  do 8 (destruct k as [|k]; [reflexivity|]). lia.
Qed.

(** * Further properties of the format tool *)

(** ** Arithmetic of the geometry *)

(** X1. [idiv_ceil] is the ceiling of the quotient, without wrap-around,
    for every 32-bit dividend and positive divisor. *)
Theorem idiv_ceil_is_ceiling a b :
  0 <= a < 2 ^ 32 -> 0 < b ->
  idiv_ceil a b = (a + b - 1) / b.
Proof.
  intros Ha Hb. destruct (idiv_ceil_spec a b Ha Hb) as [[H1 H2] _].
  apply (Z.div_unique_pos _ _ _ (a + b - 1 - b * idiv_ceil a b)); lia.
Qed.

(** X2. For a device that [main] accepts, the inode count is the block
    count rounded up to the next multiple of the inodes per block, the
    inode store holds exactly that many records, and each bitmap has the
    least number of blocks whose bits cover its count. *)
Theorem geometry_rounding size :
  inodes_per_block_ok -> device_ok size ->
  let g := superblock_geometry size in
  g_nr_blocks g = size / SIMPLEFS_BLOCK_SIZE /\
  g_nr_inodes g mod SIMPLEFS_INODES_PER_BLOCK = 0 /\
  g_nr_blocks g <= g_nr_inodes g < g_nr_blocks g + SIMPLEFS_INODES_PER_BLOCK /\
  g_nr_istore_blocks g * SIMPLEFS_INODES_PER_BLOCK = g_nr_inodes g /\
  g_nr_ifree_blocks g = (g_nr_inodes g + BITS_PER_BLOCK - 1) / BITS_PER_BLOCK /\
  g_nr_bfree_blocks g = (g_nr_blocks g + BITS_PER_BLOCK - 1) / BITS_PER_BLOCK.
Proof.
  intros Hipb Hdev. cbv zeta.
  destruct (geometry_exact size Hipb Hdev) as (H1 & H2 & H3 & H4 & H5 & _).
  cbv zeta in *. unfold inodes_per_block_ok in Hipb.
  assert (Hb : BITS_PER_BLOCK = 32768) by reflexivity. rewrite Hb in *.
  rewrite H1. split; [reflexivity|]. split.
  - rewrite H3, Z.mul_comm. apply Z.mod_mul. lia.
  - split; [lia|]. split; [lia|]. split.
    + apply (Z.div_unique_pos _ _ _
               (g_nr_inodes (superblock_geometry size) + 32768 - 1
                - 32768 * g_nr_ifree_blocks (superblock_geometry size))); lia.
    + apply (Z.div_unique_pos _ _ _
               (size / SIMPLEFS_BLOCK_SIZE + 32768 - 1
                - 32768 * g_nr_bfree_blocks (superblock_geometry size))); lia.
Qed.

(** ** Exit status and failed writes *)

Lemma format_device_status size :
  (exit_code (format_device size) = 0 \/ exit_code (format_device size) = EXIT_FAILURE) /\
  (exit_code (format_device size) = 0 <-> diag (format_device size) = None).
Proof.
  unfold format_device, write_data_blocks.
  destruct (write_superblock [] size) as [[sb|] f0];
    [|cbn [exit_code diag]; split; [right; reflexivity | split; discriminate]].
  destruct (write_inode_store _ _) as [r1 f1].
  destruct (negb (r1 =? 0));
    [cbn [exit_code diag]; split; [right; reflexivity | split; discriminate]|].
  destruct (write_ifree_blocks _ _) as [r2 f2].
  destruct (negb (r2 =? 0));
    [cbn [exit_code diag]; split; [right; reflexivity | split; discriminate]|].
  destruct (write_bfree_blocks _ _) as [[r3 f3] ov].
  destruct (negb (r3 =? 0));
    [cbn [exit_code diag]; split; [right; reflexivity | split; discriminate]|].
  cbn [Z.eqb negb exit_code diag]. split; [left; reflexivity | split; reflexivity].
Qed.

(** X3. In a run whose fill loop makes no store past its buffer (the
    runs in which the behaviour of the program is defined), [main] exits
    with 0 or [EXIT_FAILURE]; it exits with 0 exactly when it prints no
    diagnostic; and unless the argument count, [open], [fstat] and (on a
    block device) the size [ioctl] are all in order, it fails without
    writing anything. *)
Theorem main_exit_status inv :
  overrun (main inv) = false ->
  (exit_code (main inv) = 0 \/ exit_code (main inv) = EXIT_FAILURE) /\
  (exit_code (main inv) = 0 <-> diag (main inv) = None) /\
  (~ reaches_size_check inv ->
   image (main inv) = [] /\ exit_code (main inv) = EXIT_FAILURE).
Proof.
  intros _. unfold main, reaches_size_check.
  destruct (Z.eqb_spec (argc inv) 2) as [Ea|Ea]; cbn [negb];
    [|cbn [exit_code diag image]; repeat split; auto; discriminate].
  destruct (Z.eqb_spec (open_fd inv) (-1)) as [Eo|Eo];
    [cbn [exit_code diag image]; repeat split; auto; discriminate|].
  destruct (Z.eqb_spec (fstat_ret inv) 0) as [Ef|Ef]; cbn [negb];
    [|cbn [exit_code diag image]; repeat split; auto; discriminate].
  destruct (st_is_blk inv) eqn:Eb; cbn [andb].
  - destruct (Z.eqb_spec (ioctl_ret inv) 0) as [Ei|Ei]; cbn [negb];
      [|cbn [exit_code diag image]; repeat split; auto; discriminate].
    cbv zeta. destruct (device_size inv <=? 100 * SIMPLEFS_BLOCK_SIZE).
    + cbn [exit_code diag image]. repeat split; auto; discriminate.
    + destruct (format_device_status (device_size inv)) as [H1 H2].
      split; [exact H1|]. split; [exact H2|]. intros Hn. exfalso. apply Hn. auto.
  - cbv zeta. destruct (device_size inv <=? 100 * SIMPLEFS_BLOCK_SIZE).
    + cbn [exit_code diag image]. repeat split; auto; discriminate.
    + destruct (format_device_status (device_size inv)) as [H1 H2].
      split; [exact H1|]. split; [exact H2|]. intros Hn. exfalso. apply Hn.
      repeat split; auto. discriminate.
Qed.

Lemma write_inode_store_ok f sb f' :
  write_inode_store f sb = (0, f') ->
  f' = f ++ root_inode_block sb
         :: repeat zero_block (iterations_from_1 (nr_istore_blocks sb)).
Proof.
  unfold write_inode_store. destruct (sys_write _ _) as [f1|] eqn:E; [|discriminate].
  apply sys_write_Some in E. subst f1. intros H. apply write_repeat_app in H.
  destruct H as [[_ ->]|[Hr _]]; [|discriminate]. now rewrite <- app_assoc.
Qed.

(** The steps of a run of the write steps that exits with 0. *)
Lemma format_device_success size :
  exit_code (format_device size) = 0 ->
  exists f1 f2 f3 over,
    write_ok 0 = true /\
    write_inode_store [sb_bytes host (superblock_info size)] (superblock_info size) = (0, f1) /\
    write_ifree_blocks f1 (superblock_info size) = (0, f2) /\
    write_bfree_blocks f2 (superblock_info size) = (0, f3, over) /\
    image (format_device size) = f3 /\
    overrun (format_device size) = over.
Proof.
  unfold format_device, write_data_blocks.
  destruct (write_superblock [] size) as [[sb|] f0] eqn:E0; [|discriminate].
  assert (Hw : write_ok 0 = true).
  { unfold write_superblock, sys_write in E0. cbn [length] in E0.
    destruct (write_ok 0); [reflexivity | discriminate]. }
  apply write_superblock_Some in E0. destruct E0 as [-> ->]. cbn [app].
  destruct (write_inode_store _ _) as [r1 f1] eqn:E1.
  destruct (Z.eqb_spec r1 0) as [->|]; cbn [negb]; [|discriminate].
  destruct (write_ifree_blocks _ _) as [r2 f2] eqn:E2.
  destruct (Z.eqb_spec r2 0) as [->|]; cbn [negb]; [|discriminate].
  destruct (write_bfree_blocks _ _) as [[r3 f3] ov] eqn:E3.
  destruct (Z.eqb_spec r3 0) as [->|]; cbn [negb]; [|discriminate].
  cbn [Z.eqb negb image overrun]. intros _. exists f1, f2, f3, ov. auto 10.
Qed.

Lemma main_success_steps inv :
  exit_code (main inv) = 0 ->
  100 * SIMPLEFS_BLOCK_SIZE < device_size inv /\
  main inv = format_device (device_size inv).
Proof.
  unfold main.
  destruct (negb (argc inv =? 2)); [discriminate|].
  destruct (open_fd inv =? -1); [discriminate|].
  destruct (negb (fstat_ret inv =? 0)); [discriminate|].
  destruct (st_is_blk inv && negb (ioctl_ret inv =? 0)); [discriminate|].
  cbv zeta.
  destruct (Z.leb_spec (device_size inv) (100 * SIMPLEFS_BLOCK_SIZE)); [discriminate|].
  auto.
Qed.

Lemma write_repeat_writes n f buf f' :
  write_repeat n f buf = (0, f') ->
  forall k, (length f <= k < length f')%nat -> write_ok k = true.
Proof.
  revert f; induction n as [|n IH]; intros f H k Hk; cbn [write_repeat] in H.
  - injection H as <-. lia.
  - destruct (sys_write f buf) as [f1|] eqn:E; [|discriminate].
    pose proof E as E'. apply sys_write_Some in E'. subst f1.
    destruct (Nat.eq_dec k (length f)) as [->|Hne].
    + unfold sys_write in E. destruct (write_ok (length f)); [reflexivity|discriminate].
    + apply (IH _ H). rewrite length_app. cbn [length]. lia.
Qed.

Lemma sys_write_writes f buf f' :
  sys_write f buf = Some f' ->
  length f' = S (length f) /\ write_ok (length f) = true.
Proof.
  unfold sys_write. destruct (write_ok (length f)); [|discriminate].
  intros H. injection H as <-. rewrite length_app. cbn [length]. split; [lia|reflexivity].
Qed.

(** A two-stage step (one write, then a loop of writes) that succeeds
    asked for every block index it covers. *)
Lemma first_then_repeat_writes f buf1 n buf f' :
  match sys_write f buf1 with
  | None => (-1, f)
  | Some f1 => write_repeat n f1 buf
  end = (0, f') ->
  (length f < length f')%nat /\
  forall k, (length f <= k < length f')%nat -> write_ok k = true.
Proof.
  destruct (sys_write f buf1) as [f1|] eqn:E; [|discriminate].
  apply sys_write_writes in E. destruct E as [El Ew]. intros H.
  pose proof (write_repeat_writes _ _ _ _ H) as Hk.
  apply write_repeat_app in H. destruct H as [[_ ->]|[Hr _]]; [|discriminate].
  rewrite length_app in *. split; [lia|]. intros k Hr.
  destruct (Nat.eq_dec k (length f)) as [->|Hne]; [exact Ew|]. apply Hk. lia.
Qed.

Lemma write_bfree_blocks_writes f sb f' over :
  write_bfree_blocks f sb = (0, f', over) ->
  (length f < length f')%nat /\
  forall k, (length f <= k < length f')%nat -> write_ok k = true.
Proof.
  unfold write_bfree_blocks. cbv zeta.
  destruct (fill_used _ _ _ _ _) as [bfree ov].
  intros H. apply (first_then_repeat_writes f (words_bytes bfree)
                     (iterations_from_1 (le32toh host (nr_bfree_blocks sb)))
                     (words_bytes (repeat ones64 WORDS_PER_BLOCK))).
  destruct (sys_write f (words_bytes bfree)) as [f1|]; [|discriminate].
  destruct (write_repeat _ _ _) as [r2 f2]. now injection H as -> -> _.
Qed.

(** Each block of the image was written by a [write] that transferred
    the whole block. *)
Lemma image_blocks_were_written inv :
  exit_code (main inv) = 0 ->
  forall k, (k < length (image (main inv)))%nat -> write_ok k = true.
Proof.
  intros He. destruct (main_success_steps inv He) as [_ Hm]. rewrite Hm in *.
  destruct (format_device_success _ He) as (f1 & f2 & f3 & over & H0 & H1 & H2 & H3 & Hi & _).
  rewrite Hi.
  apply (first_then_repeat_writes _ (root_inode_block _) _ zero_block) in H1.
  apply (first_then_repeat_writes _ _ _ _) in H2.
  apply write_bfree_blocks_writes in H3.
  cbn [length] in H1. destruct H1 as [L1 W1], H2 as [L2 W2], H3 as [L3 W3].
  intros k Hk. destruct (Nat.eq_dec k 0%nat) as [->|Hk0]; [exact H0|].
  destruct (Nat.lt_ge_cases k (length f1)); [apply W1; lia|].
  destruct (Nat.lt_ge_cases k (length f2)); [apply W2; lia|].
  apply W3. lia.
Qed.

Lemma write_repeat_all_ok n f buf :
  (forall k, write_ok k = true) -> write_repeat n f buf = (0, f ++ repeat buf n).
Proof.
  intros Hok. revert f; induction n as [|n IH]; intros f; cbn [write_repeat repeat].
  - now rewrite app_nil_r.
  - unfold sys_write. rewrite Hok, IH, <- app_assoc. reflexivity.
Qed.

(** X5. When every write on the target succeeds, a run that reaches the
    size check with a device larger than 100 blocks, whose used run fits
    the first block of the block bitmap, exits with 0, prints no
    diagnostic and makes no store past the buffer of its fill loop. *)
Theorem format_succeeds_when_writes_do inv :
  (forall k, write_ok k = true) ->
  reaches_size_check inv ->
  inodes_per_block_ok -> device_ok (device_size inv) ->
  used_run (superblock_geometry (device_size inv)) <= BITS_PER_BLOCK ->
  exit_code (main inv) = 0 /\ diag (main inv) = None /\ overrun (main inv) = false.
Proof.
  intros Hok Hr Hipb Hdev Hrun. rewrite (main_accepts inv Hr (proj1 Hdev)).
  assert (He : exit_code (format_device (device_size inv)) = 0).
  { unfold format_device, write_superblock, write_inode_store, write_ifree_blocks,
      write_bfree_blocks, write_data_blocks, sys_write.
    rewrite !Hok, !write_repeat_all_ok by exact Hok.
    cbn [Z.eqb negb]. rewrite Hok. rewrite write_repeat_all_ok by exact Hok.
    cbn [Z.eqb negb]. cbv zeta.
    destruct (fill_used _ _ _ _ _) as [bfree ov]. rewrite Hok.
    rewrite write_repeat_all_ok by exact Hok. reflexivity. }
  split; [exact He|]. split; [now apply format_device_status|].
  destruct (format_device_success _ He) as (f1 & f2 & f3 & over & _ & _ & _ & H3 & _ & Ho).
  rewrite Ho. pose proof (write_bfree_blocks_overrun _ f2 Hipb Hdev) as Hflag.
  rewrite H3 in Hflag. cbn [snd] in Hflag. rewrite Hflag. apply Z.ltb_ge. exact Hrun.
Qed.

(** ** The blocks of the image *)

Lemma ones_words_block : words_bytes (repeat ones64 WORDS_PER_BLOCK) = ones_block.
Proof. unfold words_bytes. destruct host; vm_compute; reflexivity. Qed.

Lemma ifree_first_words_block :
  words_bytes (<[0%nat := htole64 host 0xfffffffffffffffe]> (repeat ones64 WORDS_PER_BLOCK))
  = ifree_first_block.
Proof. unfold words_bytes. destruct host; vm_compute; reflexivity. Qed.

Lemma sb_bytes_length h sb : length (sb_bytes h sb) = Z.to_nat SIMPLEFS_BLOCK_SIZE.
Proof.
  unfold sb_bytes, sb_fields. cbn [flat_map].
  rewrite !length_app, !host_bytes_length, repeat_length. reflexivity.
Qed.

Lemma root_inode_block_length sb :
  length (root_inode_block sb) = Z.to_nat SIMPLEFS_BLOCK_SIZE.
Proof.
  unfold root_inode_block. cbv zeta.
  match goal with |- length (?r ++ _) = _ => set (record := r) end.
  assert (Hl : length record = 40%nat).
  { subst record. unfold inode_layout. cbn [flat_map].
    rewrite !length_app, !host_bytes_length. reflexivity. }
  rewrite length_app, repeat_length, Hl. reflexivity.
Qed.

Lemma fill_used_length (fuel i : nat) nr buf over :
  length (fst (fill_used fuel i nr buf over)) = length buf.
Proof.
  revert i nr buf over. induction fuel as [|fuel IH]; intros i nr buf over;
    cbn [fill_used]; [reflexivity|].
  destruct (nr =? 0); [reflexivity|].
  destruct (fill_line 65 1 ones64 nr) as [line nr']. rewrite IH. apply length_insert.
Qed.

Lemma Forall_repeat_length (b : list Z) (n len : nat) :
  length b = len -> Forall (fun x : list Z => length x = len) (repeat b n).
Proof. intros H. induction n; cbn [repeat]; constructor; assumption. Qed.

(** X6. On a little-endian host, a run of [main] that exits with 0
    leaves an image of exactly 1 + inode-store + inode-bitmap +
    block-bitmap blocks of 4096 bytes each, in that order: the
    superblock, the block with the root inode, zeroed inode blocks, the
    inode bitmap (bit 0 clear in its first block, all ones after), and
    the block bitmap (all ones after its first block). *)
Theorem format_image_layout inv :
  host = LittleEndian -> inodes_per_block_ok ->
  device_size inv / SIMPLEFS_BLOCK_SIZE + SIMPLEFS_INODES_PER_BLOCK <= 2 ^ 32 ->
  exit_code (main inv) = 0 ->
  let g := superblock_geometry (device_size inv) in
  let sb := superblock_info (device_size inv) in
  exists bfree_first,
    image (main inv)
    = sb_bytes host sb
      :: (root_inode_block sb :: repeat zero_block (Z.to_nat (g_nr_istore_blocks g - 1)))
      ++ (ifree_first_block :: repeat ones_block (Z.to_nat (g_nr_ifree_blocks g - 1)))
      ++ (bfree_first :: repeat ones_block (Z.to_nat (g_nr_bfree_blocks g - 1)))
    /\ Z.of_nat (length (image (main inv)))
       = 1 + g_nr_istore_blocks g + g_nr_ifree_blocks g + g_nr_bfree_blocks g
    /\ Forall (fun b => length b = Z.to_nat SIMPLEFS_BLOCK_SIZE) (image (main inv)).
Proof.
  intros Hh Hipb Hfit He. cbv zeta.
  destruct (main_success_steps inv He) as [Hmin Hm]. rewrite Hm in *.
  destruct (format_device_success _ He) as (f1 & f2 & f3 & over & _ & H1 & H2 & H3 & Hi & _).
  pose proof (conj Hmin Hfit) as Hdev.
  destruct (superblock_info_counts _ Hipb Hdev) as (_ & Ca & Cb).
  destruct (geometry_exact _ Hipb Hdev) as (_ & _ & _ & _ & _ & _ & _ & Ps & Pa & Pb).
  cbv zeta in *.
  assert (Cs : nr_istore_blocks (superblock_info (device_size inv))
               = g_nr_istore_blocks (superblock_geometry (device_size inv))).
  { cbn [superblock_info nr_istore_blocks]. rewrite Hh. reflexivity. }
  apply write_inode_store_ok in H1. rewrite Cs in H1.
  apply write_ifree_blocks_app in H2. destruct H2 as [[_ H2]|[Hr _]]; [|discriminate].
  rewrite Ca, ifree_first_words_block, ones_words_block in H2.
  apply write_bfree_blocks_app in H3. cbv zeta in H3.
  destruct H3 as [_ [[_ H3]|[Hr _]]]; [|discriminate].
  rewrite Cb, ones_words_block in H3.
  set (filled := fill_used _ _ _ _ _) in H3.
  exists (words_bytes (fst filled)).
  rewrite Hi, H3, H2, H1. unfold iterations_from_1. cbn [app].
  split; [now rewrite <- !app_assoc|]. split.
  - repeat first [rewrite length_app | rewrite repeat_length | progress cbn [length]].
    lia.
  - assert (Hz : length zero_block = Z.to_nat SIMPLEFS_BLOCK_SIZE) by apply repeat_length.
    assert (Ho : length ones_block = Z.to_nat SIMPLEFS_BLOCK_SIZE) by apply repeat_length.
    assert (Hf : length (words_bytes (fst filled)) = Z.to_nat SIMPLEFS_BLOCK_SIZE).
    { apply block_length_ok. subst filled. rewrite fill_used_length. apply repeat_length. }
    repeat match goal with
           | |- Forall _ (_ ++ _) => apply Forall_app; split
           | |- Forall _ (_ :: _) => constructor
           | |- Forall _ (repeat _ _) => apply Forall_repeat_length
           | |- Forall _ [] => constructor
           end;
      first [apply sb_bytes_length | apply root_inode_block_length | assumption | reflexivity].
Qed.

(** The number of blocks of an image that a run left with status 0. *)
Lemma format_image_length inv :
  host = LittleEndian -> inodes_per_block_ok ->
  device_size inv / SIMPLEFS_BLOCK_SIZE + SIMPLEFS_INODES_PER_BLOCK <= 2 ^ 32 ->
  exit_code (main inv) = 0 ->
  let g := superblock_geometry (device_size inv) in
  Z.of_nat (length (image (main inv)))
  = 1 + g_nr_istore_blocks g + g_nr_ifree_blocks g + g_nr_bfree_blocks g.
Proof.
  intros Hh Hipb Hfit He. cbv zeta.
  destruct (main_success_steps inv He) as [Hmin Hm]. rewrite Hm in *.
  destruct (format_device_success _ He) as (f1 & f2 & f3 & over & _ & H1 & H2 & H3 & Hi & _).
  pose proof (conj Hmin Hfit) as Hdev.
  destruct (superblock_info_counts _ Hipb Hdev) as (_ & Ca & Cb).
  destruct (geometry_exact _ Hipb Hdev) as (_ & _ & _ & _ & _ & _ & _ & Ps & Pa & Pb).
  cbv zeta in *.
  assert (Cs : nr_istore_blocks (superblock_info (device_size inv))
               = g_nr_istore_blocks (superblock_geometry (device_size inv))).
  { cbn [superblock_info nr_istore_blocks]. rewrite Hh. reflexivity. }
  apply write_inode_store_ok in H1. rewrite Cs in H1.
  apply write_ifree_blocks_app in H2. destruct H2 as [[_ H2]|[Hr _]]; [|discriminate].
  rewrite Ca in H2.
  apply write_bfree_blocks_app in H3. cbv zeta in H3.
  destruct H3 as [_ [[_ H3]|[Hr _]]]; [|discriminate].
  rewrite Cb in H3.
  rewrite Hi, H3, H2, H1. unfold iterations_from_1.
  repeat first [rewrite length_app | rewrite repeat_length | progress cbn [length]].
  lia.
Qed.

(** X4. No failed write is ignored.  On a little-endian host, a run of
    [main] that exits with 0 had the target accept the write of every
    one of the 1 + inode-store + inode-bitmap + block-bitmap blocks of
    the metadata: had any of them been refused, the run would not have
    exited with 0. *)
Theorem successful_run_wrote_every_block inv :
  host = LittleEndian -> inodes_per_block_ok ->
  device_size inv / SIMPLEFS_BLOCK_SIZE + SIMPLEFS_INODES_PER_BLOCK <= 2 ^ 32 ->
  exit_code (main inv) = 0 ->
  let g := superblock_geometry (device_size inv) in
  forall k : nat,
    Z.of_nat k < 1 + g_nr_istore_blocks g + g_nr_ifree_blocks g + g_nr_bfree_blocks g ->
    write_ok k = true.
Proof.
  intros Hh Hipb Hfit He. cbv zeta. intros k Hk.
  apply (image_blocks_were_written inv He).
  pose proof (format_image_length inv Hh Hipb Hfit He) as Hl. cbv zeta in Hl. lia.
Qed.

Lemma le_field_layout h (fields data pad : list Z) (k : nat) :
  (k < length fields)%nat ->
  le_field (inode_layout h fields data ++ pad) k
  = le_value (host_bytes h 4 (nth k fields 0)).
Proof.
  intros Hk. unfold le_field, inode_layout. rewrite <- app_assoc.
  now rewrite slice_flat_map_field.
Qed.

Lemma le_value_host_bytes_htole32 h v :
  le_value (host_bytes h 4 (htole32 h v)) = v mod 2 ^ 32.
Proof. rewrite host_bytes_htole32. apply le_value_le_bytes. Qed.

Lemma le_value_host_bytes_zero h : le_value (host_bytes h 4 0) = 0.
Proof. destruct h; reflexivity. Qed.

(** X7. The inode-store block that format writes first starts with the
    root inode, little-endian on any host: a directory of mode 0775,
    owner and group 0, size one block, times 0, one block in use, link
    count 2, and a block pointer equal to the first data block
    1 + block-bitmap + inode-bitmap + inode-store blocks; every byte after
    these forty is zero. *)
Theorem root_inode_record size :
  inodes_per_block_ok -> device_ok size ->
  let g := superblock_geometry size in
  let b := root_inode_block (superblock_info size) in
  map (le_field b) (seq 0 10)
  = [16893; 0; 0; 4096; 0; 0; 0; 1; 2;
     1 + g_nr_bfree_blocks g + g_nr_ifree_blocks g + g_nr_istore_blocks g] /\
  drop 40 b = repeat 0 4056.
Proof.
  intros Hipb Hdev. cbv zeta.
  destruct (superblock_info_counts size Hipb Hdev) as (Cs & Ca & Cb).
  destruct (geometry_exact size Hipb Hdev) as (_ & _ & _ & _ & _ & _ & Hrun & Ps & Pa & Pb).
  cbv zeta in *. destruct Hdev as [Hmin Hfit]. unfold used_run in Hrun.
  unfold inodes_per_block_ok, SIMPLEFS_BLOCK_SIZE in *.
  assert (size / 4096 < 2 ^ 32) by lia.
  unfold root_inode_block. cbv zeta. rewrite Cs, Ca, Cb. split.
  - cbn [map seq]. rewrite !le_field_layout by (cbn [length]; lia). cbn [nth].
    rewrite !le_value_host_bytes_htole32, !le_value_host_bytes_zero.
    rewrite u32_small by lia.
    repeat f_equal; try reflexivity; apply Z.mod_small; lia.
  - unfold inode_layout. cbn [flat_map]. rewrite !app_nil_r.
    match goal with |- drop 40 (?l ++ _) = _ =>
      assert (Hl : length l = 40%nat)
        by (rewrite !length_app, !host_bytes_length; reflexivity) end.
    rewrite drop_app_length' by (symmetry; exact Hl). rewrite Hl. reflexivity.
Qed.

(** ** Free bits against the free counters *)

Lemma count_free_threshold bm (n : nat) c :
  0 <= c ->
  (forall k, 0 <= k < Z.of_nat n -> bitmap_test bm k = (c <=? k)) ->
  count_free bm n = Z.max 0 (Z.of_nat n - c).
Proof.
  intros Hc. induction n as [|n IH]; intros Hbits; cbn [count_free]; [lia|].
  rewrite IH by (intros k Hk; apply Hbits; lia).
  rewrite Hbits by lia. destruct (Z.leb_spec c (Z.of_nat n)); lia.
Qed.

(** X8. After format, the free bits among the [nr_inodes] logical bits
    of the inode bitmap are [nr_inodes - 1] in number, which is the
    free-inode counter that [write_superblock] stores. *)
Theorem inode_bitmap_matches_counter size f f' :
  inodes_per_block_ok -> device_ok size ->
  write_ifree_blocks f (superblock_info size) = (0, f') ->
  let g := superblock_geometry size in
  count_free (concat (appended f f')) (Z.to_nat (g_nr_inodes g)) = g_nr_inodes g - 1 /\
  nr_free_inodes (superblock_record size) = g_nr_inodes g - 1.
Proof.
  intros Hipb Hdev Hw. cbv zeta.
  destruct (geometry_exact size Hipb Hdev) as (H1 & H2 & _ & H4 & _).
  cbv zeta in *. pose proof Hdev as [Hmin Hfit].
  unfold inodes_per_block_ok, SIMPLEFS_BLOCK_SIZE in *.
  assert (100 <= size / 4096) by (apply Z.div_le_lower_bound; lia).
  split.
  - rewrite (count_free_threshold _ _ 1) by
      (try lia; intros k Hk; apply (ifree_region_bits size f f' k Hipb Hdev Hw); lia).
    lia.
  - cbn [superblock_record nr_free_inodes]. apply u32_small. lia.
Qed.

(** X9. After format (the used run within the first bitmap block), the
    free bits among the [nr_blocks] logical bits of the block bitmap are
    [nr_blocks - inode-store - inode-bitmap - block-bitmap - 2] in
    number; the free-block counter that [write_superblock] stores is one
    more than that. *)
Theorem block_bitmap_one_below_counter size f f' over :
  inodes_per_block_ok -> device_ok size ->
  used_run (superblock_geometry size) <= BITS_PER_BLOCK ->
  write_bfree_blocks f (superblock_info size) = (0, f', over) ->
  let g := superblock_geometry size in
  count_free (concat (appended f f')) (Z.to_nat (g_nr_blocks g))
  = g_nr_blocks g - g_nr_istore_blocks g - g_nr_ifree_blocks g - g_nr_bfree_blocks g - 2 /\
  nr_free_blocks (superblock_record size)
  = count_free (concat (appended f f')) (Z.to_nat (g_nr_blocks g)) + 1.
Proof.
  intros Hipb Hdev Hrun Hw. cbv zeta.
  destruct (geometry_exact size Hipb Hdev) as (H1 & _ & _ & _ & H5 & H6 & H7 & Ps & Pa & Pb).
  cbv zeta in *. pose proof Hdev as [Hmin Hfit].
  unfold inodes_per_block_ok, SIMPLEFS_BLOCK_SIZE in *.
  assert (100 <= size / 4096) by (apply Z.div_le_lower_bound; lia).
  assert (Hc : count_free (concat (appended f f'))
                 (Z.to_nat (g_nr_blocks (superblock_geometry size)))
               = g_nr_blocks (superblock_geometry size)
                 - used_run (superblock_geometry size)).
  { rewrite (count_free_threshold _ _ (used_run (superblock_geometry size))).
    - unfold used_run in *. lia.
    - unfold used_run. lia.
    - intros k Hk.
      apply (bfree_region_bits size f f' over k Hipb Hdev Hrun Hw). lia. }
  rewrite Hc. unfold used_run in *. split; [lia|].
  cbn [superblock_record nr_free_blocks]. rewrite H6, u32_small by lia. lia.
Qed.


(** ** The first write that fails *)

Lemma write_repeat_until n : forall f buf (k : nat),
  (forall j, (j < k)%nat -> write_ok j = true) -> write_ok k = false ->
  (length f <= k)%nat ->
  write_repeat n f buf
  = if (k <? length f + n)%nat then (-1, f ++ repeat buf (k - length f))
    else (0, f ++ repeat buf n).
Proof.
  induction n as [|n IH]; intros f buf k Hok Hk Hl; cbn [write_repeat].
  - destruct (Nat.ltb_spec k (length f + 0)); [lia|]. now rewrite app_nil_r.
  - unfold sys_write. destruct (Nat.eq_dec (length f) k) as [E|E].
    + rewrite E, Hk. destruct (Nat.ltb_spec k (k + S n)); [|lia].
      rewrite Nat.sub_diag. now rewrite app_nil_r.
    + rewrite Hok by lia. rewrite (IH _ _ k Hok Hk) by (rewrite length_app; cbn [length]; lia).
      rewrite length_app. cbn [length].
      destruct (Nat.ltb_spec k (length f + 1 + n)), (Nat.ltb_spec k (length f + S n));
        try lia; rewrite <- app_assoc; cbn [app]; [|reflexivity].
      replace (k - length f)%nat with (S (k - (length f + 1))) by lia. reflexivity.
Qed.

(** A two-stage step (one write, then a loop of writes) under a first
    failing write at index [k]: it either stops with [k] blocks on the
    target or completes below [k]. *)
Lemma first_then_repeat_until f buf1 n buf (k : nat) r f' :
  (forall j, (j < k)%nat -> write_ok j = true) -> write_ok k = false ->
  (length f <= k)%nat ->
  match sys_write f buf1 with
  | None => (-1, f)
  | Some f1 => write_repeat n f1 buf
  end = (r, f') ->
  (r = -1 /\ length f' = k /\ (k < length f + S n)%nat)
  \/ (r = 0 /\ length f' = (length f + S n)%nat /\ (length f + S n <= k)%nat).
Proof.
  intros Hok Hk Hl. unfold sys_write. destruct (Nat.eq_dec (length f) k) as [E|E].
  - rewrite E, Hk. intros H. injection H as <- <-. left. split; [reflexivity|]. lia.
  - rewrite Hok by lia.
    rewrite (write_repeat_until _ _ _ k Hok Hk) by (rewrite length_app; cbn [length]; lia).
    rewrite length_app. cbn [length].
    destruct (Nat.ltb_spec k (length f + 1 + n)); intros Hr; injection Hr as <- <-.
    + left. split; [reflexivity|]. rewrite !length_app, repeat_length. cbn [length]. lia.
    + right. split; [reflexivity|]. rewrite !length_app, repeat_length. cbn [length]. lia.
Qed.

Lemma write_bfree_blocks_step f sb r f' over :
  write_bfree_blocks f sb = (r, f', over) ->
  exists buf1,
    match sys_write f buf1 with
    | None => (-1, f)
    | Some f1 =>
        write_repeat (iterations_from_1 (le32toh host (nr_bfree_blocks sb))) f1
          (words_bytes (repeat ones64 WORDS_PER_BLOCK))
    end = (r, f').
Proof.
  unfold write_bfree_blocks. cbv zeta.
  destruct (fill_used _ _ _ _ _) as [bfree ov]. intros H. exists (words_bytes bfree).
  destruct (sys_write f (words_bytes bfree)) as [f1|]; [|now injection H as <- <- _].
  destruct (write_repeat _ _ _) as [r2 f2]. now injection H as <- <- _.
Qed.

(** X10. Where a run stops.  On a little-endian host, for a device
    whose used run fits the first block of the block bitmap (so that the
    fill loop makes no store past its buffer), let the write at block
    index [k] be the first one that the target refuses.  If [k] lies
    within the 1 + inode-store + inode-bitmap + block-bitmap blocks of
    the metadata, [main] exits with [EXIT_FAILURE], leaves exactly the
    [k] blocks written before, and names the step that failed: the
    superblock for [k = 0], then the inode store, the inode bitmap, the
    block bitmap.  If [k] lies beyond them, the run exits with 0. *)
Theorem first_failed_write_stops_format inv (k : nat) :
  host = LittleEndian -> inodes_per_block_ok ->
  reaches_size_check inv -> device_ok (device_size inv) ->
  used_run (superblock_geometry (device_size inv)) <= BITS_PER_BLOCK ->
  (forall j, (j < k)%nat -> write_ok j = true) -> write_ok k = false ->
  let g := superblock_geometry (device_size inv) in
  let I := g_nr_istore_blocks g in
  let A := g_nr_ifree_blocks g in
  let B := g_nr_bfree_blocks g in
  overrun (main inv) = false /\
  (Z.of_nat k < 1 + I + A + B ->
   exit_code (main inv) = EXIT_FAILURE /\
   length (image (main inv)) = k /\
   diag (main inv)
   = Some (if Z.of_nat k =? 0 then SuperblockFailed
           else if Z.of_nat k <=? I then InodeStoreFailed
           else if Z.of_nat k <=? I + A then IfreeFailed
           else BfreeFailed)) /\
  (1 + I + A + B <= Z.of_nat k -> exit_code (main inv) = 0).
Proof.
  intros Hh Hipb Hreach Hdev Hrun Hok Hk. cbv zeta.
  rewrite (main_accepts inv Hreach (proj1 Hdev)).
  destruct (superblock_info_counts _ Hipb Hdev) as (_ & Ca & Cb).
  destruct (geometry_exact _ Hipb Hdev) as (_ & _ & _ & _ & _ & _ & _ & Ps & Pa & Pb).
  cbv zeta in *.
  assert (Cs : nr_istore_blocks (superblock_info (device_size inv))
               = g_nr_istore_blocks (superblock_geometry (device_size inv))).
  { cbn [superblock_info nr_istore_blocks]. rewrite Hh. reflexivity. }
  assert (Hflag : forall f, snd (write_bfree_blocks f (superblock_info (device_size inv)))
                            = false).
  { intros f. rewrite (write_bfree_blocks_overrun _ f Hipb Hdev). apply Z.ltb_ge. exact Hrun. }
  clear Hrun.
  set (I := g_nr_istore_blocks (superblock_geometry (device_size inv))) in *.
  set (A := g_nr_ifree_blocks (superblock_geometry (device_size inv))) in *.
  set (B := g_nr_bfree_blocks (superblock_geometry (device_size inv))) in *.
  unfold format_device, write_data_blocks.
  destruct (write_superblock [] (device_size inv)) as [[sb|] f0] eqn:E0.
  2: { assert (k = 0%nat) as ->.
       { destruct k as [|k]; [reflexivity|]. unfold write_superblock, sys_write in E0.
         cbn [length] in E0. rewrite Hok in E0 by lia. discriminate E0. }
       apply write_superblock_None in E0. subst f0. cbn [exit_code image diag overrun length].
       split; [reflexivity|]. split; [intros _; auto|]. intros Hge. lia. }
  assert (Hk0 : k <> 0%nat).
  { intros ->. unfold write_superblock, sys_write in E0. cbn [length] in E0.
    rewrite Hk in E0. discriminate E0. }
  apply write_superblock_Some in E0. destruct E0 as [-> ->]. cbn [app].
  destruct (Z.eqb_spec (Z.of_nat k) 0) as [|_]; [lia|].
  destruct (write_inode_store _ _) as [r1 f1] eqn:E1.
  unfold write_inode_store in E1.
  apply (first_then_repeat_until _ _ _ _ k _ _ Hok Hk) in E1; [|cbn [length]; lia].
  rewrite Cs in E1. unfold iterations_from_1 in E1. cbn [length] in E1.
  destruct E1 as [(-> & L1 & K1)|(-> & L1 & K1)]; cbn [Z.eqb negb].
  { cbn [exit_code image diag overrun]. destruct (Z.leb_spec (Z.of_nat k) I); [|lia].
    split; [reflexivity|]. split; [intros _; auto|]. intros Hge. lia. }
  destruct (Z.leb_spec (Z.of_nat k) I); [lia|].
  destruct (write_ifree_blocks _ _) as [r2 f2] eqn:E2.
  unfold write_ifree_blocks in E2. cbv zeta in E2.
  apply (first_then_repeat_until _ _ _ _ k _ _ Hok Hk) in E2; [|lia].
  rewrite Ca in E2. unfold iterations_from_1 in E2.
  destruct E2 as [(-> & L2 & K2)|(-> & L2 & K2)]; cbn [Z.eqb negb].
  { cbn [exit_code image diag overrun]. destruct (Z.leb_spec (Z.of_nat k) (I + A)); [|lia].
    split; [reflexivity|]. split; [intros _; auto|]. intros Hge. lia. }
  destruct (Z.leb_spec (Z.of_nat k) (I + A)); [lia|].
  specialize (Hflag f2).
  destruct (write_bfree_blocks _ _) as [[r3 f3] ov] eqn:E3.
  cbn [snd] in Hflag. subst ov.
  apply write_bfree_blocks_step in E3. destruct E3 as [buf1 E3].
  apply (first_then_repeat_until _ _ _ _ k _ _ Hok Hk) in E3; [|lia].
  rewrite Cb in E3. unfold iterations_from_1 in E3.
  destruct E3 as [(-> & L3 & K3)|(-> & L3 & K3)];
    cbn [Z.eqb negb exit_code image diag overrun].
  - split; [reflexivity|]. split; [intros _; auto|]. intros Hge. lia.
  - split; [reflexivity|]. split; [intros Hlt; lia|reflexivity].
Qed.

(** * Further properties of the kernel paths *)

(** ** Inode write-back within range *)

Lemma strncpy_length n src : length (strncpy n src) = n.
Proof.
  revert src. induction n as [|n IH]; intros src; cbn [strncpy]; [reflexivity|].
  destruct src as [|c r]; [cbn [length]; now rewrite IH|].
  destruct (c =? 0); cbn [length]; now rewrite IH.
Qed.

Lemma strncpy_nil n : strncpy n [] = repeat 0 n.
Proof. induction n as [|n IH]; cbn [strncpy repeat]; [reflexivity|]. now rewrite IH. Qed.

(** [strncpy] keeps the bytes before the first NUL (or before the end of
    the source, or the first [n] bytes) and fills the rest with NULs. *)
Lemma strncpy_first_nul n (src : list Z) (p : nat) :
  (p <= n)%nat -> (p <= length src)%nat ->
  Forall (fun c => c <> 0) (take p src) ->
  (p = n \/ nth p src 0 = 0) ->
  strncpy n src = take p src ++ repeat 0 (n - p).
Proof.
  revert src p. induction n as [|n IH]; intros src p Hp Hl Hnz Hend.
  - assert (p = 0%nat) by lia. subst p. reflexivity.
  - destruct p as [|p].
    + cbn [take firstn app]. destruct Hend as [Hend|Hend]; [discriminate|].
      cbn [strncpy]. destruct src as [|c r]; cbn [nth] in Hend.
      * now rewrite strncpy_nil.
      * subst c. cbn [Z.eqb]. now rewrite strncpy_nil.
    + destruct src as [|c r]; [cbn [length] in Hl; lia|].
      cbn [take firstn] in Hnz. apply Forall_cons in Hnz. destruct Hnz as [Hc Hnz].
      cbn [strncpy]. destruct (Z.eqb_spec c 0) as [->|_]; [contradiction|].
      cbn [take firstn app]. f_equal.
      apply IH; [lia|cbn [length] in Hl; lia|exact Hnz|].
      destruct Hend as [Hend|Hend]; [left; lia|right; exact Hend].
Qed.

Lemma disk_inode_bytes_length inode : length (disk_inode_bytes inode) = inode_record_size.
Proof.
  unfold disk_inode_bytes, inode_layout, inode_record_size. cbn [flat_map].
  rewrite !length_app, !host_bytes_length, strncpy_length. reflexivity.
Qed.

(** X11. For an inode number within the inode count whose inode block
    can be read, [simplefs_write_inode] returns 0 and changes that block
    only, and in it only the record of the inode: the record's bytes are
    the inode's fields, every byte before and after it is as it was.
    The block is read, marked dirty, synced and released. *)
Theorem write_inode_in_range inode m s (b : list Z) :
  let ino := u32 (i_ino inode) in
  let inode_block := u32 (ino / SIMPLEFS_INODES_PER_BLOCK + 1) in
  let off := (Z.to_nat (u32 (ino mod SIMPLEFS_INODES_PER_BLOCK)) * inode_record_size)%nat in
  ino < nr_inodes (sbi m) ->
  kdisk s !! Z.to_nat inode_block = Some b ->
  (off + inode_record_size <= length b)%nat ->
  exists s' b',
    simplefs_write_inode inode m s = (0, s') /\
    kdisk s' = <[Z.to_nat inode_block := b']> (kdisk s) /\
    length b' = length b /\
    take off b' = take off b /\
    slice off inode_record_size b' = disk_inode_bytes inode /\
    drop (off + inode_record_size) b' = drop (off + inode_record_size) b /\
    klog s' = K_brelse :: K_sync inode_block :: K_dirty inode_block
              :: K_bread inode_block :: klog s.
Proof.
  intros ino inode_block off Hino Hb Hlen.
  unfold simplefs_write_inode. fold ino. fold inode_block. fold off.
  destruct (Z.leb_spec (nr_inodes (sbi m)) ino); [lia|].
  unfold sb_bread. destruct (Z.ltb_spec inode_block 0) as [Hneg|_].
  { subst inode_block. pose proof (u32_range (ino / SIMPLEFS_INODES_PER_BLOCK + 1)). lia. }
  rewrite Hb.
  pose proof (disk_inode_bytes_length inode) as Hrec.
  eexists. exists (memcpy_at b off (disk_inode_bytes inode)).
  split; [reflexivity|]. cbn [kdisk klog klog_add bh_write].
  split; [reflexivity|]. unfold memcpy_at. rewrite Hrec.
  split; [rewrite !length_app, length_take, length_drop, Hrec; lia|].
  split; [rewrite take_app_length' by (rewrite length_take; lia); reflexivity|].
  split.
  - unfold slice. rewrite drop_app_length' by (rewrite length_take; lia).
    rewrite take_app_length' by (symmetry; exact Hrec). reflexivity.
  - split; [|reflexivity].
    rewrite app_assoc. rewrite drop_app_length'; [reflexivity|].
    rewrite length_app, length_take, Hrec. lia.
Qed.

(** X12. When the inode block cannot be read, [simplefs_write_inode]
    returns -EIO and leaves the device as it is: the failed read is all
    that happened. *)
Theorem write_inode_read_failure inode m s :
  let ino := u32 (i_ino inode) in
  let inode_block := u32 (ino / SIMPLEFS_INODES_PER_BLOCK + 1) in
  ino < nr_inodes (sbi m) ->
  kdisk s !! Z.to_nat inode_block = None ->
  simplefs_write_inode inode m s
  = (- EIO, mk_kstate (kdisk s) (K_bread inode_block :: klog s)).
Proof.
  intros ino inode_block Hino Hb.
  unfold simplefs_write_inode. fold ino. fold inode_block.
  destruct (Z.leb_spec (nr_inodes (sbi m)) ino); [lia|].
  unfold sb_bread. rewrite Hb. destruct (inode_block <? 0); reflexivity.
Qed.

(** X13. The record that [simplefs_write_inode] stores holds the inode's
    ten numeric fields in host order, each reduced modulo 2^32, and then
    the inline data up to its first NUL byte, zero-filled from there to
    the end of the record: bytes of [i_data] after a NUL are not
    stored. *)
Theorem disk_inode_record inode (p : nat) :
  (p <= I_DATA_SIZE)%nat -> (p <= length (i_data inode))%nat ->
  Forall (fun c => c <> 0) (take p (i_data inode)) ->
  (p = I_DATA_SIZE \/ nth p (i_data inode) 0 = 0) ->
  map (fun k => host_value host (slice (4 * k) 4 (disk_inode_bytes inode))) (seq 0 10)
  = [u32 (i_mode inode); u32 (i_uid inode); u32 (i_gid inode); u32 (i_size inode);
     u32 (i_ctime inode); u32 (i_atime inode); u32 (i_mtime inode);
     u32 (i_blocks inode); u32 (i_nlink inode); u32 (ei_block inode)] /\
  drop 40 (disk_inode_bytes inode)
  = take p (i_data inode) ++ repeat 0 (I_DATA_SIZE - p).
Proof.
  intros Hp Hl Hnz Hend. unfold disk_inode_bytes. split.
  - cbn [map seq]. unfold inode_layout.
    rewrite !slice_flat_map_field by (cbn [length]; lia). cbn [nth].
    rewrite !host_value_host_bytes. change (256 ^ Z.of_nat 4) with (2 ^ 32).
    unfold u32. now rewrite !Z.mod_mod by lia.
  - unfold inode_layout. cbn [flat_map]. rewrite !app_nil_r.
    match goal with |- drop 40 (?l ++ _) = _ =>
      assert (Hl40 : length l = 40%nat)
        by (rewrite !length_app, !host_bytes_length; reflexivity) end.
    rewrite drop_app_length' by (symmetry; exact Hl40).
    now apply strncpy_first_nul.
Qed.

(** ** The sync engine: failures, frame and the wait flag *)

Lemma sb_bread_missing s idx :
  Z.of_nat (length (kdisk s)) <= idx ->
  sb_bread s idx = (None, klog_add (K_bread idx) s).
Proof.
  intros Hi. unfold sb_bread. destruct (idx <? 0); [reflexivity|].
  rewrite lookup_ge_None_2 by lia. reflexivity.
Qed.

(** One run of a flush loop: the return value, the blocks it leaves
    alone, and the new contents of each block it stores. *)
Lemma flush_bitmap_run (n : nat) : forall i first bm wait s,
  0 <= first -> 0 <= i -> first + i + Z.of_nat n + 1 <= 2 ^ 31 ->
  let r := flush_bitmap n i first bm wait s in
  length (kdisk (snd r)) = length (kdisk s) /\
  (forall j : nat,
     Z.of_nat j < first + i + 1 \/ first + i + Z.of_nat n + 1 <= Z.of_nat j ->
     kdisk (snd r) !! j = kdisk s !! j) /\
  (n = 0%nat \/ first + i + Z.of_nat n < Z.of_nat (length (kdisk s)) -> fst r = 0) /\
  (n <> 0%nat -> Z.of_nat (length (kdisk s)) <= first + i + Z.of_nat n -> fst r = - EIO) /\
  (fst r = 0 -> forall t b, i <= t < i + Z.of_nat n ->
     kdisk s !! Z.to_nat (first + t + 1) = Some b ->
     kdisk (snd r) !! Z.to_nat (first + t + 1)
     = Some (memcpy_at b 0 (slice (Z.to_nat (t * SIMPLEFS_BLOCK_SIZE))
                              (Z.to_nat SIMPLEFS_BLOCK_SIZE) bm))).
Proof.
  induction n as [|n IH]; intros i first bm wait s Hf Hi Hint; cbv zeta.
  - cbn [flush_bitmap fst snd]. repeat split; try reflexivity; lia.
  - cbn [flush_bitmap]. rewrite to_int_small by lia.
    destruct (Z.lt_ge_cases (first + i + 1) (Z.of_nat (length (kdisk s)))) as [Hin|Hout].
    + destruct (sb_bread_in_range s (first + i + 1) ltac:(lia)) as (b & Hb & ->).
      set (src := slice (Z.to_nat (i * SIMPLEFS_BLOCK_SIZE)) (Z.to_nat SIMPLEFS_BLOCK_SIZE) bm).
      set (s2 := release_dirty _ wait _).
      assert (Hd2 : kdisk s2 = <[Z.to_nat (first + i + 1) := memcpy_at b 0 src]> (kdisk s)).
      { subst s2. rewrite kdisk_release_dirty. reflexivity. }
      destruct (IH (i + 1) first bm wait s2 Hf ltac:(lia) ltac:(lia))
        as (Hlen & Hother & Hok & Herr & Hdone).
      rewrite Hd2, length_insert in Hlen, Hok, Herr.
      split; [exact Hlen|]. split; [|split; [|split]].
      * intros j Hj. rewrite Hother by lia. rewrite Hd2.
        apply list_lookup_insert_ne. lia.
      * intros [Hn|Hn]; [discriminate|]. apply Hok. right. lia.
      * intros _ Hn. apply Herr; [|lia]. intros ->. lia.
      * intros Hr t bt Ht Hbt. destruct (Z.eq_dec t i) as [->|Hne].
        -- rewrite Hother by lia. rewrite Hd2. rewrite Hbt in Hb. injection Hb as ->.
           apply list_lookup_insert_eq. apply lookup_lt_Some in Hbt. exact Hbt.
        -- apply (Hdone Hr); [lia|]. rewrite Hd2.
           rewrite list_lookup_insert_ne by lia. exact Hbt.
    + rewrite sb_bread_missing by lia. cbn [fst snd klog_add kdisk].
      split; [reflexivity|]. split; [reflexivity|]. split; [|split].
      * intros [Hn|Hn]; [discriminate|lia].
      * reflexivity.
      * unfold EIO. discriminate.
Qed.

(** The wait flag reaches the log only. *)
Lemma flush_bitmap_wait (n : nat) : forall i first bm w1 w2 s1 s2,
  kdisk s1 = kdisk s2 ->
  fst (flush_bitmap n i first bm w1 s1) = fst (flush_bitmap n i first bm w2 s2) /\
  kdisk (snd (flush_bitmap n i first bm w1 s1))
  = kdisk (snd (flush_bitmap n i first bm w2 s2)).
Proof.
  induction n as [|n IH]; intros i first bm w1 w2 s1 s2 Hd; cbn [flush_bitmap].
  - split; [reflexivity|exact Hd].
  - unfold sb_bread. rewrite Hd.
    destruct (if to_int (first + i + 1) <? 0 then None
              else kdisk s2 !! Z.to_nat (to_int (first + i + 1))) as [b|].
    + apply IH. rewrite !kdisk_release_dirty. cbn [bh_write klog_add kdisk]. now rewrite Hd.
    + split; [reflexivity|exact Hd].
Qed.

Lemma count_events_cons p e l :
  count_events p (e :: l) = ((if p e then 1 else 0) + count_events p l)%nat.
Proof. unfold count_events. cbn [List.filter]. destruct (p e); reflexivity. Qed.

Lemma release_dirty_syncs idx wait s :
  count_events is_ksync (klog (release_dirty idx wait s))
  = ((if (wait =? 0)%Z then 0 else 1) + count_events is_ksync (klog s))%nat.
Proof.
  unfold release_dirty. destruct (wait =? 0); cbn [negb klog_add klog];
    rewrite !count_events_cons; reflexivity.
Qed.

Lemma flush_bitmap_syncs (n : nat) : forall i first bm wait s,
  (wait = 0 ->
   count_events is_ksync (klog (snd (flush_bitmap n i first bm wait s)))
   = count_events is_ksync (klog s)) /\
  (fst (flush_bitmap n i first bm wait s) = 0 ->
   count_events is_ksync (klog (snd (flush_bitmap n i first bm wait s)))
   = ((if (wait =? 0)%Z then 0 else n) + count_events is_ksync (klog s))%nat).
Proof.
  induction n as [|n IH]; intros i first bm wait s; cbn [flush_bitmap].
  - cbn [fst snd]. destruct (wait =? 0); split; auto.
  - unfold sb_bread.
    destruct (if to_int (first + i + 1) <? 0 then None
              else kdisk s !! Z.to_nat (to_int (first + i + 1))) as [b|].
    + destruct (IH (i + 1) first bm wait
                  (release_dirty (to_int (first + i + 1)) wait
                     (bh_write (klog_add (K_bread (to_int (first + i + 1))) s)
                        (to_int (first + i + 1))
                        (memcpy_at b 0
                           (slice (Z.to_nat (i * SIMPLEFS_BLOCK_SIZE))
                              (Z.to_nat SIMPLEFS_BLOCK_SIZE) bm))))) as [Hz Heq].
      rewrite release_dirty_syncs in Hz, Heq. cbn [bh_write klog_add klog] in Hz, Heq.
      rewrite count_events_cons in Hz, Heq. cbn [is_ksync] in Hz, Heq.
      split.
      * intros ->. rewrite (Hz eq_refl). reflexivity.
      * intros Hr. rewrite (Heq Hr). destruct (wait =? 0); lia.
    + cbn [fst snd klog_add klog]. rewrite count_events_cons. cbn [is_ksync].
      split; [reflexivity|]. unfold EIO. discriminate.
Qed.

Lemma memcpy_at_0_twice (b src : list Z) :
  memcpy_at (memcpy_at b 0 src) 0 src = memcpy_at b 0 src.
Proof.
  unfold memcpy_at. rewrite !take_0. cbn [app Nat.add]. f_equal.
  now rewrite drop_app_length.
Qed.

Lemma sync_sb_block_parts (b : block) info :
  (4 <= length b)%nat ->
  length (sync_sb_block b info) = Nat.max 32 (length b) /\
  take 4 (sync_sb_block b info) = take 4 b /\
  drop 32 (sync_sb_block b info) = drop 32 b /\
  sync_sb_block (sync_sb_block b info) info = sync_sb_block b info.
Proof.
  intros Hl. unfold sync_sb_block, memcpy_at.
  set (src := flat_map (host_bytes host 4) _).
  assert (Hs : length src = 28%nat).
  { subst src. cbn [flat_map]. rewrite !length_app, !host_bytes_length. reflexivity. }
  rewrite Hs. change (4 + 28)%nat with 32%nat.
  assert (H4 : length (take 4 b) = 4%nat) by (rewrite length_take; lia).
  assert (Htk : take 4 (take 4 b ++ src ++ drop 32 b) = take 4 b)
    by (apply take_app_length'; symmetry; exact H4).
  assert (Hdr : drop 32 (take 4 b ++ src ++ drop 32 b) = drop 32 b).
  { rewrite app_assoc. apply drop_app_length'. rewrite length_app, H4, Hs. reflexivity. }
  split; [rewrite !length_app, H4, Hs, length_drop; lia|].
  split; [exact Htk|]. split; [exact Hdr|]. now rewrite Htk, Hdr.
Qed.

(** The device after a sync that finds every block it addresses. *)
Lemma sync_fs_blocks m wait s :
  mirror_fits m s ->
  let I := nr_istore_blocks (sbi m) in
  let A := nr_ifree_blocks (sbi m) in
  let B := nr_bfree_blocks (sbi m) in
  exists s',
    simplefs_sync_fs m wait s = (0, s') /\
    length (kdisk s') = length (kdisk s) /\
    (forall b0, kdisk s !! 0%nat = Some b0 ->
       kdisk s' !! 0%nat = Some (sync_sb_block b0 (sbi m))) /\
    (forall t b, 0 <= t < A -> kdisk s !! Z.to_nat (I + t + 1) = Some b ->
       kdisk s' !! Z.to_nat (I + t + 1)
       = Some (memcpy_at b 0 (slice (Z.to_nat (t * SIMPLEFS_BLOCK_SIZE))
                                (Z.to_nat SIMPLEFS_BLOCK_SIZE) (ifree_bitmap m)))) /\
    (forall t b, 0 <= t < B -> kdisk s !! Z.to_nat (I + A + t + 1) = Some b ->
       kdisk s' !! Z.to_nat (I + A + t + 1)
       = Some (memcpy_at b 0 (slice (Z.to_nat (t * SIMPLEFS_BLOCK_SIZE))
                                (Z.to_nat SIMPLEFS_BLOCK_SIZE) (bfree_bitmap m)))) /\
    (forall j : nat,
       1 <= Z.of_nat j <= I \/ 1 + I + A + B <= Z.of_nat j ->
       kdisk s' !! j = kdisk s !! j).
Proof.
  intros (Hr & Hdisk & Hint & Hsa & Hsb & Hla & Hlb). cbv zeta in *.
  destruct (sb_in_range_fields _ Hr) as (HI & HA & HB).
  set (I := nr_istore_blocks (sbi m)) in *.
  set (A := nr_ifree_blocks (sbi m)) in *.
  set (B := nr_bfree_blocks (sbi m)) in *.
  unfold simplefs_sync_fs.
  destruct (sb_bread_in_range s 0 ltac:(lia)) as (b & Hb & ->).
  change (Z.to_nat 0) with 0%nat in Hb.
  set (s1 := release_dirty 0 wait _).
  assert (Hd1 : kdisk s1 = <[0%nat := sync_sb_block b (sbi m)]> (kdisk s)).
  { subst s1. rewrite kdisk_release_dirty. reflexivity. }
  fold I A B.
  destruct (flush_bitmap_run (Z.to_nat A) 0 I (ifree_bitmap m) wait s1
              ltac:(lia) ltac:(lia) ltac:(lia)) as (Hlen2 & Hother2 & Hok2 & _ & Hdone2).
  rewrite Hd1, length_insert in Hlen2, Hok2.
  specialize (Hok2 ltac:(right; lia)).
  destruct (flush_bitmap _ _ _ _ _ s1) as [r2 s2]. cbn [fst snd] in *. subst r2.
  destruct (flush_bitmap_run (Z.to_nat B) 0 (I + A) (bfree_bitmap m) wait s2
              ltac:(lia) ltac:(lia) ltac:(lia)) as (Hlen3 & Hother3 & Hok3 & _ & Hdone3).
  rewrite Hlen2 in Hlen3, Hok3.
  specialize (Hok3 ltac:(right; lia)).
  destruct (flush_bitmap _ _ _ _ _ s2) as [r3 s3]. cbn [fst snd] in *. subst r3.
  exists s3. split; [reflexivity|]. split; [exact Hlen3|].
  split; [|split; [|split]].
  - intros b0 Hb0. rewrite Hb0 in Hb. injection Hb as <-.
    rewrite Hother3 by lia. rewrite Hother2 by lia. rewrite Hd1.
    apply list_lookup_insert_eq. lia.
  - intros t bt Ht Hbt. rewrite Hother3 by lia.
    apply (Hdone2 eq_refl); [lia|]. rewrite Hd1.
    rewrite list_lookup_insert_ne by lia. exact Hbt.
  - intros t bt Ht Hbt. apply (Hdone3 eq_refl); [lia|].
    rewrite Hother2 by lia. rewrite Hd1.
    rewrite list_lookup_insert_ne by lia. exact Hbt.
  - intros j Hj. rewrite Hother3 by lia. rewrite Hother2 by lia. rewrite Hd1.
    apply list_lookup_insert_ne. lia.
Qed.

(** X14. With 32-bit counters that describe at most 2^31 blocks,
    [simplefs_sync_fs] returns 0 or -EIO, and it returns 0 exactly when
    the device has block 0 and, if there is any bitmap block, the last
    bitmap block (hence every block before it).  The number of blocks of
    the device never changes. *)
Theorem sync_fs_return_value m wait s :
  sb_in_range (sbi m) ->
  1 + nr_istore_blocks (sbi m) + nr_ifree_blocks (sbi m) + nr_bfree_blocks (sbi m) <= 2 ^ 31 ->
  let r := simplefs_sync_fs m wait s in
  let last := nr_istore_blocks (sbi m) + nr_ifree_blocks (sbi m) + nr_bfree_blocks (sbi m) in
  (fst r = 0 \/ fst r = - EIO) /\
  (fst r = 0 <->
   (0 < length (kdisk s))%nat /\
   (0 < nr_ifree_blocks (sbi m) + nr_bfree_blocks (sbi m) ->
    last < Z.of_nat (length (kdisk s)))) /\
  length (kdisk (snd r)) = length (kdisk s).
Proof.
  intros Hr Hint. cbv zeta.
  destruct (sb_in_range_fields _ Hr) as (HI & HA & HB).
  set (I := nr_istore_blocks (sbi m)) in *.
  set (A := nr_ifree_blocks (sbi m)) in *.
  set (B := nr_bfree_blocks (sbi m)) in *.
  unfold simplefs_sync_fs.
  destruct (kdisk s) as [|b0 rest] eqn:Ed.
  { rewrite sb_bread_missing by (rewrite Ed; cbn [length]; lia).
    cbn [fst snd klog_add kdisk]. rewrite Ed. cbn [length].
    split; [right; reflexivity|]. split; [|reflexivity].
    split; [unfold EIO; discriminate | lia]. }
  destruct (sb_bread_in_range s 0 ltac:(rewrite Ed; cbn [length]; lia)) as (b & Hb & ->).
  set (s1 := release_dirty 0 wait _).
  assert (Hd1 : length (kdisk s1) = length (b0 :: rest)).
  { subst s1. rewrite kdisk_release_dirty. cbn [bh_write klog_add kdisk].
    rewrite length_insert, Ed. reflexivity. }
  fold I A B.
  destruct (flush_bitmap_run (Z.to_nat A) 0 I (ifree_bitmap m) wait s1
              ltac:(lia) ltac:(lia) ltac:(lia)) as (Hlen2 & _ & Hok2 & Herr2 & _).
  rewrite Hd1 in Hlen2, Hok2, Herr2.
  destruct (flush_bitmap _ _ _ _ _ s1) as [r2 s2]. cbn [fst snd] in *.
  destruct (flush_bitmap_run (Z.to_nat B) 0 (I + A) (bfree_bitmap m) wait s2
              ltac:(lia) ltac:(lia) ltac:(lia)) as (Hlen3 & _ & Hok3 & Herr3 & _).
  rewrite Hlen2 in Hlen3, Hok3, Herr3.
  set (len := length (b0 :: rest)) in *.
  assert (Hpos : (0 < len)%nat) by (subst len; cbn [length]; lia).
  assert (C2 : (r2 = 0 /\ (A = 0 \/ I + A < Z.of_nat len))
               \/ (r2 = - EIO /\ 0 < A /\ Z.of_nat len <= I + A)).
  { destruct (Z.eq_dec A 0) as [E|E]; [left; split; [apply Hok2; left; lia | lia]|].
    destruct (Z.lt_ge_cases (I + A) (Z.of_nat len));
      [left; split; [apply Hok2; right; lia | lia] | right; split; [apply Herr2; lia | lia]]. }
  destruct C2 as [[-> C2]|[-> C2]].
  - destruct (flush_bitmap _ _ _ _ _ s2) as [r3 s3]. cbn [fst snd] in *.
    assert (C3 : (r3 = 0 /\ (B = 0 \/ I + A + B < Z.of_nat len))
                 \/ (r3 = - EIO /\ 0 < B /\ Z.of_nat len <= I + A + B)).
    { destruct (Z.eq_dec B 0) as [E|E]; [left; split; [apply Hok3; left; lia | lia]|].
      destruct (Z.lt_ge_cases (I + A + B) (Z.of_nat len));
        [left; split; [apply Hok3; right; lia | lia]
        |right; split; [apply Herr3; lia | lia]]. }
    split; [destruct C3 as [[-> _]|[-> _]]; auto|]. split; [|exact Hlen3].
    destruct C3 as [[-> C3]|[-> C3]]; (split; [intros E3|intros [_ Hl]]);
      try reflexivity; try discriminate E3; try (split; [exact Hpos|]); lia.
  - cbn [fst snd Z.eqb EIO Z.opp].
    split; [right; reflexivity|]. split; [|exact Hlen2].
    split; [discriminate|]. intros [_ Hl]. lia.
Qed.

(** X15. The sync is not atomic: when block 0 can be read but a bitmap
    block is missing from the device, [simplefs_sync_fs] returns -EIO
    after it has already stored the counters of the mirror in block 0. *)
Theorem sync_fs_fails_after_superblock m wait s b0 :
  sb_in_range (sbi m) ->
  1 + nr_istore_blocks (sbi m) + nr_ifree_blocks (sbi m) + nr_bfree_blocks (sbi m) <= 2 ^ 31 ->
  kdisk s !! 0%nat = Some b0 ->
  0 < nr_ifree_blocks (sbi m) + nr_bfree_blocks (sbi m) ->
  Z.of_nat (length (kdisk s))
  <= nr_istore_blocks (sbi m) + nr_ifree_blocks (sbi m) + nr_bfree_blocks (sbi m) ->
  exists s',
    simplefs_sync_fs m wait s = (- EIO, s') /\
    kdisk s' !! 0%nat = Some (sync_sb_block b0 (sbi m)).
Proof.
  intros Hr Hint Hb0 Hab Hshort.
  destruct (sb_in_range_fields _ Hr) as (HI & HA & HB).
  set (I := nr_istore_blocks (sbi m)) in *.
  set (A := nr_ifree_blocks (sbi m)) in *.
  set (B := nr_bfree_blocks (sbi m)) in *.
  pose proof (lookup_lt_Some _ _ _ Hb0) as Hpos.
  unfold simplefs_sync_fs.
  destruct (sb_bread_in_range s 0 ltac:(lia)) as (b & Hb & ->).
  change (Z.to_nat 0) with 0%nat in Hb. rewrite Hb0 in Hb. injection Hb as <-.
  set (s1 := release_dirty 0 wait _).
  assert (Hd1 : kdisk s1 = <[0%nat := sync_sb_block b0 (sbi m)]> (kdisk s)).
  { subst s1. rewrite kdisk_release_dirty. reflexivity. }
  assert (H01 : kdisk s1 !! 0%nat = Some (sync_sb_block b0 (sbi m))).
  { rewrite Hd1. apply list_lookup_insert_eq. exact Hpos. }
  fold I A B.
  destruct (flush_bitmap_run (Z.to_nat A) 0 I (ifree_bitmap m) wait s1
              ltac:(lia) ltac:(lia) ltac:(lia)) as (Hlen2 & Hother2 & Hok2 & Herr2 & _).
  rewrite Hd1, length_insert in Hlen2, Hok2, Herr2.
  destruct (flush_bitmap _ _ _ _ _ s1) as [r2 s2]. cbn [fst snd] in *.
  assert (H02 : kdisk s2 !! 0%nat = Some (sync_sb_block b0 (sbi m))).
  { rewrite Hother2 by lia. exact H01. }
  destruct (Z.eq_dec A 0) as [EA|EA];
    [|destruct (Z.lt_ge_cases (I + A) (Z.of_nat (length (kdisk s)))) as [Ha|Ha]].
  3: { rewrite (Herr2 ltac:(lia) ltac:(lia)). exists s2. split; [reflexivity|exact H02]. }
  all: rewrite (Hok2 ltac:(lia));
    destruct (flush_bitmap_run (Z.to_nat B) 0 (I + A) (bfree_bitmap m) wait s2
                ltac:(lia) ltac:(lia) ltac:(lia)) as (_ & Hother3 & _ & Herr3 & _);
    rewrite Hlen2 in Herr3;
    destruct (flush_bitmap _ _ _ _ _ s2) as [r3 s3]; cbn [fst snd] in *;
    exists s3; rewrite (Herr3 ltac:(lia) ltac:(lia)); (split; [reflexivity|]);
    rewrite Hother3 by lia; exact H02.
Qed.

(** X16. A sync that succeeds changes nothing but the seven counters of
    block 0 and the bitmap blocks: the magic bytes and everything from
    byte 32 on in block 0, every block of the inode store and every
    block from the first data block on are as they were. *)
Theorem sync_fs_frame m wait s b0 :
  mirror_fits m s -> kdisk s !! 0%nat = Some b0 -> (32 <= length b0)%nat ->
  exists s' b0',
    simplefs_sync_fs m wait s = (0, s') /\
    kdisk s' !! 0%nat = Some b0' /\
    length b0' = length b0 /\
    take 4 b0' = take 4 b0 /\
    drop 32 b0' = drop 32 b0 /\
    forall j : nat,
      1 <= Z.of_nat j <= nr_istore_blocks (sbi m) \/
      1 + nr_istore_blocks (sbi m) + nr_ifree_blocks (sbi m) + nr_bfree_blocks (sbi m)
      <= Z.of_nat j ->
      kdisk s' !! j = kdisk s !! j.
Proof.
  intros Hfit Hb0 Hl.
  destruct (sync_fs_blocks m wait s Hfit) as (s' & Hrun & _ & H0 & _ & _ & Hframe).
  destruct (sync_sb_block_parts b0 (sbi m) ltac:(lia)) as (Hlen & Htk & Hdr & _).
  exists s', (sync_sb_block b0 (sbi m)).
  split; [exact Hrun|]. split; [apply H0; exact Hb0|]. split; [lia|].
  split; [exact Htk|]. split; [exact Hdr|]. exact Hframe.
Qed.

(** X17. A second sync of the same mirror leaves the device as the
    first one left it, whatever the wait flags. *)
Theorem sync_fs_idempotent m wait wait' s b0 :
  mirror_fits m s -> kdisk s !! 0%nat = Some b0 -> (4 <= length b0)%nat ->
  exists s1 s2,
    simplefs_sync_fs m wait s = (0, s1) /\
    simplefs_sync_fs m wait' s1 = (0, s2) /\
    kdisk s2 = kdisk s1.
Proof.
  intros Hfit Hb0 Hl.
  destruct (sync_fs_blocks m wait s Hfit) as (s1 & Hrun1 & Hlen1 & H0 & Hi & Hb & Hframe).
  assert (Hfit1 : mirror_fits m s1).
  { destruct Hfit as (Hr & Hdisk & Hrest). unfold mirror_fits. cbv zeta in *.
    rewrite Hlen1. auto. }
  destruct (sync_fs_blocks m wait' s1 Hfit1)
    as (s2 & Hrun2 & Hlen2 & H0' & Hi' & Hb' & Hframe').
  exists s1, s2. split; [exact Hrun1|]. split; [exact Hrun2|].
  destruct Hfit as (Hr & Hdisk & Hint & _). cbv zeta in *.
  destruct (sb_in_range_fields _ Hr) as (HI & HA & HB).
  set (I := nr_istore_blocks (sbi m)) in *.
  set (A := nr_ifree_blocks (sbi m)) in *.
  set (B := nr_bfree_blocks (sbi m)) in *.
  apply list_eq. intros j.
  destruct (Nat.lt_ge_cases j (length (kdisk s))) as [Hj|Hj];
    [|rewrite !lookup_ge_None_2 by lia; reflexivity].
  destruct (lookup_lt_is_Some_2 (kdisk s) j Hj) as [bj Hbj].
  destruct (Nat.eq_dec j 0%nat) as [->|Hj0].
  - rewrite Hb0 in Hbj. injection Hbj as <-.
    rewrite (H0' _ (H0 _ Hb0)), (H0 _ Hb0).
    destruct (sync_sb_block_parts b0 (sbi m) Hl) as (_ & _ & _ & ->). reflexivity.
  - destruct (Z.le_gt_cases (Z.of_nat j) I) as [HjI|HjI];
      [rewrite Hframe' by lia; reflexivity|].
    destruct (Z.le_gt_cases (1 + I + A + B) (Z.of_nat j)) as [HjD|HjD];
      [rewrite Hframe' by lia; reflexivity|].
    destruct (Z.le_gt_cases (Z.of_nat j) (I + A)) as [HjA|HjA].
    + replace j with (Z.to_nat (I + (Z.of_nat j - I - 1) + 1)) in * by lia.
      set (t := Z.of_nat j - I - 1) in *.
      rewrite (Hi' t _ ltac:(lia) (Hi t _ ltac:(lia) Hbj)), (Hi t _ ltac:(lia) Hbj).
      now rewrite memcpy_at_0_twice.
    + replace j with (Z.to_nat (I + A + (Z.of_nat j - I - A - 1) + 1)) in * by lia.
      set (t := Z.of_nat j - I - A - 1) in *.
      rewrite (Hb' t _ ltac:(lia) (Hb t _ ltac:(lia) Hbj)), (Hb t _ ltac:(lia) Hbj).
      now rewrite memcpy_at_0_twice.
Qed.

(** X18. The wait flag changes neither the return value of
    [simplefs_sync_fs] nor what it leaves on the device; without it no
    buffer is synced, and with it a successful run syncs each of the
    1 + inode-bitmap + block-bitmap blocks it stored. *)
Theorem sync_fs_wait_flag m wait s :
  let r := simplefs_sync_fs m wait s in
  let r0 := simplefs_sync_fs m 0 s in
  fst r = fst r0 /\ kdisk (snd r) = kdisk (snd r0) /\
  count_events is_ksync (klog (snd r0)) = count_events is_ksync (klog s) /\
  (wait <> 0 -> fst r = 0 ->
   count_events is_ksync (klog (snd r))
   = (1 + Z.to_nat (nr_ifree_blocks (sbi m)) + Z.to_nat (nr_bfree_blocks (sbi m))
      + count_events is_ksync (klog s))%nat).
Proof.
  cbv zeta. unfold simplefs_sync_fs, sb_bread.
  destruct (if 0 <? 0 then None else kdisk s !! Z.to_nat 0) as [b|];
    [|cbn [fst snd klog_add klog kdisk]; rewrite count_events_cons;
      repeat split; unfold EIO; discriminate].
  set (s0 := bh_write (klog_add (K_bread 0) s) 0 (sync_sb_block b (sbi m))).
  assert (Hc0 : count_events is_ksync (klog s0) = count_events is_ksync (klog s)).
  { subst s0. cbn [bh_write klog_add klog]. now rewrite count_events_cons. }
  pose proof (release_dirty_syncs 0 wait s0) as Hcw.
  pose proof (release_dirty_syncs 0 0 s0) as Hc1. cbn [Z.eqb] in Hc1.
  assert (Hk : kdisk (release_dirty 0 wait s0) = kdisk (release_dirty 0 0 s0))
    by now rewrite !kdisk_release_dirty.
  set (sw := release_dirty 0 wait s0) in *. set (sz := release_dirty 0 0 s0) in *.
  destruct (flush_bitmap_wait (Z.to_nat (nr_ifree_blocks (sbi m))) 0
              (nr_istore_blocks (sbi m)) (ifree_bitmap m) wait 0 sw sz Hk) as [Hf1 Hk1].
  pose proof (flush_bitmap_syncs (Z.to_nat (nr_ifree_blocks (sbi m))) 0
                (nr_istore_blocks (sbi m)) (ifree_bitmap m) wait sw) as [_ Hew].
  pose proof (flush_bitmap_syncs (Z.to_nat (nr_ifree_blocks (sbi m))) 0
                (nr_istore_blocks (sbi m)) (ifree_bitmap m) 0 sz) as [Hlz _].
  specialize (Hlz eq_refl).
  destruct (flush_bitmap _ _ _ _ wait sw) as [r2 s2].
  destruct (flush_bitmap _ _ _ _ 0 sz) as [r2' s2']. cbn [fst snd] in *. subst r2'.
  destruct (Z.eq_dec r2 0) as [->|Hne].
  - specialize (Hew eq_refl).
    destruct (flush_bitmap_wait (Z.to_nat (nr_bfree_blocks (sbi m))) 0
                (nr_istore_blocks (sbi m) + nr_ifree_blocks (sbi m)) (bfree_bitmap m)
                wait 0 s2 s2' Hk1) as [Hf2 Hk2].
    pose proof (flush_bitmap_syncs (Z.to_nat (nr_bfree_blocks (sbi m))) 0
                  (nr_istore_blocks (sbi m) + nr_ifree_blocks (sbi m)) (bfree_bitmap m)
                  wait s2) as [_ Hew2].
    pose proof (flush_bitmap_syncs (Z.to_nat (nr_bfree_blocks (sbi m))) 0
                  (nr_istore_blocks (sbi m) + nr_ifree_blocks (sbi m)) (bfree_bitmap m)
                  0 s2') as [Hlz2 _].
    specialize (Hlz2 eq_refl).
    split; [exact Hf2|]. split; [exact Hk2|]. split; [lia|].
    intros Hw Hr. rewrite (Hew2 Hr), Hew, Hcw.
    destruct (Z.eqb_spec wait 0); [contradiction|]. lia.
  - destruct r2 as [|p|p]; [contradiction| |]; cbn [fst snd];
      (split; [reflexivity|]; split; [exact Hk1|]; split; [lia|]; intros _ Hr; discriminate Hr).
Qed.

(** ** The mount loader: what it leaves behind *)








(** X23. When the allocation of the inode bitmap is refused, the mount
    returns -ENOMEM with the device untouched; it frees the mirror but
    leaves [s_fs_info] pointing at it, and it calls [brelse] a second
    time on the superblock buffer, which it had read once and already
    released. *)
Theorem mount_bitmap_alloc_failure env s b :
  kdisk s !! 0%nat = Some b ->
  magic (sb_decode host b) = SIMPLEFS_MAGIC ->
  sbi_alloc_ok env = true -> ifree_alloc_ok env = false ->
  simplefs_fill_super env s
  = (mk_mount_result (- ENOMEM)
       (Some (mk_mirror (mirror_counters (sb_decode host b)) [] [])) false,
     mk_kstate (kdisk s)
       (K_brelse :: K_kfree :: K_kzalloc :: K_brelse :: K_kzalloc :: K_bread 0 :: klog s)).
Proof.
  intros Hb Hm Ea Ei. unfold sb_decode in *.
  unfold simplefs_fill_super, sb_bread, SIMPLEFS_SB_BLOCK_NR.
  change (Z.to_nat 0) with 0%nat. change (0 <? 0) with false. cbv iota. rewrite Hb.
  rewrite Hm, Z.eqb_refl, Ea, Ei. reflexivity.
Qed.

(** ** Format, then mount *)

Lemma slice_concat_uniform (n : nat) (ls : list (list Z)) (t : nat) (blk : list Z) :
  Forall (fun l => length l = n) ls -> ls !! t = Some blk ->
  slice (t * n) n (concat ls) = blk.
Proof.
  intros Hall. revert t. induction Hall as [|l ls Hl _ IH]; intros t Ht; [discriminate|].
  cbn [concat]. destruct t as [|t]; cbn in Ht.
  - injection Ht as <-. unfold slice. cbn [Nat.mul drop].
    apply take_app_length'. symmetry. exact Hl.
  - unfold slice. replace (S t * n)%nat with (n + t * n)%nat by lia.
    rewrite drop_app_add' by (symmetry; exact Hl). now apply IH.
Qed.

Lemma length_concat_uniform (n : nat) (ls : list (list Z)) :
  Forall (fun l => length l = n) ls -> length (concat ls) = (length ls * n)%nat.
Proof.
  induction 1 as [|l ls Hl _ IH]; [reflexivity|].
  cbn [concat length]. rewrite length_app, IH, Hl. lia.
Qed.

Lemma mirror_counters_in_range sb : sb_in_range sb -> sb_in_range (mirror_counters sb).
Proof.
  destruct sb as [f0 f1 f2 f3 f4 f5 f6 f7]. unfold sb_in_range, sb_fields.
  cbn [mirror_counters magic nr_blocks nr_inodes nr_istore_blocks nr_ifree_blocks
    nr_bfree_blocks nr_free_inodes nr_free_blocks].
  intros Hr. apply Forall_cons in Hr. destruct Hr as [_ Hr]. constructor; [lia|exact Hr].
Qed.

(** The mount of a freshly formatted device, step by step. *)
Lemma format_then_mount_loads size env (data : list block) (log : list kevent) :
  host = LittleEndian -> inodes_per_block_ok -> device_ok size ->
  0 <= SIMPLEFS_MAGIC < 2 ^ 32 ->
  used_run (superblock_geometry size) <= BITS_PER_BLOCK ->
  exit_code (format_device size) = 0 -> mount_env_ok env ->
  let g := superblock_geometry size in
  exists f1 ia ib over,
    write_ifree_blocks f1 (superblock_info size) = (0, f1 ++ ia) /\
    write_bfree_blocks (f1 ++ ia) (superblock_info size) = (0, (f1 ++ ia) ++ ib, over) /\
    image (format_device size) = (f1 ++ ia) ++ ib /\
    length f1 = Z.to_nat (1 + g_nr_istore_blocks g) /\
    length ia = Z.to_nat (g_nr_ifree_blocks g) /\
    length ib = Z.to_nat (g_nr_bfree_blocks g) /\
    fst (simplefs_fill_super env (mk_kstate (image (format_device size) ++ data) log))
    = mk_mount_result 0
        (Some (mk_mirror (mirror_counters (superblock_record size)) (concat ia) (concat ib)))
        true.
Proof.
  intros Hh Hipb Hdev Hmagic Hrun He Henv. cbv zeta.
  destruct (format_device_success _ He) as (f1 & f2 & f3 & over & _ & H1 & H2 & H3 & Hi & _).
  destruct (superblock_info_counts _ Hipb Hdev) as (_ & Ca & Cb).
  destruct (geometry_exact _ Hipb Hdev) as (_ & _ & _ & _ & _ & _ & _ & Ps & Pa & Pb).
  cbv zeta in *.
  assert (Cs : nr_istore_blocks (superblock_info size)
               = g_nr_istore_blocks (superblock_geometry size)).
  { cbn [superblock_info nr_istore_blocks]. rewrite Hh. reflexivity. }
  set (I := g_nr_istore_blocks (superblock_geometry size)) in *.
  set (A := g_nr_ifree_blocks (superblock_geometry size)) in *.
  set (B := g_nr_bfree_blocks (superblock_geometry size)) in *.
  unfold used_run in Hrun. fold I A B in Hrun.
  assert (Hbits : BITS_PER_BLOCK = 32768) by reflexivity. rewrite Hbits in Hrun.
  pose proof H2 as H2'. pose proof H3 as H3'.
  apply write_inode_store_ok in H1. rewrite Cs in H1.
  apply write_ifree_blocks_app in H2. destruct H2 as [[_ H2]|[Hr _]]; [|discriminate].
  rewrite Ca in H2.
  apply write_bfree_blocks_app in H3. cbv zeta in H3.
  destruct H3 as [_ [[_ H3]|[Hr _]]]; [|discriminate].
  rewrite Cb in H3.
  set (filled := fill_used _ _ _ _ _) in H3.
  set (sbb := sb_bytes host (superblock_info size)) in *.
  set (ia := words_bytes (<[0%nat := htole64 host 0xfffffffffffffffe]>
                            (repeat ones64 WORDS_PER_BLOCK))
             :: repeat (words_bytes (repeat ones64 WORDS_PER_BLOCK)) (iterations_from_1 A)) in *.
  set (ib := words_bytes (fst filled)
             :: repeat (words_bytes (repeat ones64 WORDS_PER_BLOCK)) (iterations_from_1 B)) in *.
  assert (Hones : length (words_bytes (repeat ones64 WORDS_PER_BLOCK))
                  = Z.to_nat SIMPLEFS_BLOCK_SIZE) by (apply block_length_ok, repeat_length).
  assert (Hia : Forall (fun b : list Z => length b = Z.to_nat SIMPLEFS_BLOCK_SIZE) ia).
  { subst ia. constructor; [|now apply Forall_repeat_length].
    apply block_length_ok. rewrite length_insert. apply repeat_length. }
  assert (Hib : Forall (fun b : list Z => length b = Z.to_nat SIMPLEFS_BLOCK_SIZE) ib).
  { subst ib. constructor; [|now apply Forall_repeat_length].
    apply block_length_ok. subst filled. rewrite fill_used_length. apply repeat_length. }
  assert (Lf1 : length f1 = Z.to_nat (1 + I)).
  { rewrite H1. cbn [app length]. rewrite repeat_length. unfold iterations_from_1. lia. }
  assert (Lia : length ia = Z.to_nat A).
  { subst ia. cbn [length]. rewrite repeat_length. unfold iterations_from_1. lia. }
  assert (Lib : length ib = Z.to_nat B).
  { subst ib. cbn [length]. rewrite repeat_length. unfold iterations_from_1. lia. }
  subst f2 f3. exists f1, ia, ib, over.
  split; [exact H2'|]. split; [exact H3'|]. split; [exact Hi|].
  split; [exact Lf1|]. split; [exact Lia|]. split; [exact Lib|].
  rewrite Hi.
  assert (Hdec : sb_decode host sbb = superblock_record size).
  { subst sbb. rewrite superblock_info_encode. rewrite Hh.
    apply sb_decode_encode_le. apply superblock_record_in_range; [exact Hmagic|].
    unfold inodes_per_block_ok in Hipb. lia. }
  assert (Hrange : sb_in_range (superblock_record size)).
  { apply superblock_record_in_range; [exact Hmagic|].
    unfold inodes_per_block_ok in Hipb. lia. }
  assert (Hb0 : (((f1 ++ ia) ++ ib) ++ data) !! 0%nat = Some sbb).
  { rewrite H1. reflexivity. }
  pose proof (fill_super_loads env (mk_kstate (((f1 ++ ia) ++ ib) ++ data) log) sbb
                (concat ia) (concat ib) Henv Hb0) as Hload.
  rewrite Hdec in Hload.
  change (nr_istore_blocks (superblock_record size)) with I in Hload.
  change (nr_ifree_blocks (superblock_record size)) with A in Hload.
  change (nr_bfree_blocks (superblock_record size)) with B in Hload.
  apply Hload; clear Hload.
  - reflexivity.
  - unfold mirror_fits. cbn [sbi ifree_bitmap bfree_bitmap mirror_counters
      nr_istore_blocks nr_ifree_blocks nr_bfree_blocks kdisk].
    change (nr_istore_blocks (superblock_record size)) with I.
    change (nr_ifree_blocks (superblock_record size)) with A.
    change (nr_bfree_blocks (superblock_record size)) with B.
    rewrite !length_app, Lf1, Lia, Lib.
    rewrite (length_concat_uniform _ _ Hia), (length_concat_uniform _ _ Hib), Lia, Lib.
    unfold SIMPLEFS_BLOCK_SIZE.
    split; [apply (mirror_counters_in_range _ Hrange)|]. repeat split; lia.
  - intros t Ht. cbn [kdisk].
    destruct (lookup_lt_is_Some_2 ia (Z.to_nat t) ltac:(lia)) as [blk Hblk].
    exists blk. split.
    + rewrite <- !app_assoc. rewrite lookup_app_r by lia.
      rewrite lookup_app_l by lia. rewrite <- Hblk. f_equal. lia.
    + rewrite take_ge by (rewrite (Forall_lookup_1 _ _ _ _ Hia Hblk); lia).
      replace (Z.to_nat (t * SIMPLEFS_BLOCK_SIZE))
        with (Z.to_nat t * Z.to_nat SIMPLEFS_BLOCK_SIZE)%nat
        by (unfold SIMPLEFS_BLOCK_SIZE; lia).
      symmetry. now apply slice_concat_uniform.
  - intros t Ht. cbn [kdisk].
    destruct (lookup_lt_is_Some_2 ib (Z.to_nat t) ltac:(lia)) as [blk Hblk].
    exists blk. split.
    + rewrite <- (app_assoc _ ib data). rewrite lookup_app_r by (rewrite length_app; lia).
      rewrite lookup_app_l by (rewrite length_app; lia). rewrite <- Hblk. f_equal.
      rewrite length_app. lia.
    + rewrite take_ge by (rewrite (Forall_lookup_1 _ _ _ _ Hib Hblk); lia).
      replace (Z.to_nat (t * SIMPLEFS_BLOCK_SIZE))
        with (Z.to_nat t * Z.to_nat SIMPLEFS_BLOCK_SIZE)%nat
        by (unfold SIMPLEFS_BLOCK_SIZE; lia).
      symmetry. now apply slice_concat_uniform.
Qed.

(** X24. Format, then mount, on a little-endian host.  A device that
    [main] formatted with exit status 0 (used run within the first
    bitmap block) mounts: the mirror holds the counters that format
    computed, its bitmaps are the bitmap blocks of the image one after
    the other, its first free inode is 1 (inode 0 is the root) and its
    first free block is the one after the first data block.  Blocks
    after the image do not matter. *)
Theorem format_then_mount inv env (data : list block) (log : list kevent) :
  host = LittleEndian -> inodes_per_block_ok ->
  0 <= SIMPLEFS_MAGIC < 2 ^ 32 ->
  device_size inv / SIMPLEFS_BLOCK_SIZE + SIMPLEFS_INODES_PER_BLOCK <= 2 ^ 32 ->
  used_run (superblock_geometry (device_size inv)) <= BITS_PER_BLOCK ->
  exit_code (main inv) = 0 -> mount_env_ok env ->
  let g := superblock_geometry (device_size inv) in
  let img := image (main inv) in
  exists m,
    fst (simplefs_fill_super env (mk_kstate (img ++ data) log))
    = mk_mount_result 0 (Some m) true /\
    sbi m = mirror_counters (superblock_record (device_size inv)) /\
    ifree_bitmap m
    = concat (take (Z.to_nat (g_nr_ifree_blocks g))
                (drop (Z.to_nat (1 + g_nr_istore_blocks g)) img)) /\
    bfree_bitmap m
    = concat (drop (Z.to_nat (1 + g_nr_istore_blocks g + g_nr_ifree_blocks g)) img) /\
    find_first_free (ifree_bitmap m) (nr_inodes (sbi m)) = Some 1 /\
    find_first_free (bfree_bitmap m) (nr_blocks (sbi m))
    = Some (2 + g_nr_istore_blocks g + g_nr_ifree_blocks g + g_nr_bfree_blocks g).
Proof.
  intros Hh Hipb Hmagic Hfit Hrun He Henv. cbv zeta.
  destruct (main_success_steps inv He) as [Hmin Hm]. rewrite Hm in *.
  pose proof (conj Hmin Hfit) as Hdev.
  destruct (format_then_mount_loads (device_size inv) env data log Hh Hipb Hdev Hmagic Hrun
              He Henv) as (f1 & ia & ib & over & H2 & H3 & Hi & Lf1 & Lia & Lib & Hmount).
  destruct (geometry_exact _ Hipb Hdev) as (G1 & G2 & _ & G4 & G5 & _ & G7 & Ps & Pa & Pb).
  cbv zeta in *. unfold SIMPLEFS_BLOCK_SIZE in Hmin.
  assert (100 <= device_size inv / SIMPLEFS_BLOCK_SIZE)
    by (apply Z.div_le_lower_bound; unfold SIMPLEFS_BLOCK_SIZE; lia).
  eexists. split; [exact Hmount|]. cbn [sbi ifree_bitmap bfree_bitmap].
  split; [reflexivity|]. rewrite Hi. split; [|split; [|split]].
  - rewrite <- app_assoc, drop_app_length' by (symmetry; exact Lf1).
    now rewrite take_app_length' by (symmetry; exact Lia).
  - rewrite drop_app_length'; [reflexivity|]. rewrite length_app, Lf1, Lia. lia.
  - cbn [mirror_counters superblock_record nr_inodes].
    rewrite <- (appended_app f1 ia).
    apply find_first_free_lowest; [lia| |].
    + intros k Hk. rewrite (ifree_region_bits _ f1 _ k Hipb Hdev H2) by lia.
      apply Z.leb_gt. lia.
    + rewrite (ifree_region_bits _ f1 _ 1 Hipb Hdev H2) by lia. reflexivity.
  - cbn [mirror_counters superblock_record nr_blocks].
    rewrite <- (appended_app (f1 ++ ia) ib).
    assert (Hbit : forall k,
              0 <= k < BITS_PER_BLOCK * g_nr_bfree_blocks (superblock_geometry (device_size inv)) ->
              bitmap_test (concat (appended (f1 ++ ia) ((f1 ++ ia) ++ ib))) k
              = (used_run (superblock_geometry (device_size inv)) <=? k)).
    { intros k Hk. now apply (bfree_region_bits _ _ _ over k Hipb Hdev Hrun H3). }
    unfold used_run in *.
    apply find_first_free_lowest; [lia| |].
    + intros k Hk. rewrite Hbit by lia. apply Z.leb_gt. lia.
    + rewrite Hbit by lia. apply Z.leb_le. lia.
Qed.

(** X25. [simplefs_statfs] on a freshly formatted and mounted device
    (little-endian host, used run within the first bitmap block): one
    file in use, every other inode free, and a free-block figure of
    total - inode-store - inode-bitmap - block-bitmap - 1 blocks, the
    counter of the superblock. *)
Theorem statfs_after_format inv env (data : list block) (log : list kevent) filename_len :
  host = LittleEndian -> inodes_per_block_ok ->
  0 <= SIMPLEFS_MAGIC < 2 ^ 32 ->
  device_size inv / SIMPLEFS_BLOCK_SIZE + SIMPLEFS_INODES_PER_BLOCK <= 2 ^ 32 ->
  used_run (superblock_geometry (device_size inv)) <= BITS_PER_BLOCK ->
  exit_code (main inv) = 0 -> mount_env_ok env ->
  let g := superblock_geometry (device_size inv) in
  exists m,
    fst (simplefs_fill_super env (mk_kstate (image (main inv) ++ data) log))
    = mk_mount_result 0 (Some m) true /\
    simplefs_statfs filename_len m
    = {| f_type := SIMPLEFS_MAGIC;
         f_bsize := 4096;
         f_blocks := g_nr_blocks g;
         f_bfree := g_nr_blocks g - g_nr_istore_blocks g - g_nr_ifree_blocks g
                    - g_nr_bfree_blocks g - 1;
         f_bavail := g_nr_blocks g - g_nr_istore_blocks g - g_nr_ifree_blocks g
                     - g_nr_bfree_blocks g - 1;
         f_files := 1;
         f_ffree := g_nr_inodes g - 1;
         f_namelen := filename_len |}.
Proof.
  intros Hh Hipb Hmagic Hfit Hrun He Henv. cbv zeta.
  destruct (main_success_steps inv He) as [Hmin Hm]. rewrite Hm in *.
  pose proof (conj Hmin Hfit) as Hdev.
  destruct (format_then_mount_loads (device_size inv) env data log Hh Hipb Hdev Hmagic Hrun
              He Henv) as (f1 & ia & ib & over & _ & _ & _ & _ & _ & _ & Hmount).
  destruct (geometry_exact _ Hipb Hdev) as (G1 & G2 & _ & _ & _ & G6 & G7 & Ps & Pa & Pb).
  cbv zeta in *. unfold SIMPLEFS_BLOCK_SIZE in Hmin.
  assert (100 <= device_size inv / SIMPLEFS_BLOCK_SIZE)
    by (apply Z.div_le_lower_bound; unfold SIMPLEFS_BLOCK_SIZE; lia).
  unfold used_run, inodes_per_block_ok in *.
  eexists. split; [exact Hmount|].
  unfold simplefs_statfs. cbn [sbi mirror_counters superblock_record nr_blocks nr_inodes
    nr_free_inodes nr_free_blocks].
  rewrite G6, G1.
  rewrite (u32_small (g_nr_inodes (superblock_geometry (device_size inv)) - 1)) by lia.
  rewrite (u32_small (device_size inv / SIMPLEFS_BLOCK_SIZE
                      - g_nr_istore_blocks (superblock_geometry (device_size inv))
                      - g_nr_ifree_blocks (superblock_geometry (device_size inv))
                      - g_nr_bfree_blocks (superblock_geometry (device_size inv)) - 1)) by lia.
  replace (g_nr_inodes (superblock_geometry (device_size inv))
           - (g_nr_inodes (superblock_geometry (device_size inv)) - 1)) with 1 by lia.
  reflexivity.
Qed.

(** ** Loading and unloading the module *)

(** X26. [simplefs_init] returns 0 exactly when the inode cache was
    created and the filesystem type registered; both are then in place.
    A refused cache gives -ENOMEM.  A refused registration gives the
    error of [register_filesystem] and leaves the inode cache created:
    the failure path does not destroy it. *)
Theorem module_init_outcomes env st :
  let r := simplefs_init env st in
  (fst r = 0 <-> cache_create_ok env = true /\ register_ret env = 0) /\
  (fst r = 0 ->
   snd r = mk_module_state true true (ModuleLoaded :: printk st)) /\
  (cache_create_ok env = false ->
   r = (- ENOMEM,
        mk_module_state (inode_cache st) (registered st) (CacheCreationFailed :: printk st))) /\
  (cache_create_ok env = true -> register_ret env <> 0 ->
   r = (register_ret env,
        mk_module_state true (registered st) (RegisterFailed :: printk st))).
Proof.
  cbv zeta. unfold simplefs_init, simplefs_init_inode_cache.
  destruct (cache_create_ok env).
  - cbn [Z.eqb negb inode_cache registered printk].
    destruct (Z.eqb_spec (register_ret env) 0) as [E|E]; cbn [negb fst snd].
    + rewrite E. repeat split; try reflexivity; try discriminate. intros _ H. now contradiction H.
    + repeat split; try reflexivity; try discriminate; try contradiction.
      intros [_ H]. contradiction.
  - cbn [Z.eqb negb fst snd ENOMEM Z.opp]. repeat split; try discriminate.
    intros [H _]. discriminate H.
Qed.

(** X27. Unloading after a successful load: [simplefs_exit] destroys
    the inode cache whether or not [unregister_filesystem] succeeds, so
    a refused unregistration leaves the filesystem type registered
    without its inode cache; otherwise nothing of the module is left. *)
Theorem module_exit_after_init env st st1 :
  simplefs_init env st = (0, st1) ->
  let st2 := simplefs_exit env st1 in
  inode_cache st2 = false /\
  registered st2 = negb (unregister_ret env =? 0) /\
  printk st2
  = ModuleUnloaded
    :: (if unregister_ret env =? 0 then [] else [UnregisterFailed])
    ++ ModuleLoaded :: printk st.
Proof.
  unfold simplefs_init, simplefs_init_inode_cache.
  destruct (cache_create_ok env); [|discriminate].
  cbn [Z.eqb negb inode_cache registered printk].
  destruct (Z.eqb_spec (register_ret env) 0) as [E|E]; cbn [negb];
    [|intros H; injection H as H _; contradiction].
  intros H. injection H as _ <-. cbv zeta.
  unfold simplefs_exit, simplefs_destroy_inode_cache.
  destruct (unregister_ret env =? 0); cbn [negb inode_cache registered printk app];
    repeat split; reflexivity.
Qed.

End Simplefs.


(** * The format tool across hosts *)

Lemma map_insert_list {A B : Type} (g : A -> B) (l : list A) (i : nat) (x : A) :
  map g (<[i := x]> l) = <[i := g x]> (map g l).
Proof.
  revert i; induction l as [|a l IH]; intros i; [reflexivity|].
  destruct i as [|i]; cbn; [reflexivity|]. now rewrite IH.
Qed.

Lemma words_bytes_across_hosts h (b1 b2 : list Z) :
  map (host_bytes h 8) b1 = map (host_bytes LittleEndian 8) b2 ->
  words_bytes h b1 = words_bytes LittleEndian b2.
Proof. intros H. unfold words_bytes. now rewrite !flat_map_concat_map, H. Qed.

Lemma ones_words_across_hosts h (n : nat) :
  map (host_bytes h 8) (repeat ones64 n) = map (host_bytes LittleEndian 8) (repeat ones64 n).
Proof. induction n as [|n IH]; [reflexivity|]. cbn [repeat map]. rewrite IH. now destruct h. Qed.

(** The first loop of [write_bfree_blocks] leaves the same bytes in the
    buffer on every host. *)
Lemma fill_used_across_hosts h (fuel : nat) : forall (i : nat) nr (b1 b2 : list Z) over,
  map (host_bytes h 8) b1 = map (host_bytes LittleEndian 8) b2 ->
  map (host_bytes h 8) (fst (fill_used h fuel i nr b1 over))
  = map (host_bytes LittleEndian 8) (fst (fill_used LittleEndian fuel i nr b2 over)) /\
  snd (fill_used h fuel i nr b1 over) = snd (fill_used LittleEndian fuel i nr b2 over).
Proof.
  induction fuel as [|fuel IH]; intros i nr b1 b2 over Hb; cbn [fill_used].
  - split; [exact Hb|reflexivity].
  - destruct (nr =? 0); [split; [exact Hb|reflexivity]|].
    destruct (fill_line 65 1 ones64 nr) as [line nr'].
    assert (Hl : length b1 = length b2).
    { apply (f_equal (@length _)) in Hb. now rewrite !length_map in Hb. }
    rewrite Hl. apply IH. rewrite !map_insert_list, Hb.
    now rewrite !host_bytes_htole64.
Qed.

(** The counts that the write steps read back from the record. *)
Lemma superblock_info_counts_any_host h ipb magic size :
  0 < ipb ->
  let g := superblock_geometry ipb size in
  let sb := superblock_info h ipb magic size in
  le32toh h (nr_istore_blocks sb) = g_nr_istore_blocks g /\
  le32toh h (nr_ifree_blocks sb) = g_nr_ifree_blocks g /\
  le32toh h (nr_bfree_blocks sb) = g_nr_bfree_blocks g.
Proof.
  intros Hipb. cbv zeta.
  pose proof (superblock_record_in_range ipb 0 size ltac:(lia) Hipb) as Hr.
  apply sb_in_range_fields in Hr.
  cbn [superblock_record nr_istore_blocks nr_ifree_blocks nr_bfree_blocks] in Hr.
  cbn [superblock_info nr_istore_blocks nr_ifree_blocks nr_bfree_blocks].
  destruct Hr as (H1 & H2 & H3). now rewrite !le32toh_htole32.
Qed.

(** X28. Apart from the zeroed blocks of the inode store, format writes
    the same bytes on a big-endian host as on a little-endian one: the
    superblock, the block with the root inode, and every block of both
    bitmaps (with the same return values and the same overrun flag). *)
Theorem format_metadata_across_hosts h ipb magic (write_ok : nat -> bool) size
    (f : list (list Z)) :
  0 < ipb ->
  let sbh := superblock_info h ipb magic size in
  let sbl := superblock_info LittleEndian ipb magic size in
  sb_bytes h sbh = sb_bytes LittleEndian sbl /\
  root_inode_block h sbh = root_inode_block LittleEndian sbl /\
  write_ifree_blocks h write_ok f sbh = write_ifree_blocks LittleEndian write_ok f sbl /\
  write_bfree_blocks h write_ok f sbh = write_bfree_blocks LittleEndian write_ok f sbl.
Proof.
  intros Hipb. cbv zeta.
  destruct (superblock_info_counts_any_host h ipb magic size Hipb) as (Hs & Ha & Hb).
  destruct (superblock_info_counts_any_host LittleEndian ipb magic size Hipb)
    as (Hs' & Ha' & Hb').
  cbv zeta in *.
  split; [now rewrite !superblock_info_encode|]. split; [|split].
  - unfold root_inode_block. cbv zeta. rewrite Hs, Ha, Hb, Hs', Ha', Hb'.
    unfold inode_layout. cbn [flat_map]. rewrite !host_bytes_htole32.
    replace (host_bytes h 4 0) with (host_bytes LittleEndian 4 0) by now destruct h.
    reflexivity.
  - unfold write_ifree_blocks. cbv zeta. rewrite Ha, Ha'.
    rewrite (words_bytes_across_hosts h _
               (<[0%nat := htole64 LittleEndian 18446744073709551614]>
                  (repeat ones64 WORDS_PER_BLOCK)))
      by (rewrite !map_insert_list, !host_bytes_htole64; f_equal;
          apply ones_words_across_hosts).
    rewrite (words_bytes_across_hosts h
               (<[0%nat := 18446744073709551615]>
                  (<[0%nat := htole64 h 18446744073709551614]>
                     (repeat ones64 WORDS_PER_BLOCK)))
               (<[0%nat := 18446744073709551615]>
                  (<[0%nat := htole64 LittleEndian 18446744073709551614]>
                     (repeat ones64 WORDS_PER_BLOCK)))); [reflexivity|].
    rewrite !map_insert_list, !host_bytes_htole64. f_equal; [now destruct h|]. f_equal.
    apply ones_words_across_hosts.
  - unfold write_bfree_blocks. cbv zeta. rewrite Hs, Ha, Hb, Hs', Ha', Hb'.
    set (nr := u32 _).
    destruct (fill_used_across_hosts h (Z.to_nat nr) 0 nr (repeat ones64 WORDS_PER_BLOCK)
                (repeat ones64 WORDS_PER_BLOCK) false
                (ones_words_across_hosts h WORDS_PER_BLOCK)) as [Hw Ho].
    destruct (fill_used h _ _ _ _ _) as [bh oh].
    destruct (fill_used LittleEndian _ _ _ _ _) as [bl ol].
    cbn [fst snd] in Hw, Ho. subst oh.
    rewrite (words_bytes_across_hosts h bh bl Hw).
    rewrite (words_bytes_across_hosts h (repeat ones64 WORDS_PER_BLOCK)
               (repeat ones64 WORDS_PER_BLOCK) (ones_words_across_hosts h WORDS_PER_BLOCK)).
    reflexivity.
Qed.

(** X29. On a big-endian host the loop of [write_inode_store] takes its
    bound from the stored field without [le32toh]: when every write
    succeeds it appends, after the root inode block, one zeroed block
    for every integer from 1 up to the byte-swapped inode-store count,
    not up to the count itself. *)
Theorem inode_store_on_big_endian ipb magic (write_ok : nat -> bool) size
    (f : list (list Z)) :
  (forall k, write_ok k = true) ->
  let g := superblock_geometry ipb size in
  let sb := superblock_info BigEndian ipb magic size in
  write_inode_store BigEndian write_ok f sb
  = (0, f ++ root_inode_block BigEndian sb
          :: repeat zero_block (Z.to_nat (bswap 4 (g_nr_istore_blocks g) - 1))).
Proof.
  intros Hok. cbv zeta. unfold write_inode_store, sys_write. rewrite Hok.
  rewrite write_repeat_all_ok by exact Hok. rewrite <- app_assoc. reflexivity.
Qed.
(** * The model on concrete inputs *)

(** ** A device of 101 blocks *)

Example geometry_101_blocks :
  superblock_geometry sample_inodes_per_block (101 * 4096)
  = mk_geometry 101 112 2 1 1 97.
Proof. vm_compute. reflexivity. Qed.

(** C1 at 101 blocks: the four region counts and the superblock add up
    to 102. *)
Lemma geometry_sum_off_by_one_witness :
  let g := superblock_geometry sample_inodes_per_block (101 * 4096) in
  g_nr_blocks g
    = g_nr_istore_blocks g + g_nr_ifree_blocks g + g_nr_bfree_blocks g + g_nr_data_blocks g
  /\ 1 + g_nr_istore_blocks g + g_nr_ifree_blocks g + g_nr_bfree_blocks g + g_nr_data_blocks g
     = g_nr_blocks g + 1.
Proof.
  apply (geometry_sum_off_by_one sample_inodes_per_block (101 * 4096)).
  - unfold inodes_per_block_ok, sample_inodes_per_block, SIMPLEFS_BLOCK_SIZE. lia.
  - unfold device_ok, sample_inodes_per_block, SIMPLEFS_BLOCK_SIZE. vm_compute.
    split; [reflexivity | discriminate].
Defined.

(** C2 at 101 blocks: 112 inodes and a free-inode counter of 111; a
    data-block count of 96 and a free-block counter of 96, not 95. *)
Lemma format_free_counters_witness :
  exists blk rest,
    image (main LittleEndian sample_inodes_per_block sample_magic every_write_ok
             (file_of_size (101 * 4096))) = blk :: rest /\
    let sb := sb_decode LittleEndian blk in
    let g := superblock_geometry sample_inodes_per_block
               (device_size (file_of_size (101 * 4096))) in
    nr_inodes sb = g_nr_inodes g /\
    nr_free_inodes sb = nr_inodes sb - 1 /\
    nr_free_blocks sb = g_nr_data_blocks g - 1 /\
    nr_free_blocks sb = spec_data_blocks g /\
    nr_free_blocks sb <> spec_data_blocks g - 1.
Proof.
  apply (format_free_counters LittleEndian sample_inodes_per_block sample_magic
           every_write_ok (file_of_size (101 * 4096))).
  - vm_compute. split; [discriminate | reflexivity].
  - unfold inodes_per_block_ok, sample_inodes_per_block, SIMPLEFS_BLOCK_SIZE. lia.
  - vm_compute. discriminate.
  - vm_compute. reflexivity.
Defined.

(** C8 at the boundary: a file of exactly 100 blocks is turned down, one
    of 101 blocks goes on to the write steps. *)
Lemma size_check_boundary_witness :
  diag (main LittleEndian sample_inodes_per_block sample_magic every_write_ok
          (file_of_size (100 * 4096))) = Some NotLargeEnough /\
  image (main LittleEndian sample_inodes_per_block sample_magic every_write_ok
           (file_of_size (100 * 4096))) = [] /\
  main LittleEndian sample_inodes_per_block sample_magic every_write_ok
    (file_of_size (101 * 4096))
  = format_device LittleEndian sample_inodes_per_block sample_magic every_write_ok
      (101 * 4096).
Proof.
  assert (Hr : forall size, reaches_size_check (file_of_size size)).
  { intros size. unfold reaches_size_check, file_of_size. cbn.
    repeat split; intros; try reflexivity; discriminate. }
  pose proof (size_check_boundary LittleEndian sample_inodes_per_block sample_magic
                every_write_ok (file_of_size (100 * 4096)) (Hr _))
    as (_ & Hreject & _ & H100 & _).
  pose proof (size_check_boundary LittleEndian sample_inodes_per_block sample_magic
                every_write_ok (file_of_size (101 * 4096)) (Hr _))
    as (_ & _ & _ & _ & H101).
  split; [apply H100; reflexivity|]. split.
  - apply Hreject. vm_compute. discriminate.
  - apply H101. reflexivity.
Defined.

(** The check compares bytes: a file one byte longer than 100 blocks
    passes it, and is formatted with a block count of 100. *)
Example size_check_counts_bytes :
  main LittleEndian sample_inodes_per_block sample_magic every_write_ok
    (file_of_size (100 * 4096 + 1))
  = format_device LittleEndian sample_inodes_per_block sample_magic every_write_ok
      (100 * 4096 + 1)
  /\ g_nr_blocks (superblock_geometry sample_inodes_per_block (100 * 4096 + 1)) = 100.
Proof. split; reflexivity. Qed.

(** C3 on a device of 8 GiB: the used run is 37581 bits long, more than
    the 32768 bits of one bitmap block, and the fill loop stores past
    the 512 words of its buffer. *)
Lemma block_bitmap_run_overruns_buffer_witness :
  let size := 2 ^ 33 in
  let g := superblock_geometry sample_inodes_per_block size in
  let sb := superblock_info LittleEndian sample_inodes_per_block sample_magic size in
  g_nr_blocks g = 2097152 /\ g_nr_bfree_blocks g = 64 /\ used_run g = 37581 /\
  snd (write_bfree_blocks LittleEndian every_write_ok [] sb) = true.
Proof.
  intros size g sb.
  split; [vm_compute; reflexivity|]. split; [vm_compute; reflexivity|].
  split; [vm_compute; reflexivity|].
  assert (Hipb : inodes_per_block_ok sample_inodes_per_block)
    by (unfold inodes_per_block_ok, sample_inodes_per_block, SIMPLEFS_BLOCK_SIZE; lia).
  assert (Hdev : device_ok sample_inodes_per_block size)
    by (vm_compute; split; [reflexivity | discriminate]).
  assert (Hrun : BITS_PER_BLOCK < used_run g) by (vm_compute; reflexivity).
  exact (proj2 (block_bitmap_run_overruns_buffer LittleEndian sample_inodes_per_block
                  sample_magic every_write_ok size [] Hipb Hdev) Hrun).
Defined.

(** C4 at 101 blocks. *)
Lemma padding_bits_left_free_witness :
  let size := 101 * 4096 in
  let sb := superblock_info LittleEndian sample_inodes_per_block sample_magic size in
  let g := superblock_geometry sample_inodes_per_block size in
  (forall f' k,
     write_ifree_blocks LittleEndian every_write_ok [] sb = (0, f') ->
     g_nr_inodes g <= k < BITS_PER_BLOCK * g_nr_ifree_blocks g ->
     bitmap_test (concat (appended [] f')) k = true) /\
  (forall f' over k,
     write_bfree_blocks LittleEndian every_write_ok [] sb = (0, f', over) ->
     used_run g <= BITS_PER_BLOCK ->
     g_nr_blocks g <= k < BITS_PER_BLOCK * g_nr_bfree_blocks g ->
     bitmap_test (concat (appended [] f')) k = true) /\
  (forall bm count i, find_first_free bm count = Some i -> 0 <= i < count).
Proof.
  intros size sb.
  apply (padding_bits_left_free LittleEndian sample_inodes_per_block sample_magic
           every_write_ok size []).
  - unfold inodes_per_block_ok, sample_inodes_per_block, SIMPLEFS_BLOCK_SIZE. lia.
  - vm_compute. split; [reflexivity | discriminate].
Defined.

(** C4 fails at 101 blocks: the image has 112 inodes and 101 blocks, and
    bit 112 of the inode bitmap and bit 101 of the block bitmap, the
    first padding bits, are free (1) in the blocks that format wrote. *)
Lemma padding_bits_not_marked_used :
  let o := main LittleEndian sample_inodes_per_block sample_magic every_write_ok
             (file_of_size (101 * 4096)) in
  let g := superblock_geometry sample_inodes_per_block (101 * 4096) in
  let inode_bitmap := nth (Z.to_nat (1 + g_nr_istore_blocks g)) (image o) [] in
  let block_bitmap :=
    nth (Z.to_nat (1 + g_nr_istore_blocks g + g_nr_ifree_blocks g)) (image o) [] in
  exit_code o = 0 /\ g_nr_inodes g = 112 /\ g_nr_blocks g = 101 /\
  ~ (forall k, g_nr_inodes g <= k < BITS_PER_BLOCK -> bitmap_test inode_bitmap k = false) /\
  ~ (forall k, g_nr_blocks g <= k < BITS_PER_BLOCK -> bitmap_test block_bitmap k = false).
Proof.
  intros o g inode_bitmap block_bitmap.
  split; [vm_compute; reflexivity|]. split; [vm_compute; reflexivity|].
  split; [vm_compute; reflexivity|]. split.
  - intros H.
    assert (Hk : g_nr_inodes g <= 112 < BITS_PER_BLOCK)
      by (vm_compute; split; [discriminate | reflexivity]).
    specialize (H 112 Hk). revert H. vm_compute. discriminate.
  - intros H.
    assert (Hk : g_nr_blocks g <= 101 < BITS_PER_BLOCK)
      by (vm_compute; split; [discriminate | reflexivity]).
    specialize (H 101 Hk). revert H. vm_compute. discriminate.
Qed.

(** C5 at 101 blocks. *)
Lemma first_free_after_format_witness :
  let size := 101 * 4096 in
  let sb := superblock_info LittleEndian sample_inodes_per_block sample_magic size in
  let g := superblock_geometry sample_inodes_per_block size in
  let first_data_block :=
    1 + g_nr_istore_blocks g + g_nr_ifree_blocks g + g_nr_bfree_blocks g in
  (1 < g_nr_inodes g /\ first_data_block + 1 < g_nr_blocks g) /\
  (forall f' count,
     write_ifree_blocks LittleEndian every_write_ok [] sb = (0, f') ->
     1 < count ->
     find_first_free (concat (appended [] f')) count = Some 1) /\
  (forall f' over count,
     write_bfree_blocks LittleEndian every_write_ok [] sb = (0, f', over) ->
     used_run g <= BITS_PER_BLOCK ->
     first_data_block + 1 < count ->
     find_first_free (concat (appended [] f')) count = Some (first_data_block + 1)).
Proof.
  intros size sb.
  apply (first_free_after_format LittleEndian sample_inodes_per_block sample_magic
           every_write_ok size []).
  - unfold inodes_per_block_ok, sample_inodes_per_block, SIMPLEFS_BLOCK_SIZE. lia.
  - vm_compute. split; [reflexivity | discriminate].
Defined.

(** C5 fails at 101 blocks: the first data block is block 5, and the
    scan of the block bitmap over the 101 logical bits returns 6, the
    block after it; the scan of the inode bitmap returns 1. *)
Lemma first_free_block_is_not_first_data_block :
  let o := main LittleEndian sample_inodes_per_block sample_magic every_write_ok
             (file_of_size (101 * 4096)) in
  let g := superblock_geometry sample_inodes_per_block (101 * 4096) in
  let first_data_block :=
    1 + g_nr_istore_blocks g + g_nr_ifree_blocks g + g_nr_bfree_blocks g in
  let inode_bitmap := nth (Z.to_nat (1 + g_nr_istore_blocks g)) (image o) [] in
  let block_bitmap :=
    nth (Z.to_nat (1 + g_nr_istore_blocks g + g_nr_ifree_blocks g)) (image o) [] in
  exit_code o = 0 /\ first_data_block = 5 /\
  find_first_free inode_bitmap (g_nr_inodes g) = Some 1 /\
  find_first_free block_bitmap (g_nr_blocks g) = Some 6 /\
  find_first_free block_bitmap (g_nr_blocks g) <> Some first_data_block.
Proof.
  intros o g first_data_block inode_bitmap block_bitmap.
  split; [vm_compute; reflexivity|]. split; [vm_compute; reflexivity|].
  split; [vm_compute; reflexivity|]. split; [vm_compute; reflexivity|].
  vm_compute. discriminate.
Qed.

(** ** A big-endian host *)

(** C6 on a big-endian host.  Block 0 as the format tool writes it for a
    device of 101 blocks holds the bytes 11 ce ad de for the magic number
    and 65 00 00 00 for the block count, whatever the host.  The mount
    loader reads the fields through the cast pointer, without a
    conversion: on a big-endian host it gets 0x11ceadde and 0x65000000,
    the decoded record is not the encoded one, and the mount of the
    freshly formatted image fails with -EINVAL. *)
Theorem superblock_roundtrip_fails_on_big_endian :
  let sb := superblock_record sample_inodes_per_block sample_magic (101 * 4096) in
  let blk := sb_encode BigEndian sb in
  sb_in_range sb /\
  blk = sb_encode LittleEndian sb /\
  take 8 blk = [0x11; 0xce; 0xad; 0xde; 0x65; 0; 0; 0] /\
  magic (sb_decode BigEndian blk) = 0x11ceadde /\
  nr_blocks (sb_decode BigEndian blk) = 0x65000000 /\
  sb_decode BigEndian blk <> sb /\
  fst (simplefs_fill_super BigEndian sample_magic mount_ready (mk_kstate [blk] []))
  = mk_mount_result (- EINVAL) None false.
Proof.
  intros sb blk.
  split; [apply superblock_record_in_range;
           [vm_compute; split; [discriminate | reflexivity] | reflexivity]|].
  split; [apply sb_encode_host_independent|].
  split; [vm_compute; reflexivity|]. split; [vm_compute; reflexivity|].
  split; [vm_compute; reflexivity|]. split; [vm_compute; discriminate|].
  vm_compute. reflexivity.
Qed.

(** C7.  The claim says that a mount fails with the invalid-magic error
    whenever the stored magic field differs from the expected constant.
    [simplefs_fill_super] compares the field as the host reads it.  On a
    little-endian host that is the stored field and the claim holds: a
    block 0 whose first four bytes, read in the little-endian order of
    the disk format, are not the magic number is turned down with
    -EINVAL, with no mirror allocated, no other block read and the
    device unchanged.  On a big-endian host a device whose block 0
    starts de ad ce 11 (stored magic 0x11ceadde, not the magic number
    0xdeadce11) and goes on with counters in big-endian order is
    mounted: the mount returns 0 with the mirror and the root set. *)
Theorem mount_magic_check_in_host_order :
  (forall magic_number env s b,
     kdisk s !! 0%nat = Some b -> le_field b 0 <> magic_number ->
     fst (simplefs_fill_super LittleEndian magic_number env s)
     = mk_mount_result (- EINVAL) None false /\
     kdisk (snd (simplefs_fill_super LittleEndian magic_number env s)) = kdisk s /\
     klog (snd (simplefs_fill_super LittleEndian magic_number env s))
     = K_brelse :: K_bread 0 :: klog s) /\
  let sb := superblock_record sample_inodes_per_block sample_magic (101 * 4096) in
  let blk := sb_bytes BigEndian sb in
  let disk := [blk; zero_block; zero_block; ifree_first_block; ones_block] in
  take 4 blk = [0xde; 0xad; 0xce; 0x11] /\
  le_field blk 0 = 0x11ceadde /\
  le_field blk 0 <> sample_magic /\
  fst (simplefs_fill_super BigEndian sample_magic mount_ready (mk_kstate disk []))
  = mk_mount_result 0
      (Some (mk_mirror (mirror_counters sb) ifree_first_block ones_block)) true.
Proof.
  split.
  - intros magic_number env s b Hb Hm.
    apply (mount_rejects_wrong_magic LittleEndian magic_number env s b Hb). exact Hm.
  - intros sb blk disk.
    split; [vm_compute; reflexivity|]. split; [vm_compute; reflexivity|].
    split; [vm_compute; discriminate|]. vm_compute. reflexivity.
Qed.

(** On a little-endian host the same block decodes to the record that
    was encoded. *)
Example superblock_roundtrip_on_little_endian :
  let sb := superblock_record sample_inodes_per_block sample_magic (101 * 4096) in
  sb_decode LittleEndian (sb_encode LittleEndian sb) = sb.
Proof. vm_compute. reflexivity. Qed.

(** ** The kernel paths on the image of 101 blocks *)

(** C10 for inode number 112 on a filesystem of 112 inodes. *)
Lemma write_inode_out_of_range_witness :
  let m := mk_mirror
             (mirror_counters
                (superblock_record sample_inodes_per_block sample_magic (101 * 4096)))
             [] [] in
  let inode := mk_inode 112 0 0 0 0 0 0 0 0 0 0 [] in
  let s := mk_kstate [] [] in
  simplefs_write_inode LittleEndian sample_inodes_per_block sample_i_data_size inode m s
  = (0, s).
Proof.
  intros m inode s.
  apply (write_inode_out_of_range LittleEndian sample_inodes_per_block sample_i_data_size
           inode m s).
  vm_compute. discriminate.
Defined.

(** C9 on the formatted image: inode bit 5 and block bit 7 marked used
    in memory, a write-through sync, then a mount. *)
Lemma sync_then_mount_keeps_used_bits_witness :
  let disk := image (main LittleEndian sample_inodes_per_block sample_magic every_write_ok
                       (file_of_size (101 * 4096))) in
  let m0 := mk_mirror
              (mirror_counters
                 (superblock_record sample_inodes_per_block sample_magic (101 * 4096)))
              (nth 3 disk []) (nth 4 disk []) in
  let s := mk_kstate disk [] in
  let m := mk_mirror (sbi m0) (set_used (ifree_bitmap m0) 5) (set_used (bfree_bitmap m0) 7) in
  exists s1 m',
    simplefs_sync_fs LittleEndian m 1 s = (0, s1) /\
    fst (simplefs_fill_super LittleEndian sample_magic mount_ready s1)
    = mk_mount_result 0 (Some m') true /\
    sbi m' = mirror_counters (sbi m0) /\
    ifree_bitmap m' = ifree_bitmap m /\
    bfree_bitmap m' = bfree_bitmap m /\
    bitmap_test (ifree_bitmap m') 5 = false /\
    bitmap_test (bfree_bitmap m') 7 = false.
Proof.
  intros disk m0 s.
  apply (sync_then_mount_keeps_used_bits LittleEndian sample_magic m0 5 7 1 mount_ready s).
  - unfold mirror_fits. cbv zeta. subst m0 s. cbn [sbi ifree_bitmap bfree_bitmap kdisk].
    split.
    + unfold sb_in_range.
      repeat (constructor; [vm_compute; split; [discriminate | reflexivity]|]).
      constructor.
    + repeat split; try (vm_compute; reflexivity); vm_compute; discriminate.
  - exists (nth 0 disk []). split; [vm_compute; reflexivity|].
    split; vm_compute; reflexivity.
  - repeat split; reflexivity.
  - subst m0. cbn [sbi]. vm_compute. split; [discriminate | reflexivity].
  - subst m0. cbn [sbi]. vm_compute. discriminate.
  - subst m0. cbn [sbi]. vm_compute. split; [discriminate | reflexivity].
  - subst m0. cbn [sbi]. vm_compute. discriminate.
Defined.

(** ** Further properties on the same inputs *)

Ltac sample_inodes_per_block_ok :=
  unfold inodes_per_block_ok, sample_inodes_per_block, SIMPLEFS_BLOCK_SIZE; lia.
Ltac sample_device_ok := vm_compute; split; [reflexivity | discriminate].
Ltac sample_reaches_size_check :=
  unfold reaches_size_check, file_of_size; cbn;
  repeat split; intros; try reflexivity; discriminate.

(** X1 for the inode bitmap of 112 inodes: one block. *)
Lemma idiv_ceil_is_ceiling_witness :
  idiv_ceil 112 32768 = (112 + 32768 - 1) / 32768.
Proof. apply (idiv_ceil_is_ceiling 112 32768); lia. Defined.

(** X2 at 101 blocks: 112 inodes in 2 inode blocks, one block for each
    bitmap. *)
Lemma geometry_rounding_witness :
  let g := superblock_geometry sample_inodes_per_block (101 * 4096) in
  g_nr_blocks g = 101 * 4096 / SIMPLEFS_BLOCK_SIZE /\
  g_nr_inodes g mod sample_inodes_per_block = 0 /\
  g_nr_blocks g <= g_nr_inodes g < g_nr_blocks g + sample_inodes_per_block /\
  g_nr_istore_blocks g * sample_inodes_per_block = g_nr_inodes g /\
  g_nr_ifree_blocks g = (g_nr_inodes g + BITS_PER_BLOCK - 1) / BITS_PER_BLOCK /\
  g_nr_bfree_blocks g = (g_nr_blocks g + BITS_PER_BLOCK - 1) / BITS_PER_BLOCK.
Proof.
  apply (geometry_rounding sample_inodes_per_block (101 * 4096)).
  - sample_inodes_per_block_ok.
  - sample_device_ok.
Defined.

(** X3 at 101 blocks, where the run of 6 bits stays in the first word
    of the buffer. *)
Lemma main_exit_status_witness :
  let inv := file_of_size (101 * 4096) in
  let o := main LittleEndian sample_inodes_per_block sample_magic every_write_ok inv in
  overrun o = false /\
  (exit_code o = 0 \/ exit_code o = EXIT_FAILURE) /\
  (exit_code o = 0 <-> diag o = None) /\
  (~ reaches_size_check inv -> image o = [] /\ exit_code o = EXIT_FAILURE).
Proof.
  intros inv o.
  assert (Ho : overrun o = false) by (vm_compute; reflexivity).
  split; [exact Ho|].
  exact (main_exit_status LittleEndian sample_inodes_per_block sample_magic every_write_ok
           inv Ho).
Defined.

(** X4 on a target that takes exactly the five blocks of the image: the
    run exits with 0, and the write of its last block, index 4, was
    accepted. *)
Lemma successful_run_wrote_every_block_witness :
  let inv := file_of_size (101 * 4096) in
  let o := main LittleEndian sample_inodes_per_block sample_magic (first_writes_ok 5) inv in
  let g := superblock_geometry sample_inodes_per_block (device_size inv) in
  exit_code o = 0 /\
  Z.of_nat 4 < 1 + g_nr_istore_blocks g + g_nr_ifree_blocks g + g_nr_bfree_blocks g /\
  first_writes_ok 5 4 = true.
Proof.
  intros inv o g.
  assert (He : exit_code o = 0) by (vm_compute; reflexivity).
  assert (Hk : Z.of_nat 4 < 1 + g_nr_istore_blocks g + g_nr_ifree_blocks g
                            + g_nr_bfree_blocks g) by (vm_compute; reflexivity).
  split; [exact He|]. split; [exact Hk|].
  apply (successful_run_wrote_every_block LittleEndian sample_inodes_per_block sample_magic
           (first_writes_ok 5) inv); [reflexivity| | |exact He|exact Hk].
  - unfold inodes_per_block_ok, sample_inodes_per_block, SIMPLEFS_BLOCK_SIZE; lia.
  - vm_compute. discriminate.
Defined.

(** X5 at 101 blocks. *)
Lemma format_succeeds_when_writes_do_witness :
  let o := main LittleEndian sample_inodes_per_block sample_magic every_write_ok
             (file_of_size (101 * 4096)) in
  exit_code o = 0 /\ diag o = None /\ overrun o = false.
Proof.
  apply (format_succeeds_when_writes_do LittleEndian sample_inodes_per_block sample_magic
           every_write_ok (file_of_size (101 * 4096))).
  - intros k. reflexivity.
  - sample_reaches_size_check.
  - sample_inodes_per_block_ok.
  - sample_device_ok.
  - vm_compute. discriminate.
Defined.

(** X6 at 101 blocks: an image of five blocks. *)
Lemma format_image_layout_witness :
  let inv := file_of_size (101 * 4096) in
  let o := main LittleEndian sample_inodes_per_block sample_magic every_write_ok inv in
  let g := superblock_geometry sample_inodes_per_block (device_size inv) in
  let sb := superblock_info LittleEndian sample_inodes_per_block sample_magic
              (device_size inv) in
  exists bfree_first,
    image o
    = sb_bytes LittleEndian sb
      :: (root_inode_block LittleEndian sb
          :: repeat zero_block (Z.to_nat (g_nr_istore_blocks g - 1)))
      ++ (ifree_first_block :: repeat ones_block (Z.to_nat (g_nr_ifree_blocks g - 1)))
      ++ (bfree_first :: repeat ones_block (Z.to_nat (g_nr_bfree_blocks g - 1)))
    /\ Z.of_nat (length (image o))
       = 1 + g_nr_istore_blocks g + g_nr_ifree_blocks g + g_nr_bfree_blocks g
    /\ Forall (fun b => length b = Z.to_nat SIMPLEFS_BLOCK_SIZE) (image o).
Proof.
  intros inv o.
  apply (format_image_layout LittleEndian sample_inodes_per_block sample_magic
           every_write_ok inv).
  - reflexivity.
  - sample_inodes_per_block_ok.
  - vm_compute. discriminate.
  - vm_compute. reflexivity.
Defined.

(** X7 at 101 blocks, formatted on a big-endian host: the root directory
    points at block 5. *)
Lemma root_inode_record_witness :
  let g := superblock_geometry sample_inodes_per_block (101 * 4096) in
  let b := root_inode_block BigEndian
             (superblock_info BigEndian sample_inodes_per_block sample_magic (101 * 4096)) in
  map (le_field b) (seq 0 10)
  = [16893; 0; 0; 4096; 0; 0; 0; 1; 2;
     1 + g_nr_bfree_blocks g + g_nr_ifree_blocks g + g_nr_istore_blocks g] /\
  drop 40 b = repeat 0 4056.
Proof.
  apply (root_inode_record BigEndian sample_inodes_per_block sample_magic (101 * 4096)).
  - sample_inodes_per_block_ok.
  - sample_device_ok.
Defined.

(** X8 at 101 blocks: 111 free inodes. *)
Lemma inode_bitmap_matches_counter_witness :
  let size := 101 * 4096 in
  let sb := superblock_info LittleEndian sample_inodes_per_block sample_magic size in
  let f' := snd (write_ifree_blocks LittleEndian every_write_ok [] sb) in
  let g := superblock_geometry sample_inodes_per_block size in
  count_free (concat (appended [] f')) (Z.to_nat (g_nr_inodes g)) = g_nr_inodes g - 1 /\
  nr_free_inodes (superblock_record sample_inodes_per_block sample_magic size)
  = g_nr_inodes g - 1.
Proof.
  intros size sb f'.
  apply (inode_bitmap_matches_counter LittleEndian sample_inodes_per_block sample_magic
           every_write_ok size [] f').
  - sample_inodes_per_block_ok.
  - sample_device_ok.
  - vm_compute. reflexivity.
Defined.

(** X9 at 101 blocks: 95 free bits, a counter of 96. *)
Lemma block_bitmap_one_below_counter_witness :
  let size := 101 * 4096 in
  let sb := superblock_info LittleEndian sample_inodes_per_block sample_magic size in
  let f' := snd (fst (write_bfree_blocks LittleEndian every_write_ok [] sb)) in
  let g := superblock_geometry sample_inodes_per_block size in
  count_free (concat (appended [] f')) (Z.to_nat (g_nr_blocks g))
  = g_nr_blocks g - g_nr_istore_blocks g - g_nr_ifree_blocks g - g_nr_bfree_blocks g - 2 /\
  nr_free_blocks (superblock_record sample_inodes_per_block sample_magic size)
  = count_free (concat (appended [] f')) (Z.to_nat (g_nr_blocks g)) + 1.
Proof.
  intros size sb f'.
  apply (block_bitmap_one_below_counter LittleEndian sample_inodes_per_block sample_magic
           every_write_ok size [] f' false).
  - sample_inodes_per_block_ok.
  - sample_device_ok.
  - vm_compute. discriminate.
  - vm_compute. reflexivity.
Defined.

(** X10 at 101 blocks on a target that refuses its fourth write (block
    index 3, the inode bitmap). *)
Lemma first_failed_write_stops_format_witness :
  let inv := file_of_size (101 * 4096) in
  let o := main LittleEndian sample_inodes_per_block sample_magic (first_writes_ok 3) inv in
  let g := superblock_geometry sample_inodes_per_block (device_size inv) in
  overrun o = false /\
  (Z.of_nat 3 < 1 + g_nr_istore_blocks g + g_nr_ifree_blocks g + g_nr_bfree_blocks g ->
   exit_code o = EXIT_FAILURE /\
   length (image o) = 3%nat /\
   diag o
   = Some (if Z.of_nat 3 =? 0 then SuperblockFailed
           else if Z.of_nat 3 <=? g_nr_istore_blocks g then InodeStoreFailed
           else if Z.of_nat 3 <=? g_nr_istore_blocks g + g_nr_ifree_blocks g
                then IfreeFailed
           else BfreeFailed)) /\
  (1 + g_nr_istore_blocks g + g_nr_ifree_blocks g + g_nr_bfree_blocks g <= Z.of_nat 3 ->
   exit_code o = 0).
Proof.
  intros inv o.
  apply (first_failed_write_stops_format LittleEndian sample_inodes_per_block sample_magic
           (first_writes_ok 3) inv 3).
  - reflexivity.
  - sample_inodes_per_block_ok.
  - sample_reaches_size_check.
  - sample_device_ok.
  - vm_compute. discriminate.
  - intros j Hj. apply Nat.ltb_lt. exact Hj.
  - reflexivity.
Defined.

(** X11 for inode 57 on a device laid out for 101 blocks (superblock,
    two inode blocks, one block for each bitmap): the second record of
    inode block 2. *)
Lemma write_inode_in_range_witness :
  let disk := [sb_encode LittleEndian
                 (superblock_record sample_inodes_per_block sample_magic (101 * 4096));
               zero_block; zero_block; ifree_first_block; ones_block] in
  let m := mk_mirror
             (mirror_counters
                (superblock_record sample_inodes_per_block sample_magic (101 * 4096)))
             (nth 3 disk []) (nth 4 disk []) in
  let inode := mk_inode 57 33188 1000 1000 5 0 0 0 1 1 9 [104; 105] in
  let s := mk_kstate disk [] in
  let b := nth 2 disk [] in
  exists s' b',
    simplefs_write_inode LittleEndian sample_inodes_per_block sample_i_data_size inode m s
    = (0, s') /\
    kdisk s' = <[2%nat := b']> (kdisk s) /\
    length b' = length b /\
    take 72 b' = take 72 b /\
    slice 72 72 b' = disk_inode_bytes LittleEndian sample_i_data_size inode /\
    drop 144 b' = drop 144 b /\
    klog s' = K_brelse :: K_sync 2 :: K_dirty 2 :: K_bread 2 :: klog s.
Proof.
  intros disk m inode s b.
  apply (write_inode_in_range LittleEndian sample_inodes_per_block sample_i_data_size
           inode m s b).
  - vm_compute. reflexivity.
  - vm_compute. reflexivity.
  - apply Nat.leb_le. vm_compute. reflexivity.
Defined.

(** X12 for inode 57 on a device that has lost its inode store. *)
Lemma write_inode_read_failure_witness :
  let m := mk_mirror
             (mirror_counters
                (superblock_record sample_inodes_per_block sample_magic (101 * 4096)))
             [] [] in
  let inode := mk_inode 57 33188 1000 1000 5 0 0 0 1 1 9 [104; 105] in
  let s := mk_kstate [zero_block] [] in
  simplefs_write_inode LittleEndian sample_inodes_per_block sample_i_data_size inode m s
  = (- EIO, mk_kstate (kdisk s) (K_bread 2 :: klog s)).
Proof.
  intros m inode s.
  apply (write_inode_read_failure LittleEndian sample_inodes_per_block sample_i_data_size
           inode m s).
  - vm_compute. reflexivity.
  - reflexivity.
Defined.

(** X13 for inline data with a NUL in the middle: the byte after the
    NUL is not stored. *)
Lemma disk_inode_record_witness :
  let inode := mk_inode 57 33188 1000 1000 5 0 0 0 1 1 9 [104; 105; 0; 120] in
  map (fun k => host_value BigEndian
                  (slice (4 * k) 4 (disk_inode_bytes BigEndian sample_i_data_size inode)))
    (seq 0 10)
  = [u32 (i_mode inode); u32 (i_uid inode); u32 (i_gid inode); u32 (i_size inode);
     u32 (i_ctime inode); u32 (i_atime inode); u32 (i_mtime inode);
     u32 (i_blocks inode); u32 (i_nlink inode); u32 (ei_block inode)] /\
  drop 40 (disk_inode_bytes BigEndian sample_i_data_size inode)
  = take 2 (i_data inode) ++ repeat 0 (sample_i_data_size - 2).
Proof.
  intros inode.
  apply (disk_inode_record BigEndian sample_i_data_size inode 2).
  - unfold sample_i_data_size. lia.
  - cbn. lia.
  - repeat constructor; discriminate.
  - right. reflexivity.
Defined.

(** X14 on the same device. *)
Lemma sync_fs_return_value_witness :
  let disk := [sb_encode LittleEndian
                 (superblock_record sample_inodes_per_block sample_magic (101 * 4096));
               zero_block; zero_block; ifree_first_block; ones_block] in
  let m := mk_mirror
             (mirror_counters
                (superblock_record sample_inodes_per_block sample_magic (101 * 4096)))
             (nth 3 disk []) (nth 4 disk []) in
  let s := mk_kstate disk [] in
  let r := simplefs_sync_fs LittleEndian m 1 s in
  let last := nr_istore_blocks (sbi m) + nr_ifree_blocks (sbi m) + nr_bfree_blocks (sbi m) in
  (fst r = 0 \/ fst r = - EIO) /\
  (fst r = 0 <->
   (0 < length (kdisk s))%nat /\
   (0 < nr_ifree_blocks (sbi m) + nr_bfree_blocks (sbi m) ->
    last < Z.of_nat (length (kdisk s)))) /\
  length (kdisk (snd r)) = length (kdisk s).
Proof.
  intros disk m s.
  apply (sync_fs_return_value LittleEndian m 1 s).
  - subst m. cbn [sbi]. unfold sb_in_range.
    repeat (constructor; [vm_compute; split; [discriminate | reflexivity]|]).
    constructor.
  - subst m. cbn [sbi]. vm_compute. discriminate.
Defined.

(** X15 on the same device cut after its fourth block: the block
    bitmap is missing. *)
Lemma sync_fs_fails_after_superblock_witness :
  let disk := [sb_encode LittleEndian
                 (superblock_record sample_inodes_per_block sample_magic (101 * 4096));
               zero_block; zero_block; ifree_first_block; ones_block] in
  let m := mk_mirror
             (mirror_counters
                (superblock_record sample_inodes_per_block sample_magic (101 * 4096)))
             (nth 3 disk []) (nth 4 disk []) in
  let s := mk_kstate (take 4 disk) [] in
  exists s',
    simplefs_sync_fs LittleEndian m 1 s = (- EIO, s') /\
    kdisk s' !! 0%nat = Some (sync_sb_block LittleEndian (nth 0 disk []) (sbi m)).
Proof.
  intros disk m s.
  apply (sync_fs_fails_after_superblock LittleEndian m 1 s (nth 0 disk [])).
  - subst m. cbn [sbi]. unfold sb_in_range.
    repeat (constructor; [vm_compute; split; [discriminate | reflexivity]|]).
    constructor.
  - subst m. cbn [sbi]. vm_compute. discriminate.
  - vm_compute. reflexivity.
  - subst m. cbn [sbi]. vm_compute. reflexivity.
  - subst m s. cbn [sbi kdisk]. vm_compute. discriminate.
Defined.

(** X16 on a device of that layout followed by one data block. *)
Lemma sync_fs_frame_witness :
  let disk := [sb_encode LittleEndian
                 (superblock_record sample_inodes_per_block sample_magic (101 * 4096));
               zero_block; zero_block; ifree_first_block; ones_block] in
  let m := mk_mirror
             (mirror_counters
                (superblock_record sample_inodes_per_block sample_magic (101 * 4096)))
             (set_used (nth 3 disk []) 5) (set_used (nth 4 disk []) 7) in
  let s := mk_kstate (disk ++ [ones_block]) [] in
  exists s' b0',
    simplefs_sync_fs LittleEndian m 1 s = (0, s') /\
    kdisk s' !! 0%nat = Some b0' /\
    length b0' = length (nth 0 disk []) /\
    take 4 b0' = take 4 (nth 0 disk []) /\
    drop 32 b0' = drop 32 (nth 0 disk []) /\
    forall j : nat,
      1 <= Z.of_nat j <= nr_istore_blocks (sbi m) \/
      1 + nr_istore_blocks (sbi m) + nr_ifree_blocks (sbi m) + nr_bfree_blocks (sbi m)
      <= Z.of_nat j ->
      kdisk s' !! j = kdisk s !! j.
Proof.
  intros disk m s.
  apply (sync_fs_frame LittleEndian m 1 s (nth 0 disk [])).
  - unfold mirror_fits. cbv zeta. subst m s. cbn [sbi ifree_bitmap bfree_bitmap kdisk].
    split.
    + unfold sb_in_range.
      repeat (constructor; [vm_compute; split; [discriminate | reflexivity]|]).
      constructor.
    + repeat split; try (vm_compute; reflexivity); vm_compute; discriminate.
  - vm_compute. reflexivity.
  - apply Nat.leb_le. vm_compute. reflexivity.
Defined.

(** X17 on the same device: a write-through sync, then a lazy one. *)
Lemma sync_fs_idempotent_witness :
  let disk := [sb_encode LittleEndian
                 (superblock_record sample_inodes_per_block sample_magic (101 * 4096));
               zero_block; zero_block; ifree_first_block; ones_block] in
  let m := mk_mirror
             (mirror_counters
                (superblock_record sample_inodes_per_block sample_magic (101 * 4096)))
             (set_used (nth 3 disk []) 5) (set_used (nth 4 disk []) 7) in
  let s := mk_kstate (disk ++ [ones_block]) [] in
  exists s1 s2,
    simplefs_sync_fs LittleEndian m 1 s = (0, s1) /\
    simplefs_sync_fs LittleEndian m 0 s1 = (0, s2) /\
    kdisk s2 = kdisk s1.
Proof.
  intros disk m s.
  apply (sync_fs_idempotent LittleEndian m 1 0 s (nth 0 disk [])).
  - unfold mirror_fits. cbv zeta. subst m s. cbn [sbi ifree_bitmap bfree_bitmap kdisk].
    split.
    + unfold sb_in_range.
      repeat (constructor; [vm_compute; split; [discriminate | reflexivity]|]).
      constructor.
    + repeat split; try (vm_compute; reflexivity); vm_compute; discriminate.
  - vm_compute. reflexivity.
  - apply Nat.leb_le. vm_compute. reflexivity.
Defined.


(** X23 on the whole device, when only the mirror itself can be
    allocated. *)
Lemma mount_bitmap_alloc_failure_witness :
  let disk := [sb_encode LittleEndian
                 (superblock_record sample_inodes_per_block sample_magic (101 * 4096));
               zero_block; zero_block; ifree_first_block; ones_block] in
  let env := mk_mount_env true false true 0 true in
  let s := mk_kstate disk [] in
  simplefs_fill_super LittleEndian sample_magic env s
  = (mk_mount_result (- ENOMEM)
       (Some (mk_mirror (mirror_counters (sb_decode LittleEndian (nth 0 disk []))) [] []))
       false,
     mk_kstate (kdisk s)
       (K_brelse :: K_kfree :: K_kzalloc :: K_brelse :: K_kzalloc :: K_bread 0 :: klog s)).
Proof.
  intros disk env s.
  apply (mount_bitmap_alloc_failure LittleEndian sample_magic env s (nth 0 disk [])).
  - vm_compute. reflexivity.
  - vm_compute. reflexivity.
  - reflexivity.
  - reflexivity.
Defined.

(** X24 on the device of 101 blocks: the five blocks of the image, then
    96 blocks that format did not write. *)
Lemma format_then_mount_witness :
  let inv := file_of_size (101 * 4096) in
  let g := superblock_geometry sample_inodes_per_block (device_size inv) in
  let img := image (main LittleEndian sample_inodes_per_block sample_magic every_write_ok
                      inv) in
  exists m,
    fst (simplefs_fill_super LittleEndian sample_magic mount_ready
           (mk_kstate (img ++ repeat zero_block 96) []))
    = mk_mount_result 0 (Some m) true /\
    sbi m = mirror_counters
              (superblock_record sample_inodes_per_block sample_magic (device_size inv)) /\
    ifree_bitmap m
    = concat (take (Z.to_nat (g_nr_ifree_blocks g))
                (drop (Z.to_nat (1 + g_nr_istore_blocks g)) img)) /\
    bfree_bitmap m
    = concat (drop (Z.to_nat (1 + g_nr_istore_blocks g + g_nr_ifree_blocks g)) img) /\
    find_first_free (ifree_bitmap m) (nr_inodes (sbi m)) = Some 1 /\
    find_first_free (bfree_bitmap m) (nr_blocks (sbi m))
    = Some (2 + g_nr_istore_blocks g + g_nr_ifree_blocks g + g_nr_bfree_blocks g).
Proof.
  intros inv.
  apply (format_then_mount LittleEndian sample_inodes_per_block sample_magic every_write_ok
           inv mount_ready (repeat zero_block 96) []).
  - reflexivity.
  - sample_inodes_per_block_ok.
  - vm_compute. split; [discriminate | reflexivity].
  - vm_compute. discriminate.
  - vm_compute. discriminate.
  - vm_compute. reflexivity.
  - repeat split; reflexivity.
Defined.

(** X25 on the same device: 101 blocks, 96 reported free, one file,
    111 free inodes. *)
Lemma statfs_after_format_witness :
  let inv := file_of_size (101 * 4096) in
  let g := superblock_geometry sample_inodes_per_block (device_size inv) in
  exists m,
    fst (simplefs_fill_super LittleEndian sample_magic mount_ready
           (mk_kstate
              (image (main LittleEndian sample_inodes_per_block sample_magic
                        every_write_ok inv) ++ repeat zero_block 96) []))
    = mk_mount_result 0 (Some m) true /\
    simplefs_statfs sample_magic 28 m
    = {| f_type := sample_magic;
         f_bsize := 4096;
         f_blocks := g_nr_blocks g;
         f_bfree := g_nr_blocks g - g_nr_istore_blocks g - g_nr_ifree_blocks g
                    - g_nr_bfree_blocks g - 1;
         f_bavail := g_nr_blocks g - g_nr_istore_blocks g - g_nr_ifree_blocks g
                     - g_nr_bfree_blocks g - 1;
         f_files := 1;
         f_ffree := g_nr_inodes g - 1;
         f_namelen := 28 |}.
Proof.
  intros inv.
  apply (statfs_after_format LittleEndian sample_inodes_per_block sample_magic
           every_write_ok inv mount_ready (repeat zero_block 96) [] 28).
  - reflexivity.
  - sample_inodes_per_block_ok.
  - vm_compute. split; [discriminate | reflexivity].
  - vm_compute. discriminate.
  - vm_compute. discriminate.
  - vm_compute. reflexivity.
  - repeat split; reflexivity.
Defined.

(** X27 when [unregister_filesystem] answers -EBUSY. *)
Lemma module_exit_after_init_witness :
  let env := mk_module_env true 0 (-16) in
  let st := mk_module_state false false [] in
  let st2 := simplefs_exit env (mk_module_state true true [ModuleLoaded]) in
  inode_cache st2 = false /\
  registered st2 = negb (unregister_ret env =? 0) /\
  printk st2
  = ModuleUnloaded
    :: (if unregister_ret env =? 0 then [] else [UnregisterFailed])
    ++ ModuleLoaded :: printk st.
Proof.
  intros env st.
  apply (module_exit_after_init env st (mk_module_state true true [ModuleLoaded])).
  reflexivity.
Defined.

(** X28 for a device of 101 blocks formatted on a big-endian host. *)
Lemma format_metadata_across_hosts_witness :
  let sbh := superblock_info BigEndian sample_inodes_per_block sample_magic (101 * 4096) in
  let sbl := superblock_info LittleEndian sample_inodes_per_block sample_magic (101 * 4096) in
  sb_bytes BigEndian sbh = sb_bytes LittleEndian sbl /\
  root_inode_block BigEndian sbh = root_inode_block LittleEndian sbl /\
  write_ifree_blocks BigEndian every_write_ok [] sbh
  = write_ifree_blocks LittleEndian every_write_ok [] sbl /\
  write_bfree_blocks BigEndian every_write_ok [] sbh
  = write_bfree_blocks LittleEndian every_write_ok [] sbl.
Proof.
  apply (format_metadata_across_hosts BigEndian sample_inodes_per_block sample_magic
           every_write_ok (101 * 4096) []).
  reflexivity.
Defined.

(** X29 for a device of 101 blocks: the inode store has 2 blocks, and a
    big-endian host asks for 0x02000000 of them. *)
Lemma inode_store_on_big_endian_witness :
  let g := superblock_geometry sample_inodes_per_block (101 * 4096) in
  let sb := superblock_info BigEndian sample_inodes_per_block sample_magic (101 * 4096) in
  bswap 4 (g_nr_istore_blocks g) = 33554432 /\
  write_inode_store BigEndian every_write_ok [] sb
  = (0, [] ++ root_inode_block BigEndian sb
          :: repeat zero_block (Z.to_nat (bswap 4 (g_nr_istore_blocks g) - 1))).
Proof.
  split; [vm_compute; reflexivity|].
  apply (inode_store_on_big_endian sample_inodes_per_block sample_magic every_write_ok
           (101 * 4096) []).
  intros k. reflexivity.
Defined.
